(** * RYUNEX AI: the local store, the usage governor, the Gemini key
      rotation and the chat orchestrator, embedded from the JavaScript
      sources and checked against the written specification.

    Sources embedded here:
    - [utils/storage] (localStorage utilities, daily usage tracking),
    - [utils/api] ([GeminiManager], [callGeminiAPI]),
    - [components/MainChat.jsx] ([handleSendMessage]),
    - [components/MainChat.jsx], [App.jsx], [components/Sidebar.jsx] (the
      effects and handlers that choose the current chat),
    - [components/Chat.jsx] (its failover loop over [MODEL_CONFIG], its
      list of conversations).

    JavaScript strings are modelled by [string]: one [ascii] is one code
    unit below 256.  JavaScript numbers are modelled by [Z]: the values
    the code computes with (message counters, indices) are safe integers,
    on which the arithmetic used here is exact. *)

From Stdlib Require Import ZArith Lia Bool Ascii String Sorted.
From stdpp Require Import gmap strings pretty list fin_maps.

Local Open Scope string_scope.

(* ===================================================================== *)
(** ** JavaScript values and the operations the sources use on them      *)
(* ===================================================================== *)

Module JS.

(** A JSON-serialisable value.  A JavaScript value of the sources is an
    [option JSON]: [None] is [undefined]. *)
#[warnings="-register-all"]
Inductive JSON : Type :=
| JNull
| JBool (b : bool)
| JNum (n : Z)
| JStr (s : string)
| JArr (elems : list JSON)
| JObj (fields : list (string * JSON)).

Definition Value : Type := option JSON.

(** An exception value: [error.name] and [error.message]. *)
Record JSError : Type := mkError { name : string; message : string }.

Definition TypeError (msg : string) : JSError := mkError "TypeError" msg.
Definition SyntaxError (msg : string) : JSError := mkError "SyntaxError" msg.

(** The result of evaluating an expression that may throw. *)
Inductive Res (A : Type) : Type :=
| Ok (a : A)
| Throw (e : JSError).
Arguments Ok {A} a.
Arguments Throw {A} e.

(** The result of a numeric conversion. *)
Inductive JSNumber : Type :=
| Int (z : Z)
| NaN.

(** What the sources take from the JavaScript engine and the clock:
    the local calendar day ([getTodayDateString]), the successive
    readings of [Date.now()] and [new Date().toISOString()] made by one
    handler, [toLocaleTimeString], and the conversion
    of strings, arrays and objects to numbers and to strings (used only
    when a stored counter is not a number). *)
Record Engine : Type := mkEngine {
  today : string;
  now : nat -> Z;
  nowISO : nat -> string;
  toLocaleTimeString : Value -> string;
  coerceNumber : JSON -> JSNumber;
  coerceString : JSON -> string
}.

(** [!!v]: JavaScript truthiness. *)
Definition truthy (v : Value) : bool :=
  match v with
  | None => false
  | Some JNull => false
  | Some (JBool b) => b
  | Some (JNum n) => negb (n =? 0)%Z
  | Some (JStr s) => negb (String.eqb s "")
  | Some (JArr _) => true
  | Some (JObj _) => true
  end.

(** [a || b]. *)
Definition js_or (a b : Value) : Value := if truthy a then a else b.

(** Lookup of a key in the field list of an object.  A parsed object
    binds each key once; [assoc] and [assign] both act on the first
    binding. *)
Fixpoint assoc (k : string) (fs : list (string * JSON)) : Value :=
  match fs with
  | [] => None
  | (k', v) :: rest => if String.eqb k k' then Some v else assoc k rest
  end.

(** [obj.k = v]: overwrite in place when the key exists, add it at the end
    otherwise. *)
Fixpoint assign (k : string) (v : JSON) (fs : list (string * JSON))
  : list (string * JSON) :=
  match fs with
  | [] => [(k, v)]
  | (k', v') :: rest =>
      if String.eqb k k' then (k', v) :: rest else (k', v') :: assign k v rest
  end.

(** [v.k] for the keys the sources read ([date], [count], [id], [title],
    [messages], [role], [text], [content], [createdAt], [mode]); none of
    them is a built-in property of a primitive or of an array.  Reading a
    property of [null] or [undefined] throws. *)
Definition get_prop (v : Value) (k : string) : Res Value :=
  match v with
  | None => Throw (TypeError "Cannot read properties of undefined")
  | Some JNull => Throw (TypeError "Cannot read properties of null")
  | Some (JObj fs) => Ok (assoc k fs)
  | Some _ => Ok None
  end.

(** [a === b] where one side is a primitive or a freshly built value:
    primitives compare by value, two distinct objects are never equal. *)
Definition strict_eq (a b : Value) : bool :=
  match a, b with
  | None, None => true
  | Some JNull, Some JNull => true
  | Some (JBool x), Some (JBool y) => Bool.eqb x y
  | Some (JNum x), Some (JNum y) => (x =? y)%Z
  | Some (JStr x), Some (JStr y) => String.eqb x y
  | _, _ => false
  end.

(** ToNumber. *)
Definition to_number (E : Engine) (v : Value) : JSNumber :=
  match v with
  | None => NaN
  | Some JNull => Int 0
  | Some (JBool b) => Int (if b then 1 else 0)
  | Some (JNum n) => Int n
  | Some w => coerceNumber E w
  end.

(** [a >= b] on numbers: false as soon as one side is NaN. *)
Definition num_ge (a b : JSNumber) : bool :=
  match a, b with
  | Int x, Int y => (y <=? x)%Z
  | _, _ => false
  end.

(** [a - b] on numbers. *)
Definition num_sub (a b : JSNumber) : JSNumber :=
  match a, b with
  | Int x, Int y => Int (x - y)
  | _, _ => NaN
  end.

(** [Math.max(a, b)]: NaN as soon as one argument is NaN. *)
Definition Math_max (a b : JSNumber) : JSNumber :=
  match a, b with
  | Int x, Int y => Int (Z.max x y)
  | _, _ => NaN
  end.

(** [v + 1], as JSON.stringify will write it: numeric addition when [v]
    converts to a primitive number (NaN is written as [null]), string
    concatenation when [v] converts to a primitive string. *)
Definition plus_one (E : Engine) (v : Value) : JSON :=
  match v with
  | None => JNull
  | Some JNull => JNum 1
  | Some (JBool b) => JNum (if b then 2 else 1)
  | Some (JNum n) => JNum (n + 1)
  | Some (JStr s) => JStr (s ++ "1")
  | Some w => JStr (coerceString E w ++ "1")
  end.

(** [{...v}] for a value read back from JSON: the own enumerable
    properties of an object, the indexed elements of an array or of a
    string, nothing for the other primitives. *)
Definition spread (v : Value) : list (string * JSON) :=
  match v with
  | Some (JObj fs) => fs
  | Some (JArr l) => imap (fun i x => (pretty i, x)) l
  | Some (JStr s) =>
      imap (fun i c => (pretty i, JStr (String c EmptyString))) (String.list_ascii_of_string s)
  | _ => []
  end.

(** [s.startsWith(p)]. *)
Definition startsWith (s p : string) : bool := String.prefix p s.

(** [s.slice(0, n)] for [n >= 0]. *)
Definition slice0 (n : nat) (s : string) : string := String.substring 0 (Nat.min n (String.length s)) s.

(** White space and line terminators removed by [trim], among the code
    units below 256: TAB, LF, VT, FF, CR, SPACE and NBSP. *)
Definition is_white (c : ascii) : bool :=
  let n := nat_of_ascii c in
  existsb (Nat.eqb n) [9; 10; 11; 12; 13; 32; 160]%nat.

Fixpoint trimStart (s : string) : string :=
  match s with
  | EmptyString => EmptyString
  | String c rest => if is_white c then trimStart rest else s
  end.

(** Removes trailing white space: a character is kept when something
    that is kept follows it, or when it is not white space. *)
Fixpoint trimEnd (s : string) : string :=
  match s with
  | EmptyString => EmptyString
  | String c rest =>
      match trimEnd rest with
      | EmptyString => if is_white c then EmptyString else String c EmptyString
      | kept => String c kept
      end
  end.

(** [s.trim()]. *)
Definition trim (s : string) : string := trimEnd (trimStart s).

End JS.

(* ===================================================================== *)
(** ** [localStorage] and the storage utilities ([utils/storage])        *)
(* ===================================================================== *)

Module Storage.
Import JS.

(** A string held by [localStorage].  [Json v] is the string
    [JSON.stringify(v)], on which [JSON.parse] returns [v]; [Raw s] is the
    string [s] itself, standing for text that is not JSON ([JSON.parse]
    throws on it).  The one key the sources write raw,
    [ryunex_current_chat_id], is never parsed. *)
Inductive Text : Type :=
| Raw (s : string)
| Json (v : JSON).

(** The browser store.  [available = false]: storage is disabled, every
    access throws.  [writable = false]: the quota is exhausted, every
    [setItem] throws. *)
Record LocalStorage : Type := mkStorage {
  items : gmap string Text;
  available : bool;
  writable : bool
}.

(** Computations over the store that may throw; what was written before
    a throw stays written. *)
Definition M (A : Type) : Type := LocalStorage -> Res A * LocalStorage.

Definition ret {A} (a : A) : M A := fun ls => (Ok a, ls).
Definition throw {A} (e : JSError) : M A := fun ls => (Throw e, ls).
Definition lift {A} (r : Res A) : M A := fun ls => (r, ls).
Definition bind {A B} (c : M A) (k : A -> M B) : M B :=
  fun ls => match c ls with
            | (Ok a, ls') => k a ls'
            | (Throw e, ls') => (Throw e, ls')
            end.
(** [try { c } catch (error) { h error }]. *)
Definition try_catch {A} (c : M A) (h : JSError -> M A) : M A :=
  fun ls => match c ls with
            | (Ok a, ls') => (Ok a, ls')
            | (Throw e, ls') => h e ls'
            end.

Declare Scope js_scope.
Delimit Scope js_scope with js.
Notation "x <- c ;; k" := (bind c (fun x => k))
  (at level 100, c at next level, right associativity) : js_scope.
Notation "c ;;; k" := (bind c (fun _ => k))
  (at level 100, right associativity) : js_scope.
Local Open Scope js_scope.

Definition SecurityError : JSError := mkError "SecurityError" "The operation is insecure.".
Definition QuotaExceededError : JSError := mkError "QuotaExceededError" "The quota has been exceeded.".

(** [localStorage.getItem(k)]: [None] is [null]. *)
Definition getItem (k : string) : M (option Text) :=
  fun ls => if available ls then (Ok (items ls !! k), ls) else (Throw SecurityError, ls).

(** The store once [k] holds [v]. *)
Definition written (k : string) (v : Text) (ls : LocalStorage) : LocalStorage :=
  mkStorage (<[k := v]> (items ls)) (available ls) (writable ls).

(** [localStorage.setItem(k, v)]. *)
Definition setItem (k : string) (v : Text) : M unit :=
  fun ls =>
    if available ls then
      if writable ls then (Ok tt, written k v ls)
      else (Throw QuotaExceededError, ls)
    else (Throw SecurityError, ls).

(** [JSON.parse(t)] and [JSON.stringify(v)]. *)
Definition JSON_parse (t : Text) : Res JSON :=
  match t with
  | Json v => Ok v
  | Raw _ => Throw (SyntaxError "Unexpected token")
  end.
Definition JSON_stringify (v : JSON) : Text := Json v.

(** [!stored] for the result of [getItem]: true on [null] and on the
    empty string. *)
Definition is_empty (stored : option Text) : bool :=
  match stored with
  | None => true
  | Some (Raw s) => String.eqb s ""
  | Some (Json _) => false
  end.

(** [STORAGE_KEYS] and [MAX_DAILY_MESSAGES]. *)
Definition CHAT_HISTORY : string := "ryunex_chat_history".
Definition DAILY_USAGE : string := "ryunex_daily_usage".
Definition CURRENT_CHAT_ID : string := "ryunex_current_chat_id".
Definition MAX_DAILY_MESSAGES : Z := 25.

Definition getTodayDateString (E : Engine) : string := today E.

Definition isNewDay (E : Engine) (lastDateString : Value) : bool :=
  negb (strict_eq lastDateString (Some (JStr (getTodayDateString E)))).

(** The object literal [{ count: c, date: d }]. *)
Definition usageRecord (c : Z) (d : string) : JSON :=
  JObj [("count", JNum c); ("date", JStr d)].

Definition getDailyUsage (E : Engine) : M JSON :=
  try_catch
    (stored <- getItem DAILY_USAGE ;;
     match stored with
     | Some t =>
         if is_empty stored then ret (usageRecord 0 (getTodayDateString E))
         else
           usage <- lift (JSON_parse t) ;;
           date <- lift (get_prop (Some usage) "date") ;;
           if isNewDay E date then
             let newUsage := usageRecord 0 (getTodayDateString E) in
             (setItem DAILY_USAGE (JSON_stringify newUsage) ;;;
              ret newUsage)
           else ret usage
     | None => ret (usageRecord 0 (getTodayDateString E))
     end)
    (fun error => ret (usageRecord 0 (getTodayDateString E))).

Definition incrementDailyUsage (E : Engine) : M JSON :=
  try_catch
    (usage <- getDailyUsage E ;;
     count <- lift (get_prop (Some usage) "count") ;;
     let newUsage := JObj (assign "count" (plus_one E count) (spread (Some usage))) in
     (setItem DAILY_USAGE (JSON_stringify newUsage) ;;;
      ret newUsage))
    (fun error => ret (usageRecord 0 (getTodayDateString E))).

Definition isDailyLimitReached (E : Engine) : M bool :=
  usage <- getDailyUsage E ;;
  count <- lift (get_prop (Some usage) "count") ;;
  ret (num_ge (to_number E count) (Int MAX_DAILY_MESSAGES)).

Definition getRemainingMessages (E : Engine) : M JSNumber :=
  usage <- getDailyUsage E ;;
  count <- lift (get_prop (Some usage) "count") ;;
  ret (Math_max (Int 0) (num_sub (Int MAX_DAILY_MESSAGES) (to_number E count))).

Definition getChatHistory : M JSON :=
  try_catch
    (stored <- getItem CHAT_HISTORY ;;
     match stored with
     | Some t => if is_empty stored then ret (JArr []) else lift (JSON_parse t)
     | None => ret (JArr [])
     end)
    (fun error => ret (JArr [])).

(** The [catch] branch only writes to the console. *)
Definition saveChatHistory (chats : JSON) : M unit :=
  try_catch (setItem CHAT_HISTORY (JSON_stringify chats)) (fun error => ret tt).

(** Returns the stored string, or [null]. *)
Definition getCurrentChatId : M (option Text) :=
  try_catch (getItem CURRENT_CHAT_ID) (fun error => ret None).

(** [String(v)]. *)
Definition to_String (E : Engine) (v : Value) : string :=
  match v with
  | None => "undefined"
  | Some JNull => "null"
  | Some (JBool b) => if b then "true" else "false"
  | Some (JNum n) => pretty n
  | Some (JStr s) => s
  | Some w => coerceString E w
  end.

Definition saveCurrentChatId (E : Engine) (chatId : Value) : M unit :=
  try_catch (setItem CURRENT_CHAT_ID (Raw (to_String E chatId))) (fun error => ret tt).

(** [arr.findIndex(p)] on an array, with a callback that may throw;
    [None] is the result [-1]. *)
Fixpoint findIndex_from (p : JSON -> Res bool) (l : list JSON) (i : nat) : Res (option nat) :=
  match l with
  | [] => Ok None
  | x :: rest =>
      match p x with
      | Throw e => Throw e
      | Ok true => Ok (Some i)
      | Ok false => findIndex_from p rest (S i)
      end
  end.

(** [arr.find(p)]: [None] is [undefined]. *)
Fixpoint find_in (p : JSON -> Res bool) (l : list JSON) : Res Value :=
  match l with
  | [] => Ok None
  | x :: rest =>
      match p x with
      | Throw e => Throw e
      | Ok true => Ok (Some x)
      | Ok false => find_in p rest
      end
  end.

(** A value read back from JSON has the array methods only when it is an
    array. *)
Definition array_findIndex (p : JSON -> Res bool) (v : JSON) : Res (option nat) :=
  match v with
  | JArr l => findIndex_from p l 0
  | _ => Throw (TypeError "findIndex is not a function")
  end.

Definition array_find (p : JSON -> Res bool) (v : JSON) : Res Value :=
  match v with
  | JArr l => find_in p l
  | _ => Throw (TypeError "find is not a function")
  end.

(** The callback [c => c.id === chatId]. *)
Definition has_id (chatId : JSON) (c : JSON) : Res bool :=
  match get_prop (Some c) "id" with
  | Ok v => Ok (strict_eq v (Some chatId))
  | Throw e => Throw e
  end.

(** The callback [m => m.role === 'user']. *)
Definition is_user_message (m : JSON) : Res bool :=
  match get_prop (Some m) "role" with
  | Ok v => Ok (strict_eq v (Some (JStr "user")))
  | Throw e => Throw e
  end.

(** [!title || title.startsWith('New Chat')]. *)
Definition needs_title (title : Value) : Res bool :=
  if negb (truthy title) then Ok true
  else match title with
       | Some (JStr s) => Ok (startsWith s "New Chat")
       | _ => Throw (TypeError "title.startsWith is not a function")
       end.

(** [v.slice(0, 50)]: strings and arrays have [slice]. *)
Definition slice_50 (v : Value) : Res JSON :=
  match v with
  | Some (JStr s) => Ok (JStr (slice0 50 s))
  | Some (JArr l) => Ok (JArr (take 50 l))
  | _ => Throw (TypeError "slice is not a function")
  end.

(** The title update of [updateChatMessages] on the chat object [fs],
    whose [messages] were just replaced. *)
Definition derive_title (E : Engine) (messages : JSON) (fs : list (string * JSON))
  : Res (list (string * JSON)) :=
  match needs_title (assoc "title" fs) with
  | Throw e => Throw e
  | Ok false => Ok fs
  | Ok true =>
      match array_find is_user_message messages with
      | Throw e => Throw e
      | Ok firstUserMessage =>
          if truthy firstUserMessage then
            match get_prop firstUserMessage "text", get_prop firstUserMessage "content" with
            | Ok text, Ok content =>
                match slice_50 (js_or (js_or text content) (Some (JStr ""))) with
                | Throw e => Throw e
                | Ok title =>
                    let fallback :=
                      JStr ("Chat " ++ toLocaleTimeString E (assoc "createdAt" fs)) in
                    Ok (assign "title" (if truthy (Some title) then title else fallback) fs)
                end
            | Throw e, _ => Throw e
            | _, Throw e => Throw e
            end
          else Ok fs
      end
  end.

(** [chatId] and [messages] are defined values (the callers pass an id
    they tested for truthiness and an array they built).  A chat found by
    its [id] is an object, as only objects have an [id]. *)
Definition updateChatMessages (E : Engine) (chatId : JSON) (messages : JSON) : M unit :=
  chats <- getChatHistory ;;
  chatIndex <- lift (array_findIndex (has_id chatId) chats) ;;
  match chatIndex, chats with
  | Some i, JArr l =>
      match l !! i with
      | Some (JObj fs) =>
          fs' <- lift (derive_title E messages (assign "messages" messages fs)) ;;
          saveChatHistory (JArr (<[i := JObj fs']> l))
      | _ => throw (TypeError "Cannot create property 'messages'")
      end
  | _, _ => ret tt
  end.

(** The callback [c => c.id !== chatId]. *)
Definition has_other_id (chatId : JSON) (c : JSON) : Res bool :=
  match has_id chatId c with
  | Ok b => Ok (negb b)
  | Throw e => Throw e
  end.

(** [arr.filter(p)] with a callback that may throw. *)
Fixpoint filter_in (p : JSON -> Res bool) (l : list JSON) : Res (list JSON) :=
  match l with
  | [] => Ok []
  | x :: rest =>
      match p x with
      | Throw e => Throw e
      | Ok b =>
          match filter_in p rest with
          | Throw e => Throw e
          | Ok kept => Ok (if b then x :: kept else kept)
          end
      end
  end.

Definition deleteChat (chatId : JSON) : M JSON :=
  chats <- getChatHistory ;;
  match chats with
  | JArr l =>
      filtered <- lift (filter_in (has_other_id chatId) l) ;;
      (saveChatHistory (JArr filtered) ;;;
       ret (JArr filtered))
  | _ => throw (TypeError "filter is not a function")
  end.

Definition getChatById (chatId : JSON) : M Value :=
  chats <- getChatHistory ;;
  lift (array_find (has_id chatId) chats).

(** A stored string the readers cannot parse: absent, or not JSON (the
    empty string included). *)
Definition unreadable (stored : option Text) : bool :=
  match stored with
  | None => true
  | Some (Raw _) => true
  | Some (Json _) => false
  end.

(** The messages and chats the application itself builds, as typed
    records: the object literals of [handleSendMessage] and of
    [createNewChat]. *)
Record Message : Type := mkMessage {
  m_id : Z;
  m_role : string;
  m_text : string;
  m_timestamp : string;
  m_modelUsed : option string;
  m_isError : bool
}.

Record Chat : Type := mkChat {
  c_id : Z;
  c_title : string;
  c_mode : string;
  c_messages : list Message;
  c_createdAt : string
}.

Definition encode_message (m : Message) : JSON :=
  JObj ([("id", JNum (m_id m)); ("role", JStr (m_role m)); ("text", JStr (m_text m));
         ("timestamp", JStr (m_timestamp m))]
        ++ match m_modelUsed m with
           | Some n => [("modelUsed", JStr n)]
           | None => []
           end
        ++ (if m_isError m then [("isError", JBool true)] else []))%list.

Definition chat_fields (c : Chat) : list (string * JSON) :=
  [("id", JNum (c_id c)); ("title", JStr (c_title c)); ("mode", JStr (c_mode c));
   ("messages", JArr (map encode_message (c_messages c)));
   ("createdAt", JStr (c_createdAt c))].

Definition encode_chat (c : Chat) : JSON := JObj (chat_fields c).

(** The fields of an encoded chat once its messages are replaced. *)
Definition with_messages (c : Chat) (messages : JSON) : list (string * JSON) :=
  assign "messages" messages (chat_fields c).

(** The object literal of [createNewChat]. *)
Definition newChat (E : Engine) (mode : string) : JSON :=
  JObj [("id", JNum (now E 0)); ("title", JStr ("New Chat - " ++ mode)); ("mode", JStr mode);
        ("messages", JArr []); ("createdAt", JStr (nowISO E 0))].

(** [createNewChat(mode)]: [chats.unshift(chat)] needs an array. *)
Definition createNewChat (E : Engine) (mode : string) : M JSON :=
  chats <- getChatHistory ;;
  match chats with
  | JArr l =>
      (saveChatHistory (JArr (newChat E mode :: l)) ;;;
       (saveCurrentChatId E (Some (JNum (now E 0))) ;;;
        ret (newChat E mode)))
  | JNull => throw (TypeError "Cannot read properties of null (reading 'unshift')")
  | _ => throw (TypeError "chats.unshift is not a function")
  end.

(** [n] calls of [incrementDailyUsage] in a row: the store they leave. *)
Fixpoint increments (E : Engine) (n : nat) (ls : LocalStorage) : LocalStorage :=
  match n with
  | O => ls
  | S k => snd (incrementDailyUsage E (increments E k ls))
  end.

(** *** The typed reading of the chat operations

    What [updateChatMessages], [deleteChat] and [getChatById] come to on
    a history of chats built by the application, written on the typed
    records; the properties below relate the JavaScript functions to
    these. *)

Definition first_user (ms : list Message) : option Message :=
  List.find (fun m => String.eqb (m_role m) "user") ms.

Definition derived_title (E : Engine) (c : Chat) (ms : list Message) : string :=
  if String.eqb (c_title c) "" || startsWith (c_title c) "New Chat" then
    match first_user ms with
    | Some m =>
        if String.eqb (slice0 50 (m_text m)) ""
        then "Chat " ++ toLocaleTimeString E (Some (JStr (c_createdAt c)))
        else slice0 50 (m_text m)
    | None => c_title c
    end
  else c_title c.

Definition set_messages (E : Engine) (c : Chat) (ms : list Message) : Chat :=
  mkChat (c_id c) (derived_title E c ms) (c_mode c) ms (c_createdAt c).

Fixpoint update_first (E : Engine) (id : Z) (ms : list Message) (chats : list Chat)
  : list Chat :=
  match chats with
  | [] => []
  | c :: rest =>
      if (c_id c =? id)%Z then set_messages E c ms :: rest
      else c :: update_first E id ms rest
  end.

(** The position of the first chat with the given id. *)
Fixpoint position (id : Z) (chats : list Chat) : option nat :=
  match chats with
  | [] => None
  | c :: rest =>
      if (c_id c =? id)%Z then Some 0
      else match position id rest with
           | Some i => Some (S i)
           | None => None
           end
  end.

Definition lookup_chat (id : Z) (chats : list Chat) : option Chat :=
  List.find (fun c => (c_id c =? id)%Z) chats.

Definition without (id : Z) (chats : list Chat) : list Chat :=
  List.filter (fun c => negb (c_id c =? id)%Z) chats.

(** A working store whose chat history is the given list of chats. *)
Definition holds_chats (ls : LocalStorage) (chats : list Chat) : Prop :=
  available ls = true /\ writable ls = true
  /\ items ls !! CHAT_HISTORY = Some (Json (JArr (map encode_chat chats))).

(** The chat [createNewChat] builds, and the store it leaves on a
    history of chats. *)
Definition fresh_chat (E : Engine) (mode : string) : Chat :=
  mkChat (now E 0) ("New Chat - " ++ mode) mode [] (nowISO E 0).

Definition created (E : Engine) (mode : string) (chats : list Chat) (ls : LocalStorage)
  : LocalStorage :=
  written CURRENT_CHAT_ID (Raw (pretty (now E 0)))
    (written CHAT_HISTORY (Json (JArr (map encode_chat (fresh_chat E mode :: chats)))) ls).


Definition first_in_mode (mode : string) (chats : list Chat) : option Chat :=
  List.find (fun c => String.eqb (c_mode c) mode) chats.

End Storage.

(* ===================================================================== *)
(** ** [GeminiManager] and [callGeminiAPI] ([utils/api])                  *)
(* ===================================================================== *)

Module Gemini.
Import JS.

(** One entry of the history handed to the SDK:
    [{ role, parts: [{ text }] }]. *)
Record Content : Type := mkContent { role : string; text : Value }.

(** What one attempt hands to the SDK.  [apiKey = None] is the key
    [undefined] read past the end of [apiKeys].  [multiTurn] tells
    [startChat]/[sendMessage] from [generateContent].  The generation
    parameters (temperature, config) are passed through unchanged and
    decide nothing here. *)
Record Request : Type := mkRequest {
  apiKey : option string;
  model : string;
  systemInstruction : Value;
  multiTurn : bool;
  history : list Content;
  prompt : string
}.

(** How a request settles: the call ([sendMessage] or [generateContent],
    with the SDK objects built before it) rejects; or it resolves and
    the response yields its text; or it resolves and reading the
    response ([result.response], [response.text()]) throws. *)
Inductive Settled : Type :=
| Resolved (text : string)
| Rejected (e : JSError)
| Blocked (e : JSError).

(** [aborted] is [signal?.aborted] from the moment the call has settled:
    the manual check and the [catch] block read it with no user event in
    between. *)
Record Outcome : Type := mkOutcome { settled : Settled; aborted : bool }.

(** The provider and the user, seen from one call of [generateResponse]:
    the outcome of the [n]-th request issued by that call. *)
Definition Provider : Type := nat -> Request -> Outcome.

Record GeminiManager : Type := mkManager {
  apiKeys : list string;
  modelName : string;
  currentKeyIndex : nat
}.

(** [new GeminiManager(apiKeys, modelName)]. *)
Definition constructor (keys : list string) (name : string) : Res GeminiManager :=
  if (length keys =? 0)%nat
  then Throw (mkError "Error" "GeminiManager: At least one API key is required.")
  else Ok (mkManager keys name 0).

Record Attempt : Type := mkAttempt { keyIndex : nat; request : Request }.

Inductive Completion : Type :=
| Returned (text : string)
| Thrown (e : JSError).

(** What a call of [generateResponse] leaves behind: how it completed,
    the manager (its cursor is mutated in place), the requests issued in
    order, whether [_handleTotalFailure] ran, and [signal?.aborted] as
    last read. *)
Record Run : Type := mkRun {
  completion : Completion;
  manager : GeminiManager;
  issued : list Attempt;
  totalFailure : bool;
  abortedAtEnd : bool
}.

Definition FALLBACK : string := "Server is busy, please talk to owner of RYUNEX".

(** The arguments of [generateResponse] besides the signal. *)
Record Options : Type := mkOptions {
  opt_history : list Content;
  opt_systemInstruction : Value;
  opt_modelName : option string
}.

Definition build_request (m : GeminiManager) (prompt : string) (o : Options)
  (currentKey : option string) : Request :=
  mkRequest currentKey
    (match opt_modelName o with
     | Some n => if String.eqb n "" then modelName m else n
     | None => modelName m
     end)
    (opt_systemInstruction o)
    (negb (length (opt_history o) =? 0)%nat)
    (opt_history o)
    prompt.

(** [new DOMException('Aborted', 'AbortError')]. *)
Definition AbortError : JSError := mkError "AbortError" "Aborted".

(** The body of the [try] block: the call, the manual abort check that
    follows it when it resolves, the reading of the response text. *)
Definition try_body (out : Outcome) : Res string :=
  match settled out with
  | Rejected error => Throw error
  | Resolved text => if aborted out then Throw AbortError else Ok text
  | Blocked error => if aborted out then Throw AbortError else Throw error
  end.

(** The loop [while (attempts < totalKeys)] of [generateResponse];
    [remaining] is [totalKeys - attempts].  The browser calls of
    [_handleTotalFailure] (console, Notification, dispatchEvent) are
    taken to return. *)
Fixpoint rotate (P : Provider) (prompt : string) (o : Options) (totalKeys : nat)
  (remaining attempts : nat) (m : GeminiManager) (log : list Attempt) : Run :=
  match remaining with
  | O => mkRun (Returned FALLBACK) m log true false
  | S remaining' =>
      let currentKey := apiKeys m !! currentKeyIndex m in
      let req := build_request m prompt o currentKey in
      let out := P attempts req in
      let log' := (log ++ [mkAttempt (currentKeyIndex m) req])%list in
      match try_body out with
      | Ok text => mkRun (Returned text) m log' false false
      | Throw error =>
          if String.eqb (name error) "AbortError" || aborted out
          then mkRun (Thrown error) m log' false (aborted out)
          else
            match currentKey with
            | None =>
                mkRun (Thrown (TypeError "Cannot read properties of undefined (reading 'slice')"))
                  m log' false false
            | Some _ =>
                rotate P prompt o totalKeys remaining' (S attempts)
                  (mkManager (apiKeys m) (modelName m)
                     ((currentKeyIndex m + 1) mod totalKeys))
                  log'
            end
      end
  end.

Definition generateResponse (P : Provider) (m : GeminiManager) (prompt : string)
  (o : Options) : Run :=
  let totalKeys := length (apiKeys m) in
  rotate P prompt o totalKeys totalKeys 0 m [].

(** [MODELS]: both entries name the same model. *)
Definition MODELS_DEFAULT : string := "gemini-2.5-flash".
Definition MODELS_CODER : string := "gemini-2.5-flash".

(** [SYSTEM_PROMPTS]: the four prompt texts, non-empty string literals
    in the source, kept abstract here. *)
Record SystemPrompts : Type := mkPrompts {
  Solance : string; Chill : string; Student : string; Coder : string
}.

(** [SYSTEM_PROMPTS[mode] || SYSTEM_PROMPTS.Student] for a mode that is
    one of the four names or no property of an object at all. *)
Definition getSystemPrompt (SP : SystemPrompts) (mode : string) : Value :=
  js_or
    (if String.eqb mode "Solance" then Some (JStr (Solance SP))
     else if String.eqb mode "Chill" then Some (JStr (Chill SP))
     else if String.eqb mode "Student" then Some (JStr (Student SP))
     else if String.eqb mode "Coder" then Some (JStr (Coder SP))
     else None)
    (Some (JStr (Student SP))).

(** The callback of [conversationHistory.map]:
    [msg => ({ role: msg.role === 'ai' ? 'model' : 'user',
               parts: [{ text: msg.text || msg.content }] })]. *)
Definition to_content (msg : JSON) : Res Content :=
  match get_prop (Some msg) "role", get_prop (Some msg) "text", get_prop (Some msg) "content" with
  | Ok r, Ok t, Ok c =>
      Ok (mkContent (if strict_eq r (Some (JStr "ai")) then "model" else "user") (js_or t c))
  | Throw e, _, _ => Throw e
  | _, Throw e, _ => Throw e
  | _, _, Throw e => Throw e
  end.

(** [arr.map(f)] with a callback that may throw. *)
Fixpoint map_res {A B} (f : A -> Res B) (l : list A) : Res (list B) :=
  match l with
  | [] => Ok []
  | x :: rest =>
      match f x with
      | Throw e => Throw e
      | Ok y => match map_res f rest with
                | Throw e => Throw e
                | Ok ys => Ok (y :: ys)
                end
      end
  end.

Definition convert_history (conversationHistory : JSON) : Res (list Content) :=
  match conversationHistory with
  | JArr l => map_res to_content l
  | _ => Throw (TypeError "conversationHistory.map is not a function")
  end.

(** [s.includes(sub)]. *)
Definition includes (s sub : string) : bool :=
  match String.index 0 sub s with
  | Some _ => true
  | None => false
  end.

(** The object [callGeminiAPI] resolves to. *)
Record ApiResult : Type := mkResult {
  success : bool;
  result_text : string;
  modelUsed : option string;
  isCancelled : bool
}.

(** The [catch] block of [callGeminiAPI]. *)
Definition on_error (error : JSError) (signalAborted : bool) : ApiResult :=
  if String.eqb (name error) "AbortError" || signalAborted
  then mkResult false "Request cancelled" None true
  else
    mkResult false
      (if includes (message error) "429"
       then "I'm receiving too many requests right now. Please try again in a moment."
       else "An error occurred with Gemini API.")
      None false.

(** [callGeminiAPI(message, mode, conversationHistory, signal)] on the
    shared [geminiManager]: the result, the manager afterwards and the
    requests issued.  [abortedAtEntry] is [signal?.aborted] when the
    function starts. *)
Definition callGeminiAPI (SP : SystemPrompts) (P : Provider) (m : GeminiManager)
  (message : string) (mode : string) (conversationHistory : JSON) (abortedAtEntry : bool)
  : ApiResult * GeminiManager * list Attempt :=
  let systemPrompt := getSystemPrompt SP mode in
  let modelName := if String.eqb mode "Coder" then MODELS_CODER else MODELS_DEFAULT in
  match convert_history conversationHistory with
  | Throw error => (on_error error abortedAtEntry, m, [])
  | Ok history =>
      let run := generateResponse P m message (mkOptions history systemPrompt (Some modelName)) in
      match completion run with
      | Returned text =>
          if String.eqb text FALLBACK
          then (mkResult false text None false, manager run, issued run)
          else (mkResult true text (Some modelName) false, manager run, issued run)
      | Thrown error => (on_error error (abortedAtEnd run), manager run, issued run)
      end
  end.

(** *** Vocabulary for the statements about the rotation *)

(** The attempt ends with an error that is no cancellation: the case in
    which the [catch] block rotates the key. *)
Definition fails (out : Outcome) : bool :=
  match try_body out with
  | Ok _ => false
  | Throw error => negb (String.eqb (name error) "AbortError" || aborted out)
  end.

(** The attempt ends as a cancellation: the [catch] block rethrows. *)
Definition cancelled (out : Outcome) : bool :=
  match try_body out with
  | Ok _ => false
  | Throw error => String.eqb (name error) "AbortError" || aborted out
  end.

(** The class invariant of [GeminiManager]: the cursor points into
    [apiKeys]. *)
Definition valid (m : GeminiManager) : Prop := currentKeyIndex m < length (apiKeys m).

(** The key index of the [k]-th attempt of a call entered with the
    manager [m], and the attempt itself. *)
Definition key_at (m : GeminiManager) (k : nat) : nat :=
  (currentKeyIndex m + k) mod length (apiKeys m).

(** The attempt made with the cursor at [c]. *)
Definition attempt_of (m : GeminiManager) (prompt : string) (o : Options) (c : nat) : Attempt :=
  mkAttempt c (build_request m prompt o (apiKeys m !! c)).

Definition attempt_at (m : GeminiManager) (prompt : string) (o : Options) (k : nat) : Attempt :=
  attempt_of m prompt o (key_at m k).

(** The history entry the specification describes for a typed message:
    role ["ai"] becomes ["model"], every other role ["user"]; the text is
    kept when it is not empty. *)
Definition expected_content (msg : Storage.Message) : Content :=
  mkContent (if String.eqb (Storage.m_role msg) "ai" then "model" else "user")
    (if String.eqb (Storage.m_text msg) "" then None else Some (JStr (Storage.m_text msg))).

(** The managers a program can hold: built by the constructor, then
    used for any number of calls. *)
Inductive reachable : GeminiManager -> Prop :=
| reach_new (keys : list string) (name : string) (m : GeminiManager) :
    constructor keys name = Ok m -> reachable m
| reach_call (P : Provider) (m : GeminiManager) (prompt : string) (o : Options) :
    reachable m -> reachable (manager (generateResponse P m prompt o)).

(** The texts [callGeminiAPI] writes itself. *)
Definition CANCELLED_TEXT : string := "Request cancelled".
Definition GENERIC_ERROR_TEXT : string := "An error occurred with Gemini API.".
Definition TOO_MANY_REQUESTS_TEXT : string :=
  "I'm receiving too many requests right now. Please try again in a moment.".

End Gemini.

(* ===================================================================== *)
(** ** The error classes of the failover loop of [Chat.jsx]               *)
(* ===================================================================== *)

Module Chat.
Import JS.
Local Open Scope string_scope.

(** The test of the [catch] block of [Chat.jsx]:
    [error.message === "RateLimit" || error.message.includes("Loading")];
    HTTP 429 and 503 are thrown as [new Error("RateLimit")].  An error
    that fails this test is the fatal one. *)
Definition retryable (error : JSError) : bool :=
  String.eqb (message error) "RateLimit" || Gemini.includes (message error) "Loading".

(** *** The failover loop of [handleSendMessage] in [Chat.jsx] *)

(** One entry of [MODEL_CONFIG]; a key read from the environment may be
    [undefined]. *)
Record ModelEntry : Type := mkModel {
  modelName : string;
  modelId : string;
  apiKeys : list (option string)
}.

(** [MODEL_CONFIG], over the three keys of the environment. *)
Definition MODEL_CONFIG (mistral qwen llama : option string) : list ModelEntry :=
  [mkModel "Mistral 7B Instruct v0.3" "mistralai/Mistral-7B-Instruct-v0.3" [mistral];
   mkModel "Qwen 2.5" "Qwen/Qwen2.5-72B-Instruct" [qwen];
   mkModel "Llama 3" "meta-llama/Meta-Llama-3-8B-Instruct" [llama]].

(** What one [fetch] sends: the model of the URL, the key of the
    [Authorization] header ([None] is sent as ["Bearer undefined"]) and
    the [inputs] of the body. *)
Record FetchCall : Type := mkCall {
  call_model : string;
  bearer : option string;
  inputs : string
}.

(** The response: its status and what [response.json()] settles to. *)
Record Response : Type := mkResponse { status : Z; body : Res JSON }.

(** [response.ok]. *)
Definition response_ok (r : Response) : bool :=
  (200 <=? status r)%Z && (status r <=? 299)%Z.

(** How a [fetch] settles: it rejects, or it resolves to a response. *)
Inductive Fetched : Type :=
| Failed (e : JSError)
| Responded (r : Response).

(** The endpoint: how the [n]-th request of a send settles. *)
Definition Endpoint : Type := nat -> FetchCall -> Fetched.

(** [data[0]?.generated_text] for an array [data]. *)
Definition generated_text (l : list JSON) : Value :=
  match l with
  | [] => None
  | JNull :: _ => None
  | x :: _ => match get_prop (Some x) "generated_text" with
              | Ok v => v
              | Throw _ => None
              end
  end.

(** The body of the [try] block after the [fetch]: the text for the
    bot message, or the exception that reaches the [catch] block. *)
Definition read_response (E : Engine) (f : Fetched) : Res JSON :=
  match f with
  | Failed e => Throw e
  | Responded r =>
      if (status r =? 429)%Z || (status r =? 503)%Z
      then Throw (mkError "Error" "RateLimit")
      else if negb (response_ok r) then
        let errData := match body r with
                       | Ok v => v
                       | Throw _ => JObj []
                       end in
        match get_prop (Some errData) "error" with
        | Throw e => Throw e
        | Ok err =>
            Throw (mkError "Error"
                     (Storage.to_String E
                        (js_or err (Some (JStr ("HTTP " ++ pretty (status r)))))))
        end
      else
        match body r with
        | Throw e => Throw e
        | Ok data =>
            let generated := match data with
                             | JArr l => generated_text l
                             | _ => None
                             end in
            if truthy generated then
              match generated with
              | Some text => Ok text
              | None => Ok JNull
              end
            else
              match get_prop (Some data) "error" with
              | Throw e => Throw e
              | Ok err =>
                  if truthy err
                  then Ok (JStr ("Error: " ++ Storage.to_String E err))
                  else Ok (JStr "No response generated.")
              end
        end
  end.

(** What a send is given: the table, the endpoint, the cursor held in
    the component state ([activeModelIndex], [activeKeyIndex]), the
    system prompt and the input. *)
Record Setup : Type := mkSetup {
  config : list ModelEntry;
  endpoint : Endpoint;
  activeModelIndex : nat;
  activeKeyIndex : nat;
  systemPrompt : string;
  input : string
}.

Record Sent : Type := mkSent { sent_model : nat; sent_key : nat; sent_call : FetchCall }.

(** The variables of the loop, with what the loop asked of the
    component: the cursor to store ([setActiveModelIndex],
    [setActiveKeyIndex]), the notification, the pending timers; and the
    requests sent. *)
Record Loop : Type := mkLoop {
  currentModelIdx : nat;
  currentKeyIdx : nat;
  success : bool;
  botText : JSON;
  cursor : nat * nat;
  notification : option string;
  timers : list Z;
  calls : list Sent
}.

Definition newline : string := String (ascii_of_nat 10) EmptyString.

Definition start (S0 : Setup) : Loop :=
  mkLoop (activeModelIndex S0) (activeKeyIndex S0) false (JStr "")
    (activeModelIndex S0, activeKeyIndex S0) None [] [].

(** [while (!success && currentModelIdx < MODEL_CONFIG.length)]. *)
Definition continues (S0 : Setup) (s : Loop) : bool :=
  negb (success s) && (currentModelIdx s <? length (config S0))%nat.

(** [if (currentKeyIdx >= model.apiKeys.length) currentKeyIdx = 0]. *)
Definition keyIndex (model : ModelEntry) (currentKeyIdx : nat) : nat :=
  if (length (apiKeys model) <=? currentKeyIdx)%nat then 0 else currentKeyIdx.

(** One turn of the loop; the boolean tells a [break]. *)
Definition turn (E : Engine) (S0 : Setup) (s : Loop) : Loop * bool :=
  match config S0 !! currentModelIdx s with
  | None => (s, true)
  | Some model =>
      let keyIdx := keyIndex model (currentKeyIdx s) in
      let apiKey := mjoin (apiKeys model !! keyIdx) in
      let call := mkCall (modelId model) apiKey
                    ("<s>[INST] " ++ systemPrompt S0 ++ newline ++ newline
                     ++ input S0 ++ " [/INST]") in
      let sent := (calls s ++ [mkSent (currentModelIdx s) keyIdx call])%list in
      match read_response E (endpoint S0 (length (calls s)) call) with
      | Ok text =>
          if negb (currentModelIdx s =? activeModelIndex S0)%nat
             || negb (keyIdx =? activeKeyIndex S0)%nat
          then (mkLoop (currentModelIdx s) keyIdx true text (currentModelIdx s, keyIdx)
                  (Some ("Success: Connected to " ++ modelName model))
                  (timers s ++ [3000%Z])%list sent, false)
          else (mkLoop (currentModelIdx s) keyIdx true text (cursor s) (notification s)
                  (timers s) sent, false)
      | Throw error =>
          if retryable error then
            if (length (apiKeys model) <=? keyIdx + 1)%nat then
              (mkLoop (S (currentModelIdx s)) 0 false (botText s) (cursor s)
                 (match config S0 !! S (currentModelIdx s) with
                  | Some next =>
                      Some ("Alert: " ++ modelName model ++ " limit reached, switching to "
                            ++ modelName next ++ "...")
                  | None => notification s
                  end)
                 (timers s) sent, false)
            else
              (mkLoop (currentModelIdx s) (keyIdx + 1) false (botText s) (cursor s)
                 (Some ("Alert: Key limit reached for " ++ modelName model
                        ++ ", switching key..."))
                 (timers s) sent, false)
          else
            (mkLoop (currentModelIdx s) keyIdx false (JStr ("Error: " ++ message error))
               (cursor s) (notification s) (timers s) sent, true)
      end
  end.

(** The loop, run for at most [fuel] turns: [None] when the turns run
    out before the loop ends. *)
Fixpoint loop (E : Engine) (S0 : Setup) (fuel : nat) (s : Loop) : option Loop :=
  match fuel with
  | O => if continues S0 s then None else Some s
  | S fuel' =>
      if continues S0 s then
        let '(s', stop) := turn E S0 s in
        if stop then Some s' else loop E S0 fuel' s'
      else Some s
  end.

(** The requests a model can take: one per key, and one for a model
    without keys. *)
Definition weight (model : ModelEntry) : nat := Nat.max 1 (length (apiKeys model)).

Definition budget (cfg : list ModelEntry) : nat := list_sum (map weight cfg).

(** [if (!success && !botText) botText = "System Error: ..."]. *)
Definition SYSTEM_ERROR : string :=
  "System Error: All models and keys are currently unavailable.".

Definition finish (s : Loop) : Loop :=
  if negb (success s) && negb (truthy (Some (botText s)))
  then mkLoop (currentModelIdx s) (currentKeyIdx s) (success s) (JStr SYSTEM_ERROR)
         (cursor s) (notification s) (timers s) (calls s)
  else s.

(** The loop and the line after it, with turns enough for any table. *)
Definition failover (E : Engine) (S0 : Setup) : option Loop :=
  finish <$> loop E S0 (budget (config S0)) (start S0).

(** The turns the loop can still take from a state: what is left of the
    keys of the current model, and the later models. *)
Definition remaining (S0 : Setup) (s : Loop) : nat :=
  match drop (currentModelIdx s) (config S0) with
  | [] => 0
  | model :: later =>
      (weight model - keyIndex model (currentKeyIdx s)) + budget later
  end.

(** The positions (model index, key index) of the table in the order
    the loop visits them: for a model its key indices from [from] on,
    or the index 0 alone for a model without keys; then the models that
    follow, each from its first key. *)
Definition model_positions (i : nat) (model : ModelEntry) (from : nat) : list (nat * nat) :=
  map (pair i) (seq from (weight model - from)).

Fixpoint table_positions (i : nat) (cfg : list ModelEntry) : list (nat * nat) :=
  match cfg with
  | [] => []
  | model :: later => (model_positions i model 0 ++ table_positions (S i) later)%list
  end.

(** The positions from the one a state of the loop is at to the end of
    the table. *)
Definition positions (S0 : Setup) (s : Loop) : list (nat * nat) :=
  match drop (currentModelIdx s) (config S0) with
  | [] => []
  | model :: later =>
      (model_positions (currentModelIdx s) model (keyIndex model (currentKeyIdx s))
       ++ table_positions (S (currentModelIdx s)) later)%list
  end.

(** The position a request was sent at. *)
Definition position_of (x : Sent) : nat * nat := (sent_model x, sent_key x).

(** The [k]-th request was answered with an error of the retryable
    class. *)
Definition retried (E : Engine) (S0 : Setup) (k : nat) (x : Sent) : Prop :=
  exists e, read_response E (endpoint S0 k (sent_call x)) = Throw e /\ retryable e = true.

Definition all_retried (E : Engine) (S0 : Setup) (l : list Sent) : Prop :=
  forall k x, l !! k = Some x -> retried E S0 k x.

(** The loop ended on a success, the last request being the one that
    was answered. *)
Definition succeeded (E : Engine) (S0 : Setup) (s : Loop) : Prop :=
  exists l x,
    calls s = (l ++ [x])%list /\ all_retried E S0 l /\ success s = true
    /\ read_response E (endpoint S0 (length l) (sent_call x)) = Ok (botText s)
    /\ cursor s = (sent_model x, sent_key x).

(** The loop ended on the [break]. *)
Definition broken (E : Engine) (S0 : Setup) (s : Loop) : Prop :=
  exists l x e,
    calls s = (l ++ [x])%list /\ all_retried E S0 l /\ success s = false
    /\ read_response E (endpoint S0 (length l) (sent_call x)) = Throw e
    /\ retryable e = false
    /\ botText s = JStr ("Error: " ++ message e)
    /\ cursor s = (activeModelIndex S0, activeKeyIndex S0).

(** The state between two turns: nothing answered yet. *)
Definition retrying (E : Engine) (S0 : Setup) (s : Loop) : Prop :=
  success s = false /\ botText s = JStr ""
  /\ cursor s = (activeModelIndex S0, activeKeyIndex S0)
  /\ all_retried E S0 (calls s).

(** The order of the table: an earlier model, or the same model and an
    earlier key. *)
Definition before (x y : Sent) : Prop :=
  (sent_model x < sent_model y)%nat
  \/ (sent_model x = sent_model y /\ (sent_key x < sent_key y)%nat).

(** A request carries the identifier of its model and the key at its
    key index, and its model is not before the stored one. *)
Definition well_aimed (S0 : Setup) (x : Sent) : Prop :=
  exists model,
    config S0 !! sent_model x = Some model
    /\ (activeModelIndex S0 <= sent_model x)%nat
    /\ call_model (sent_call x) = modelId model
    /\ bearer (sent_call x) = mjoin (apiKeys model !! sent_key x)
    /\ ((sent_key x < length (apiKeys model))%nat
        \/ (apiKeys model = [] /\ sent_key x = 0%nat)).

(** The requests sent are in the order of the table, each one well
    aimed. *)
Definition aimed (S0 : Setup) (s : Loop) : Prop :=
  StronglySorted before (calls s) /\ Forall (well_aimed S0) (calls s).

(** A request sent lies before the position the loop is at. *)
Definition behind (S0 : Setup) (s : Loop) (x : Sent) : Prop :=
  (sent_model x < currentModelIdx s)%nat
  \/ (sent_model x = currentModelIdx s /\ (sent_key x < currentKeyIdx s)%nat
      /\ exists model, config S0 !! currentModelIdx s = Some model
                       /\ (currentKeyIdx s < length (apiKeys model))%nat).

(** The state between two turns, as to the positions tried. *)
Definition ordered (S0 : Setup) (s : Loop) : Prop :=
  aimed S0 s /\ (activeModelIndex S0 <= currentModelIdx s)%nat
  /\ cursor s = (activeModelIndex S0, activeKeyIndex S0)
  /\ Forall (behind S0 s) (calls s).

(** *** The list of conversations of [Chat.jsx] *)

(** A conversation as [createNewChat] builds it; its number is
    [Date.now()]. *)
Record Conversation : Type := mkConversation {
  conv_id : Z;
  conv_title : string;
  conv_messages : list JSON
}.

(** The part of the component state the two handlers act on. *)
Record Panel : Type := mkPanel {
  conversations : list Conversation;
  currentChatId : option Z;
  typed : string
}.

(** The object literal of a new conversation. *)
Definition freshChat (E : Engine) : Conversation :=
  mkConversation (now E 0)
    ("Chat " ++ toLocaleTimeString E (Some (JNum (now E 1)))) [].

Definition createNewChat (E : Engine) (p : Panel) : Panel :=
  mkPanel (freshChat E :: conversations p) (Some (conv_id (freshChat E))) "".

Definition handleDeleteChat (E : Engine) (chatId : Z) (p : Panel) : Panel :=
  let updatedConversations :=
    List.filter (fun c => negb (conv_id c =? chatId)%Z) (conversations p) in
  match updatedConversations with
  | [] => mkPanel [freshChat E] (Some (conv_id (freshChat E))) (typed p)
  | first :: _ =>
      mkPanel updatedConversations
        (match currentChatId p with
         | Some current => if (chatId =? current)%Z then Some (conv_id first)
                           else currentChatId p
         | None => currentChatId p
         end)
        (typed p)
  end.

(** [getCurrentChat()]. *)
Definition getCurrentChat (p : Panel) : option Conversation :=
  match currentChatId p with
  | Some current => List.find (fun c => (conv_id c =? current)%Z) (conversations p)
  | None => None
  end.

End Chat.

(* ===================================================================== *)
(** ** The orchestrator: [handleSendMessage] of [MainChat.jsx]            *)
(* ===================================================================== *)

Module MainChat.
Import JS Storage Gemini.

(** The component state ([useState], [useRef]), the store, the shared
    [geminiManager] and what the handler left in the environment.
    [abortController] tells whether [abortControllerRef.current] is set,
    [abortCalls] counts the [abort()] calls made on earlier controllers,
    [timers] lists the pending [setTimeout] delays (each one clears the
    notification) and [network] the requests issued to the provider. *)
Record World : Type := mkWorld {
  messages : list JSON;
  inputValue : string;
  isTyping : bool;
  notification : option string;
  dailyUsage : JSON;
  abortController : bool;
  abortCalls : nat;
  timers : list Z;
  storage : LocalStorage;
  geminiManager : GeminiManager;
  network : list Attempt
}.

Definition LIMIT_NOTICE : string :=
  "Daily limit reached (25 messages). Please come back tomorrow!".

(** The object literal of the user message. *)
Definition userMessage (E : Engine) (text : string) : JSON :=
  JObj [("id", JNum (now E 0)); ("role", JStr "user"); ("text", JStr (trim text));
        ("timestamp", JStr (nowISO E 0))].

(** The object literals of the two assistant messages; a property whose
    value is [undefined] is left out, as JSON.stringify does. *)
Definition aiMessage (E : Engine) (r : ApiResult) : JSON :=
  JObj ([("id", JNum (now E 1 + 1)); ("role", JStr "ai"); ("text", JStr (result_text r));
         ("timestamp", JStr (nowISO E 1))]
        ++ match modelUsed r with
           | Some n => [("modelUsed", JStr n)]
           | None => []
           end)%list.

Definition errorMessage (E : Engine) (r : ApiResult) : JSON :=
  JObj [("id", JNum (now E 1 + 1)); ("role", JStr "ai");
        ("text", JStr ("Sorry, I encountered an error: " ++ result_text r ++ ". Please try again."));
        ("timestamp", JStr (nowISO E 1)); ("isError", JBool true)].

(** [if (currentChatId) updateChatMessages(currentChatId, msgs)]. *)
Definition persist (E : Engine) (currentChatId : Value) (msgs : list JSON) : M unit :=
  match currentChatId with
  | Some chatId =>
      if truthy currentChatId then updateChatMessages E chatId (JArr msgs) else ret tt
  | None => ret tt
  end.

(** What follows [await callGeminiAPI(...)]. *)
Definition on_result (E : Engine) (currentChatId : Value) (updatedMessages : list JSON)
  (result : ApiResult) (w : World) : Res unit * World :=
  let w1 := mkWorld (messages w) (inputValue w) false (notification w) (dailyUsage w)
              false (abortCalls w) (timers w) (storage w) (geminiManager w) (network w) in
  if isCancelled result then (Ok tt, w1)
  else
    let reply := if success result then aiMessage E result else errorMessage E result in
    let finalMessages := (updatedMessages ++ [reply])%list in
    let '(saved, ls) := persist E currentChatId finalMessages (storage w1) in
    let w2 := mkWorld finalMessages (inputValue w1) (isTyping w1) (notification w1)
                (dailyUsage w1) (abortController w1) (abortCalls w1) (timers w1) ls
                (geminiManager w1) (network w1) in
    match saved with
    | Throw e => (Throw e, w2)
    | Ok _ =>
        if success result then (Ok tt, w2)
        else
          (Ok tt,
           mkWorld (messages w2) (inputValue w2) (isTyping w2) (Some (result_text result))
             (dailyUsage w2) (abortController w2) (abortCalls w2) (timers w2 ++ [5000%Z])%list
             (storage w2) (geminiManager w2) (network w2))
    end.

(** [handleSendMessage(text)], run to completion: the provider [P]
    decides how each request settles and whether the signal is aborted
    by then.  The result is [Throw] when the returned promise rejects. *)
Definition handleSendMessage (E : Engine) (SP : SystemPrompts) (P : Provider)
  (activeMode : string) (currentChatId : Value) (text : string) (w : World)
  : Res unit * World :=
  if String.eqb (trim text) "" || isTyping w then (Ok tt, w)
  else
    match isDailyLimitReached E (storage w) with
    | (Throw e, ls) =>
        (Throw e,
         mkWorld (messages w) (inputValue w) (isTyping w) (notification w) (dailyUsage w)
           (abortController w) (abortCalls w) (timers w) ls (geminiManager w) (network w))
    | (Ok true, ls) =>
        (Ok tt,
         mkWorld (messages w) (inputValue w) (isTyping w) (Some LIMIT_NOTICE) (dailyUsage w)
           (abortController w) (abortCalls w) (timers w ++ [5000%Z])%list ls
           (geminiManager w) (network w))
    | (Ok false, ls) =>
        let aborts := if abortController w then S (abortCalls w) else abortCalls w in
        let updatedMessages := (messages w ++ [userMessage E text])%list in
        let '(saved, ls1) := persist E currentChatId updatedMessages ls in
        match saved with
        | Throw e =>
            (Throw e,
             mkWorld updatedMessages "" true None (dailyUsage w) true aborts (timers w) ls1
               (geminiManager w) (network w))
        | Ok _ =>
            let '(newUsage, ls2) := incrementDailyUsage E ls1 in
            match newUsage with
            | Throw e =>
                (Throw e,
                 mkWorld updatedMessages "" true None (dailyUsage w) true aborts (timers w) ls2
                   (geminiManager w) (network w))
            | Ok usage =>
                let '(result, m', issued) :=
                  callGeminiAPI SP P (geminiManager w) (trim text) activeMode
                    (JArr (removelast updatedMessages)) false in
                on_result E currentChatId updatedMessages result
                  (mkWorld updatedMessages "" true None usage true aborts (timers w) ls2
                     m' (network w ++ issued)%list)
            end
        end
    end.

(** *** The typed reading of a send *)

(** The user message and the reply of a send, as typed messages. *)
Definition sent_message (E : Engine) (text : string) : Message :=
  mkMessage (now E 0) "user" (trim text) (nowISO E 0) None false.

Definition reply_message (E : Engine) (r : ApiResult) : Message :=
  if success r
  then mkMessage (now E 1 + 1) "ai" (result_text r) (nowISO E 1) (modelUsed r) false
  else mkMessage (now E 1 + 1) "ai"
         ("Sorry, I encountered an error: " ++ result_text r ++ ". Please try again.")
         (nowISO E 1) None true.

(** The component is idle over a working store (one that can be read
    and accepts writes): it shows the messages [ms], the store holds
    the chats [chats], and the usage read from it has a count [c] below
    the limit, be it today's record, or the count 0 read when no record
    is stored or the stored one is of another day. *)
Definition ready (E : Engine) (w : World) (chats : list Chat) (ms : list Message) (c : Z)
  : Prop :=
  isTyping w = false
  /\ messages w = map encode_message ms
  /\ holds_chats (storage w) chats
  /\ fst (getDailyUsage E (storage w)) = Ok (usageRecord c (today E))
  /\ (c < MAX_DAILY_MESSAGES)%Z.

(** The effect that loads the chat when [currentChatId] or [activeMode]
    changes: what it passes to [setMessages] and, when it creates a
    chat, to [onChatChange] (the parent always passes one). *)
Definition loadChat (E : Engine) (currentChatId : Value) (activeMode : string)
  : M (Value * option Value) :=
  (let create : M (Value * option Value) :=
    (newChat <- createNewChat E activeMode ;;
     id <- lift (get_prop (Some newChat) "id") ;;
     ret (Some (JArr []), Some id)) in
  match currentChatId with
  | Some chatId =>
      if truthy currentChatId then
        chat <- getChatById chatId ;;
        if truthy chat then
          mode <- lift (get_prop chat "mode") ;;
          if strict_eq mode (Some (JStr activeMode)) then
            messages <- lift (get_prop chat "messages") ;;
            ret (js_or messages (Some (JArr [])), None)
          else create
        else create
      else create
  | None => create
  end)%js.

End MainChat.

(* ===================================================================== *)
(** ** [App.jsx] and [Sidebar.jsx]: which chat is the current one         *)
(* ===================================================================== *)

Module App.
Import JS Storage.
Local Open Scope js_scope.

(** The callback [chat => chat.mode === activeMode]. *)
Definition has_mode (activeMode : string) (chat : JSON) : Res bool :=
  match get_prop (Some chat) "mode" with
  | Ok v => Ok (strict_eq v (Some (JStr activeMode)))
  | Throw e => Throw e
  end.

(** [Number(savedChatId)] for a stored string: of the JSON texts only
    those of numbers convert to a number. *)
Definition Number (E : Engine) (savedChatId : Text) : JSNumber :=
  match savedChatId with
  | Raw s => to_number E (Some (JStr s))
  | Json (JNum n) => Int n
  | Json _ => NaN
  end.

(** The callback [chat => chat.id === n] for a number [n]; NaN is equal
    to nothing. *)
Definition has_number (n : JSNumber) (chat : JSON) : Res bool :=
  match get_prop (Some chat) "id" with
  | Ok v => Ok (match n with
                | Int z => strict_eq v (Some (JNum z))
                | NaN => false
                end)
  | Throw e => Throw e
  end.

(** [const newChat = createNewChat(activeMode);
     setCurrentChatId(newChat.id)]: the value the state is set to. *)
Definition startChat (E : Engine) (activeMode : string) : M Value :=
  newChat <- createNewChat E activeMode ;;
  lift (get_prop (Some newChat) "id").

(** The effect run on mount; its result is the value given to
    [setCurrentChatId]. *)
Definition initializeChat (E : Engine) (activeMode : string) : M Value :=
  savedChatId <- getCurrentChatId ;;
  chats <- getChatHistory ;;
  modeChat <- lift (array_find (has_mode activeMode) chats) ;;
  if truthy modeChat then lift (get_prop modeChat "id")
  else
    match savedChatId with
    | Some saved =>
        if is_empty savedChatId then startChat E activeMode
        else
          savedChat <- lift (array_find (has_number (Number E saved)) chats) ;;
          match savedChat with
          | Some found =>
              if truthy savedChat then
                same <- lift (has_mode activeMode found) ;;
                if same then lift (get_prop savedChat "id") else startChat E activeMode
              else startChat E activeMode
          | None => startChat E activeMode
          end
    | None => startChat E activeMode
    end.

(** The effect run when [activeMode] changes. *)
Definition modeEffect (E : Engine) (activeMode : string) : M Value :=
  chats <- getChatHistory ;;
  modeChat <- lift (array_find (has_mode activeMode) chats) ;;
  if truthy modeChat then lift (get_prop modeChat "id")
  else startChat E activeMode.

End App.

Module Sidebar.
Import JS Storage App.
Local Open Scope js_scope.

(** [arr.filter(p)] on a value read back from JSON. *)
Definition array_filter (p : JSON -> Res bool) (v : JSON) : Res (list JSON) :=
  match v with
  | JArr l => filter_in p l
  | JNull => Throw (TypeError "Cannot read properties of null (reading 'filter')")
  | _ => Throw (TypeError "filter is not a function")
  end.

(** [loadHistory]: the list given to [setChatHistory]. *)
Definition loadHistory (activeMode : string) : M (list JSON) :=
  allChats <- getChatHistory ;;
  lift (array_filter (has_mode activeMode) allChats).

(** [handleNewChat] on the list [chatHistory] shown: the new list and
    the id given to [onChatChange]. *)
Definition handleNewChat (E : Engine) (activeMode : string) (chatHistory : list JSON)
  : M (list JSON * Value) :=
  newChat <- createNewChat E activeMode ;;
  id <- lift (get_prop (Some newChat) "id") ;;
  ret (newChat :: chatHistory, id).

(** [handleDeleteChat(e, chatId)]: the list shown and, when the parent
    is told of a new current chat, its id. *)
Definition handleDeleteChat (E : Engine) (activeMode : string) (currentChatId : Value)
  (chatId : JSON) : M (list JSON * option Value) :=
  updatedChats <- deleteChat chatId ;;
  modeChats <- lift (array_filter (has_mode activeMode) updatedChats) ;;
  if strict_eq (Some chatId) currentChatId then
    match modeChats with
    | first :: _ =>
        id <- lift (get_prop (Some first) "id") ;;
        ret (modeChats, Some id)
    | [] =>
        made <- handleNewChat E activeMode modeChats ;;
        ret (fst made, Some (snd made))
    end
  else ret (modeChats, None).

End Sidebar.

(* ===================================================================== *)
(** ** Sample data                                                        *)
(* ===================================================================== *)

Module Samples.
Import JS Storage Gemini MainChat.
Local Open Scope list_scope.

(** An engine on 2 November 2026. *)
Definition engine : Engine :=
  mkEngine "2026-11-02" (fun n => 1793600000000 + Z.of_nat n)%Z
    (fun _ => "2026-11-02T09:00:00.000Z") (fun _ => "09:00:00")
    (fun _ => NaN) (fun _ => "[object Object]").

(** A working store holding yesterday's usage record, with 7 messages. *)
Definition stale_store : LocalStorage :=
  mkStorage {[ DAILY_USAGE := Json (usageRecord 7 "2026-11-01") ]} true true.

(** A working store holding today's usage record, with 7 messages. *)
Definition current_store : LocalStorage :=
  mkStorage {[ DAILY_USAGE := Json (usageRecord 7 "2026-11-02") ]} true true.

(** A working store whose chat history is the JSON text of an empty
    object. *)
Definition object_history_store : LocalStorage :=
  mkStorage {[ CHAT_HISTORY := Json (JObj []) ]} true true.

(** A working store with two chats; the first one holds one message. *)
Definition hello : Message :=
  mkMessage 1793500000000 "user" "hello" "2026-11-01T08:00:00.000Z" None false.

Definition first_chat : Chat :=
  mkChat 1793500000000 "hello" "Student" [hello] "2026-11-01T08:00:00.000Z".

Definition second_chat : Chat :=
  mkChat 1793400000000 "New Chat - Coder" "Coder" [] "2026-10-31T08:00:00.000Z".

Definition chat_store : LocalStorage :=
  mkStorage {[ CHAT_HISTORY := Json (JArr (map encode_chat [first_chat; second_chat])) ]}
    true true.

Definition reply : Message :=
  mkMessage 1793600000001 "ai" "Namaste!" "2026-11-02T09:00:01.000Z"
    (Some "gemini-2.5-flash") false.

(** A manager over two keys and a provider that answers the first
    request with HTTP 400 and the second with a text. *)
Definition two_keys : GeminiManager := mkManager ["key-A"; "key-B"] "gemini-2.5-flash" 0.

Definition bad_request : JSError := mkError "Error" "HTTP 400".

Definition fatal_then_hello : Provider :=
  fun n _ => match n with
             | 0 => mkOutcome (Rejected bad_request) false
             | _ => mkOutcome (Resolved "hello") false
             end.

(** A provider that answers every request with HTTP 503. *)
Definition always_busy : Provider :=
  fun _ _ => mkOutcome (Rejected (mkError "Error" "RateLimit")) false.

(** A provider whose first request settles after the user cancelled. *)
Definition cancelled_at_once : Provider :=
  fun _ _ => mkOutcome (Resolved "too late") true.

Definition no_options : Options := mkOptions [] None None.

(** The assistant message [MainChat] builds from a response whose text
    is empty. *)
Definition silent_reply : Message :=
  mkMessage 1793500000001 "ai" "" "2026-11-01T08:00:01.000Z"
    (Some "gemini-2.5-flash") false.

Definition prompts : SystemPrompts :=
  mkPrompts "You are RYUNEX AI operating in SOLANCE MODE."
    "You are RYUNEX AI operating in CHILL MODE."
    "You are RYUNEX AI operating in STUDENT MODE."
    "You are RYUNEX AI operating in CODER MODE.".

(** A working store with the two chats and today's usage record. *)
Definition full_store : LocalStorage :=
  mkStorage
    (<[ DAILY_USAGE := Json (usageRecord 7 "2026-11-02") ]>
       {[ CHAT_HISTORY := Json (JArr (map encode_chat [first_chat; second_chat])) ]})
    true true.

(** The component showing the second chat, idle, and the same component
    while a reply is awaited. *)
Definition idle_world : World :=
  mkWorld [] "" false None (usageRecord 7 "2026-11-02") false 0 [] full_store two_keys [].

Definition busy_world : World :=
  mkWorld [] "" true None (usageRecord 7 "2026-11-02") true 0 [] full_store two_keys [].

Definition second_chat_id : Value := Some (JNum (c_id second_chat)).

(** A provider that answers the first request with HTTP 503 and whose
    second request settles after the user cancelled. *)
Definition busy_then_cancelled : Provider :=
  fun n _ => match n with
             | 0 => mkOutcome (Rejected (mkError "Error" "RateLimit")) false
             | _ => mkOutcome (Resolved "too late") true
             end.

(** The idle component over a store whose usage record has reached the
    limit today. *)
Definition limit_world : World :=
  mkWorld [] "" false None (usageRecord 25 "2026-11-02") false 0 []
    (mkStorage
       (<[ DAILY_USAGE := Json (usageRecord 25 "2026-11-02") ]>
          {[ CHAT_HISTORY := Json (JArr (map encode_chat [first_chat; second_chat])) ]})
       true true)
    two_keys [].

(** A working store that holds nothing yet. *)
Definition empty_store : LocalStorage := mkStorage ∅ true true.

(** A user message longer than fifty characters. *)
Definition long_question : Message :=
  mkMessage 1793600000000 "user"
    "Please explain how binary search works on a sorted array of numbers"
    "2026-11-02T09:00:00.000Z" None false.

(** A provider that answers the first request with HTTP 503 and the
    second with a text. *)
Definition busy_then_hello : Provider :=
  fun n _ => match n with
             | 0 => mkOutcome (Rejected (mkError "Error" "RateLimit")) false
             | _ => mkOutcome (Resolved "hello") false
             end.

(** The idle component again, as a typed reading: no message on screen,
    the two chats stored, seven messages used today. *)
Definition hello_only : Provider := fun _ _ => mkOutcome (Resolved "hello") false.

(** The idle component before the first send of the day: the two chats
    are stored, and no usage record yet. *)
Definition first_send_world : World :=
  mkWorld [] "" false None (usageRecord 0 "2026-11-02") false 0 [] chat_store two_keys [].

(** A working store holding yesterday's usage record, with all 25
    messages used. *)
Definition spent_yesterday_store : LocalStorage :=
  mkStorage {[ DAILY_USAGE := Json (usageRecord 25 "2026-11-01") ]} true true.

(** The two chats in a store that can be read and refuses every write. *)
Definition full_chat_store : LocalStorage :=
  mkStorage {[ CHAT_HISTORY := Json (JArr (map encode_chat [first_chat; second_chat])) ]}
    true false.

(** The two chats stored, the first one saved as the current chat. *)
Definition saved_store : LocalStorage :=
  mkStorage
    (<[ CURRENT_CHAT_ID := Json (JNum 1793500000000) ]>
       {[ CHAT_HISTORY := Json (JArr (map encode_chat [first_chat; second_chat])) ]})
    true true.

End Samples.

(* ===================================================================== *)
(** ** Sample tables and endpoints for the failover loop                  *)
(* ===================================================================== *)

Module ChatSamples.
Import JS Chat.
Local Open Scope string_scope.

(** A table of three models: two keys, no key, and a key the
    environment does not define. *)
Definition table : list ModelEntry :=
  [mkModel "First" "org/first" [Some "k1"; Some "k2"];
   mkModel "Second" "org/second" [];
   mkModel "Third" "org/third" [None]].

(** HTTP 503 on every request. *)
Definition all_busy : Endpoint :=
  fun _ _ => Responded (mkResponse 503 (Throw (SyntaxError "Unexpected end of JSON input"))).

(** HTTP 503 on the first request, a generated text on the next. *)
Definition busy_then_text : Endpoint :=
  fun n _ =>
    match n with
    | O => Responded (mkResponse 503 (Throw (SyntaxError "Unexpected end of JSON input")))
    | _ => Responded (mkResponse 200 (Ok (JArr [JObj [("generated_text", JStr "hi")]])))
    end.

(** HTTP 503 on the first request, HTTP 401 on the next. *)
Definition busy_then_unauthorized : Endpoint :=
  fun n _ =>
    match n with
    | O => Responded (mkResponse 503 (Throw (SyntaxError "Unexpected end of JSON input")))
    | _ => Responded (mkResponse 401 (Ok (JObj [("error", JStr "Invalid token")])))
    end.

Definition question (ep : Endpoint) (modelIndex keyIndex : nat) : Setup :=
  mkSetup table ep modelIndex keyIndex
    "You are a helpful assistant that speaks in Hinglish and is friendly to students."
    "hello".

(** Two conversations, the first one current. *)
Definition two_chats : Panel :=
  mkPanel [mkConversation 20 "Chat 09:00:00" [];
           mkConversation 10 "Chat 08:00:00" [JObj [("role", JStr "user"); ("content", JStr "hi")]]]
    (Some 20%Z) "".

End ChatSamples.

(* ===================================================================== *)
(** ** Properties of the storage utilities                               *)
(* ===================================================================== *)

Module StorageSpec.
Import JS Storage.
Local Open Scope js_scope.

Ltac run_store :=
  unfold getDailyUsage, incrementDailyUsage, isDailyLimitReached, getRemainingMessages,
    getChatHistory, saveChatHistory, getCurrentChatId, saveCurrentChatId,
    try_catch, bind, lift, ret, throw, getItem, setItem, JSON_stringify in *.

(** [strict_eq] against a string holds only for that string. *)
Lemma strict_eq_str (v : Value) (s : string) :
  strict_eq v (Some (JStr s)) = true -> v = Some (JStr s).
Proof.
  destruct v as [[| | |x| |]|]; simpl; try discriminate.
  intros H. apply String.eqb_eq in H. by subst.
Qed.

Lemma strict_eq_str_refl (s : string) : strict_eq (Some (JStr s)) (Some (JStr s)) = true.
Proof. simpl. apply String.eqb_refl. Qed.

(** The three ways [getDailyUsage] ends: a fresh record with the store
    untouched, a fresh record written over a stale one, or the stored
    object, whose [date] is today. *)
Lemma getDailyUsage_cases (E : Engine) (ls : LocalStorage) :
  getDailyUsage E ls = (Ok (usageRecord 0 (today E)), ls)
  \/ (available ls = true /\ writable ls = true /\
      getDailyUsage E ls =
        (Ok (usageRecord 0 (today E)),
         written DAILY_USAGE (Json (usageRecord 0 (today E))) ls))
  \/ (exists fs, available ls = true /\
        items ls !! DAILY_USAGE = Some (Json (JObj fs)) /\
        assoc "date" fs = Some (JStr (today E)) /\
        getDailyUsage E ls = (Ok (JObj fs), ls)).
Proof.
  destruct ls as [its av wr].
  run_store. unfold isNewDay, getTodayDateString, written. simpl.
  destruct av; [| by left].
  destruct (its !! DAILY_USAGE) as [[s | v] |] eqn:Hit; simpl.
  - destruct (String.eqb s ""); simpl; by left.
  - destruct v as [| b | n | s | l | fs]; simpl; try (by left);
      try (destruct wr; simpl; [right; left; done | by left]).
    destruct (strict_eq (assoc "date" fs) (Some (JStr (today E)))) eqn:Hd; simpl.
    + right; right. exists fs. apply strict_eq_str in Hd. done.
    + destruct wr; simpl; [right; left; done | by left].
  - by left.
Qed.

(** [getDailyUsage] never throws and always returns an object. *)
Lemma getDailyUsage_object (E : Engine) (ls : LocalStorage) :
  exists fs ls', getDailyUsage E ls = (Ok (JObj fs), ls').
Proof.
  destruct (getDailyUsage_cases E ls) as [H | [(_ & _ & H) | (fs & _ & _ & _ & H)]];
    rewrite H; unfold usageRecord; eauto.
Qed.

(** [getDailyUsage] never throws. *)
Lemma getDailyUsage_total (E : Engine) (ls : LocalStorage) :
  exists u ls', getDailyUsage E ls = (Ok u, ls').
Proof. destruct (getDailyUsage_object E ls) as (fs & ls' & H). eauto. Qed.

(** C4.  When the store holds a usage record [{count: c, date: D}] and
    today is another day than [D], [getDailyUsage] returns
    [{count: 0, date: today}] whatever [c] is, and a store that accepts
    writes then holds that fresh record. *)
Theorem getDailyUsage_new_day (E : Engine) (ls : LocalStorage) (c : Z) (D : string) :
  available ls = true ->
  items ls !! DAILY_USAGE = Some (Json (usageRecord c D)) ->
  D <> today E ->
  fst (getDailyUsage E ls) = Ok (usageRecord 0 (today E))
  /\ (writable ls = true ->
      items (snd (getDailyUsage E ls)) !! DAILY_USAGE
        = Some (Json (usageRecord 0 (today E)))).
Proof.
  intros Hav Hit HD.
  destruct ls as [its av wr]; simpl in *; subst av.
  run_store. unfold isNewDay, getTodayDateString, written. simpl.
  rewrite Hit. simpl.
  destruct (String.eqb D (today E)) eqn:Heq.
  - apply String.eqb_eq in Heq. contradiction.
  - simpl. destruct wr; simpl; split; try done.
    intros _. apply lookup_insert_eq.
Qed.

Lemma getDailyUsage_new_day_witness :
  fst (getDailyUsage Samples.engine Samples.stale_store) = Ok (usageRecord 0 "2026-11-02")
  /\ (writable Samples.stale_store = true ->
      items (snd (getDailyUsage Samples.engine Samples.stale_store)) !! DAILY_USAGE
        = Some (Json (usageRecord 0 "2026-11-02"))).
Proof.
  apply (getDailyUsage_new_day Samples.engine Samples.stale_store 7 "2026-11-01").
  - reflexivity.
  - vm_compute. reflexivity.
  - discriminate.
Defined.

(** The two readers of the quota agree on the record [getDailyUsage]
    returns. *)
Lemma governor_of_usage (E : Engine) (ls ls' : LocalStorage) (u : JSON) (c : Z) :
  getDailyUsage E ls = (Ok u, ls') ->
  get_prop (Some u) "count" = Ok (Some (JNum c)) ->
  getRemainingMessages E ls = (Ok (Int (Z.max 0 (MAX_DAILY_MESSAGES - c))), ls')
  /\ isDailyLimitReached E ls = (Ok (MAX_DAILY_MESSAGES <=? c)%Z, ls').
Proof.
  intros Hu Hc.
  unfold getRemainingMessages, isDailyLimitReached, bind, lift, ret.
  rewrite Hu, Hc. simpl. done.
Qed.

(** The count the governor works with is the stored one when the stored
    record is dated today. *)
Lemma getDailyUsage_current (E : Engine) (ls : LocalStorage) (c : Z) :
  available ls = true ->
  items ls !! DAILY_USAGE = Some (Json (usageRecord c (today E))) ->
  getDailyUsage E ls = (Ok (usageRecord c (today E)), ls).
Proof.
  intros Hav Hit. destruct ls as [its av wr]; simpl in *; subst av.
  run_store. unfold isNewDay, getTodayDateString. simpl.
  rewrite Hit. simpl. by rewrite String.eqb_refl.
Qed.

(** What [getDailyUsage] returns on a readable store that holds a
    record of another day, whether the reset can be written or not. *)
Lemma getDailyUsage_stale (E : Engine) (ls : LocalStorage) (c : Z) (d : string) :
  available ls = true ->
  items ls !! DAILY_USAGE = Some (Json (usageRecord c d)) ->
  d <> today E ->
  fst (getDailyUsage E ls) = Ok (usageRecord 0 (today E)).
Proof.
  intros Hav Hit Hd. destruct ls as [its av wr]; simpl in *; subst av.
  run_store. unfold isNewDay, getTodayDateString, written. simpl.
  rewrite Hit. simpl.
  destruct (String.eqb d (today E)) eqn:Heq.
  - apply String.eqb_eq in Heq. contradiction.
  - simpl. by destruct wr.
Qed.

(** C10, as the code has it.  For a readable store holding the usage
    record [{count: c, date: d}]: when [d] is today,
    [getRemainingMessages] returns [max(0, 25 - c)] and
    [isDailyLimitReached] returns [c >= 25]; when [d] is another day the
    record counts for nothing, 25 messages remain and the limit is not
    reached.  Either way the remaining number is a non-negative integer,
    and it is 0 exactly when [isDailyLimitReached] returns true. *)
Theorem remaining_matches_limit (E : Engine) (ls : LocalStorage) (c : Z) (d : string) :
  available ls = true ->
  items ls !! DAILY_USAGE = Some (Json (usageRecord c d)) ->
  (d = today E ->
   fst (getRemainingMessages E ls) = Ok (Int (Z.max 0 (MAX_DAILY_MESSAGES - c)))
   /\ fst (isDailyLimitReached E ls) = Ok (MAX_DAILY_MESSAGES <=? c)%Z)
  /\ (d <> today E ->
      fst (getRemainingMessages E ls) = Ok (Int MAX_DAILY_MESSAGES)
      /\ fst (isDailyLimitReached E ls) = Ok false)
  /\ (exists r,
        fst (getRemainingMessages E ls) = Ok (Int r)
        /\ (0 <= r)%Z
        /\ (r = 0%Z <-> fst (isDailyLimitReached E ls) = Ok true)).
Proof.
  intros Hav Hit.
  assert (Htoday : d = today E ->
            fst (getRemainingMessages E ls) = Ok (Int (Z.max 0 (MAX_DAILY_MESSAGES - c)))
            /\ fst (isDailyLimitReached E ls) = Ok (MAX_DAILY_MESSAGES <=? c)%Z).
  { intros ->.
    destruct (governor_of_usage E ls ls (usageRecord c (today E)) c) as [-> ->];
      [by apply getDailyUsage_current | done | done]. }
  assert (Hother : d <> today E ->
            fst (getRemainingMessages E ls) = Ok (Int MAX_DAILY_MESSAGES)
            /\ fst (isDailyLimitReached E ls) = Ok false).
  { intros Hd. pose proof (getDailyUsage_stale E ls c d Hav Hit Hd) as Hread.
    destruct (getDailyUsage E ls) as [u ls'] eqn:Hu. simpl in Hread. subst u.
    destruct (governor_of_usage E ls ls' (usageRecord 0 (today E)) 0 Hu eq_refl)
      as [-> ->]. done. }
  split; [exact Htoday |]. split; [exact Hother |].
  destruct (String.eqb_spec d (today E)) as [Heq | Hne].
  - destruct (Htoday Heq) as [-> ->]. eexists. split; [reflexivity |].
    split; [lia |]. split.
    + intros H. f_equal. apply Z.leb_le. unfold MAX_DAILY_MESSAGES in *. lia.
    + intros [= H]. apply Z.leb_le in H. unfold MAX_DAILY_MESSAGES in *. lia.
  - destruct (Hother Hne) as [-> ->]. eexists. split; [reflexivity |].
    split; [done |]. split; [done | discriminate].
Qed.

Lemma remaining_matches_limit_witness :
  fst (getRemainingMessages Samples.engine Samples.current_store) = Ok (Int 18)
  /\ fst (isDailyLimitReached Samples.engine Samples.current_store) = Ok false.
Proof.
  apply (proj1 (remaining_matches_limit Samples.engine Samples.current_store 7 "2026-11-02"
                  eq_refl eq_refl)).
  reflexivity.
Defined.

(** C10 as written fails on a record of another day: with all 25
    messages of yesterday used, 25 messages remain, not
    [max(0, 25 - 25)], and the limit is not reached although the count
    of the record is 25. *)
Lemma spent_yesterday_counts_for_nothing :
  items Samples.spent_yesterday_store !! DAILY_USAGE
    = Some (Json (usageRecord 25 "2026-11-01"))
  /\ fst (getRemainingMessages Samples.engine Samples.spent_yesterday_store) = Ok (Int 25)
  /\ Int 25 <> Int (Z.max 0 (MAX_DAILY_MESSAGES - 25))
  /\ fst (isDailyLimitReached Samples.engine Samples.spent_yesterday_store) = Ok false
  /\ (MAX_DAILY_MESSAGES <=? 25)%Z = true.
Proof. vm_compute. repeat split; discriminate. Qed.

(** The readers of the chat history and of the current chat id leave the
    store as it is. *)
Lemma getChatHistory_total (ls : LocalStorage) :
  exists v, getChatHistory ls = (Ok v, ls).
Proof.
  destruct ls as [its av wr]. run_store. simpl.
  destruct av; [| eauto].
  destruct (its !! CHAT_HISTORY) as [[s | v] |]; simpl; eauto.
  destruct (String.eqb s ""); simpl; eauto.
Qed.

Lemma getCurrentChatId_total (ls : LocalStorage) :
  exists r, getCurrentChatId ls = (Ok r, ls).
Proof. destruct ls as [its [|] wr]; run_store; simpl; eauto. Qed.

(** A write either lands or changes nothing; it never throws. *)
Lemma saveChatHistory_result (chats : JSON) (ls : LocalStorage) :
  saveChatHistory chats ls
  = (Ok tt, if available ls && writable ls then written CHAT_HISTORY (Json chats) ls else ls).
Proof. destruct ls as [its [|] [|]]; run_store; reflexivity. Qed.

Lemma saveCurrentChatId_result (E : Engine) (chatId : Value) (ls : LocalStorage) :
  saveCurrentChatId E chatId ls
  = (Ok tt,
     if available ls && writable ls
     then written CURRENT_CHAT_ID (Raw (to_String E chatId)) ls else ls).
Proof. destruct ls as [its [|] [|]]; run_store; reflexivity. Qed.

Lemma getChatHistory_default (ls : LocalStorage) :
  available ls = false \/ unreadable (items ls !! CHAT_HISTORY) = true ->
  getChatHistory ls = (Ok (JArr []), ls).
Proof.
  destruct ls as [its av wr]. run_store. simpl.
  destruct av; [| done]. intros [H | H]; [done |].
  destruct (its !! CHAT_HISTORY) as [[s | v] |]; simpl in *; try done.
  by destruct (String.eqb s "").
Qed.

Lemma getDailyUsage_default (E : Engine) (ls : LocalStorage) :
  available ls = false \/ unreadable (items ls !! DAILY_USAGE) = true ->
  getDailyUsage E ls = (Ok (usageRecord 0 (today E)), ls).
Proof.
  destruct ls as [its av wr]. run_store. unfold getTodayDateString. simpl.
  destruct av; [| done]. intros [H | H]; [done |].
  destruct (its !! DAILY_USAGE) as [[s | v] |]; simpl in *; try done.
  by destruct (String.eqb s "").
Qed.

Lemma getCurrentChatId_default (ls : LocalStorage) :
  available ls = false \/ items ls !! CURRENT_CHAT_ID = None ->
  getCurrentChatId ls = (Ok None, ls).
Proof.
  destruct ls as [its av wr]. run_store. simpl.
  destruct av; [| done]. intros [H | H]; [done |]. by rewrite H.
Qed.

(** What holds of the totality of the store on every input.  None of
    the five operations throws, on any store; the readers return the
    empty defaults when the backend is unavailable or the stored string
    is absent or is not JSON text; a write that fails changes
    nothing. *)
Theorem local_store_total (E : Engine) (ls : LocalStorage) :
  (exists v, getChatHistory ls = (Ok v, ls))
  /\ (exists u ls', getDailyUsage E ls = (Ok u, ls'))
  /\ (exists r, getCurrentChatId ls = (Ok r, ls))
  /\ (forall chats, exists ls', saveChatHistory chats ls = (Ok tt, ls'))
  /\ (forall chatId, exists ls', saveCurrentChatId E chatId ls = (Ok tt, ls'))
  /\ (available ls = false \/ unreadable (items ls !! CHAT_HISTORY) = true ->
      getChatHistory ls = (Ok (JArr []), ls))
  /\ (available ls = false \/ unreadable (items ls !! DAILY_USAGE) = true ->
      getDailyUsage E ls = (Ok (usageRecord 0 (today E)), ls))
  /\ (available ls = false \/ items ls !! CURRENT_CHAT_ID = None ->
      getCurrentChatId ls = (Ok None, ls))
  /\ (available ls = false \/ writable ls = false ->
      forall chats chatId,
        saveChatHistory chats ls = (Ok tt, ls)
        /\ saveCurrentChatId E chatId ls = (Ok tt, ls)).
Proof.
  repeat split.
  - apply getChatHistory_total.
  - apply getDailyUsage_total.
  - apply getCurrentChatId_total.
  - intros chats. rewrite saveChatHistory_result. eauto.
  - intros chatId. rewrite saveCurrentChatId_result. eauto.
  - apply getChatHistory_default.
  - apply getDailyUsage_default.
  - apply getCurrentChatId_default.
  - rewrite saveChatHistory_result.
    destruct H as [-> | ->]; [done | by rewrite andb_false_r].
  - rewrite saveCurrentChatId_result.
    destruct H as [-> | ->]; [done | by rewrite andb_false_r].
Qed.

(** C9, at the input the code misses.  A chat history stored as the
    JSON text of an object, which is no list of chats, is returned as
    parsed and not replaced by the empty list, the value the two other
    paths of [getChatHistory] fall back to; [createNewChat], which needs
    a list, then throws to its caller. *)
Theorem getChatHistory_keeps_other_shapes :
  items Samples.object_history_store !! CHAT_HISTORY = Some (Json (JObj []))
  /\ getChatHistory Samples.object_history_store = (Ok (JObj []), Samples.object_history_store)
  /\ fst (getChatHistory Samples.object_history_store) <> Ok (JArr [])
  /\ createNewChat Samples.engine "Solance" Samples.object_history_store
     = (Throw (TypeError "chats.unshift is not a function"), Samples.object_history_store).
Proof. vm_compute. repeat split; discriminate. Qed.

(** *** Appending a message and reading the chat back *)

Lemma assoc_assign_eq (k : string) (v : JSON) (fs : list (string * JSON)) :
  assoc k (assign k v fs) = Some v.
Proof.
  induction fs as [| [k' v'] fs IH]; simpl.
  - by rewrite String.eqb_refl.
  - destruct (String.eqb k k') eqn:Hk; simpl; rewrite Hk; [done | apply IH].
Qed.

Lemma assoc_assign_ne (k k' : string) (v : JSON) (fs : list (string * JSON)) :
  k <> k' -> assoc k (assign k' v fs) = assoc k fs.
Proof.
  intros Hne. induction fs as [| [k0 v0] fs IH]; simpl.
  - destruct (String.eqb k k') eqn:Hk; [| done].
    apply String.eqb_eq in Hk. contradiction.
  - destruct (String.eqb k' k0) eqn:Hk0; simpl.
    + destruct (String.eqb k k0) eqn:Hk; [| done].
      apply String.eqb_eq in Hk0, Hk. congruence.
    + by rewrite IH.
Qed.

(** [derive_title] returns the fields as they are or with a new title. *)
Lemma derive_title_shape (E : Engine) (messages : JSON) (fs fs' : list (string * JSON)) :
  derive_title E messages fs = Ok fs' ->
  fs' = fs \/ exists v, fs' = assign "title" v fs.
Proof.
  unfold derive_title.
  destruct (needs_title (assoc "title" fs)) as [[|] | e]; [| intros [= <-]; by left | done].
  destruct (array_find is_user_message messages) as [first | e]; [| done].
  destruct (truthy first); [| intros [= <-]; by left].
  destruct (get_prop first "text") as [text | e]; [| done].
  destruct (get_prop first "content") as [content | e]; [| done].
  destruct (slice_50 _) as [title | e]; [| done].
  intros [= <-]. right. eauto.
Qed.

(** Looking for a user message among encoded messages never throws and
    finds an encoded message, if any. *)
Lemma find_user_message (ms : list Message) :
  find_in is_user_message (map encode_message ms) = Ok None
  \/ exists m, find_in is_user_message (map encode_message ms) = Ok (Some (encode_message m)).
Proof.
  induction ms as [| m ms IH]; simpl; [by left |].
  change (is_user_message (encode_message m))
    with (Ok (String.eqb (m_role m) "user") : Res bool).
  destruct (String.eqb (m_role m) "user"); [right; eauto | apply IH].
Qed.

(** The title text taken from an encoded message. *)
Lemma title_of_text (t : string) :
  slice_50 (js_or (js_or (Some (JStr t)) None) (Some (JStr ""))) = Ok (JStr (slice0 50 t)).
Proof.
  unfold js_or. simpl truthy.
  destruct (String.eqb t "") eqn:Ht; simpl; rewrite ?Ht; simpl; [| done].
  apply String.eqb_eq in Ht. by subst.
Qed.

(** On a chat and messages built by the application, the title update
    does not throw. *)
Lemma derive_title_encoded (E : Engine) (c : Chat) (ms : list Message) :
  exists fs',
    derive_title E (JArr (map encode_message ms))
      (with_messages c (JArr (map encode_message ms))) = Ok fs'.
Proof.
  unfold derive_title, with_messages, chat_fields. simpl assign. simpl assoc.
  unfold needs_title. simpl truthy.
  destruct (String.eqb (c_title c) ""); simpl negb; cbv iota.
  2: destruct (startsWith (c_title c) "New Chat"); [| eauto].
  all: unfold array_find;
    destruct (find_user_message ms) as [-> | [m ->]]; simpl truthy; cbv iota; [eauto |];
    destruct m as [i r t ts [mu |] [|]]; simpl get_prop; cbv iota;
    rewrite title_of_text; eauto.
Qed.

(** The index [findIndex] returns for an id held by some chat: that of
    the first chat with this id. *)
Lemma findIndex_chats (id : Z) (chats : list Chat) (k : nat) :
  (exists C, In C chats /\ c_id C = id) ->
  exists i C0,
    findIndex_from (has_id (JNum id)) (map encode_chat chats) k = Ok (Some (k + i))
    /\ chats !! i = Some C0 /\ c_id C0 = id
    /\ (forall j y, j < i -> map encode_chat chats !! j = Some y ->
          has_id (JNum id) y = Ok false).
Proof.
  revert k. induction chats as [| c chats IH]; intros k (C & HC & Hid); [destruct HC |].
  simpl.
  change (has_id (JNum id) (encode_chat c)) with (Ok (c_id c =? id)%Z : Res bool).
  destruct (c_id c =? id)%Z eqn:Hc.
  - exists 0, c. rewrite Nat.add_0_r. repeat split; try done.
    + by apply Z.eqb_eq.
    + intros j y Hj. lia.
  - destruct HC as [<- | HC]; [apply Z.eqb_neq in Hc; congruence |].
    destruct (IH (S k)) as (i & C0 & Hf & Hl & Hi & Hbefore); [eauto |].
    exists (S i), C0. rewrite Hf. repeat split; try done.
    + f_equal. f_equal. lia.
    + intros [| j] y Hj Hy; simpl in Hy.
      * injection Hy as <-.
        change (has_id (JNum id) (encode_chat c)) with (Ok (c_id c =? id)%Z : Res bool).
        by rewrite Hc.
      * apply (Hbefore j); [lia | done].
Qed.

(** [find] on an array where index [i] was overwritten by a match and
    nothing before it matches. *)
Lemma find_in_insert (p : JSON -> Res bool) (l : list JSON) (i : nat) (x : JSON) :
  i < length l ->
  (forall j y, j < i -> l !! j = Some y -> p y = Ok false) ->
  p x = Ok true ->
  find_in p (<[i := x]> l) = Ok (Some x).
Proof.
  revert i. induction l as [| y l IH]; intros i Hlen Hbefore Hx; simpl in Hlen; [lia |].
  destruct i as [| i]; simpl.
  - by rewrite Hx.
  - rewrite (Hbefore 0 y); [| lia | done].
    apply IH; [lia | | done].
    intros j z Hj Hz. apply (Hbefore (S j)); [lia | done].
Qed.

Lemma lookup_map {A B} (f : A -> B) (l : list A) (i : nat) :
  map f l !! i = f <$> l !! i.
Proof. revert i. induction l as [| x l IH]; intros [| i]; simpl; auto. Qed.

Lemma getChatHistory_stored (ls : LocalStorage) (v : JSON) :
  available ls = true ->
  items ls !! CHAT_HISTORY = Some (Json v) ->
  getChatHistory ls = (Ok v, ls).
Proof.
  intros Hav Hit. destruct ls as [its av wr]; simpl in *; subst av.
  run_store. simpl. by rewrite Hit.
Qed.

(** What [updateChatMessages] does on a working store whose history is a
    list of chats built by the application, for an id some chat has: the
    first chat with this id gets the new messages (and maybe a new
    title), the others stay, and the list is written back. *)
Lemma updateChatMessages_encoded (E : Engine) (ls : LocalStorage) (chats : list Chat)
  (id : Z) (ms : list Message) :
  available ls = true ->
  writable ls = true ->
  items ls !! CHAT_HISTORY = Some (Json (JArr (map encode_chat chats))) ->
  (exists C, In C chats /\ c_id C = id) ->
  exists i fs',
    i < length chats
    /\ (forall j y, j < i -> map encode_chat chats !! j = Some y ->
          has_id (JNum id) y = Ok false)
    /\ assoc "id" fs' = Some (JNum id)
    /\ assoc "messages" fs' = Some (JArr (map encode_message ms))
    /\ updateChatMessages E (JNum id) (JArr (map encode_message ms)) ls
       = (Ok tt,
          written CHAT_HISTORY
            (Json (JArr (<[i := JObj fs']> (map encode_chat chats)))) ls).
Proof.
  intros Hav Hwr Hit HC.
  destruct (findIndex_chats id chats 0 HC) as (i & C0 & Hf & Hl & Hid & Hbefore).
  destruct (derive_title_encoded E C0 ms) as [fs' Hfs'].
  exists i, fs'. split; [by eapply lookup_lt_Some |]. split; [done |].
  assert (Hkeep : forall k, k <> "title" ->
            assoc k fs' = assoc k (with_messages C0 (JArr (map encode_message ms)))).
  { intros k Hk. destruct (derive_title_shape _ _ _ _ Hfs') as [-> | [v ->]]; [done |].
    by apply assoc_assign_ne. }
  split; [rewrite Hkeep; [by rewrite <- Hid | done] |].
  split; [rewrite Hkeep; [done | done] |].
  unfold updateChatMessages, bind.
  rewrite (getChatHistory_stored ls _ Hav Hit).
  unfold lift, array_findIndex. rewrite Hf. change (0 + i) with i.
  rewrite lookup_map, Hl.
  change (encode_chat <$> Some C0) with (Some (JObj (chat_fields C0))). cbv beta iota.
  change (assign "messages" (JArr (map encode_message ms)) (chat_fields C0))
    with (with_messages C0 (JArr (map encode_message ms))).
  rewrite Hfs'. rewrite saveChatHistory_result, Hav, Hwr. reflexivity.
Qed.

(** C8, as the code has it.  On a store that can be read and accepts
    the write, whose history is a list of chats built by the
    application, appending a message [M] to the messages of a chat [C]
    of that list, persisting with [updateChatMessages] and reading back
    with [getChatById] yields a chat with the id of [C] whose message
    list is the appended one, [M] last. *)
Theorem append_then_reload (E : Engine) (ls : LocalStorage) (chats : list Chat)
  (C : Chat) (M : Message) :
  available ls = true ->
  writable ls = true ->
  items ls !! CHAT_HISTORY = Some (Json (JArr (map encode_chat chats))) ->
  In C chats ->
  exists ls' C',
    updateChatMessages E (JNum (c_id C))
      (JArr (map encode_message (c_messages C ++ [M]))) ls = (Ok tt, ls')
    /\ getChatById (JNum (c_id C)) ls' = (Ok (Some C'), ls')
    /\ get_prop (Some C') "id" = Ok (Some (JNum (c_id C)))
    /\ get_prop (Some C') "messages"
       = Ok (Some (JArr (map encode_message (c_messages C ++ [M]))))
    /\ last (map encode_message (c_messages C ++ [M])) = Some (encode_message M).
Proof.
  intros Hav Hwr Hit HC.
  destruct (updateChatMessages_encoded E ls chats (c_id C) (c_messages C ++ [M])
              Hav Hwr Hit) as (i & fs' & Hi & Hbefore & Hid & Hms & Hupd); [eauto |].
  eexists _, (JObj fs'). split; [exact Hupd |].
  split; [| split; [simpl; by rewrite Hid | split; [simpl; by rewrite Hms |]]].
  - unfold getChatById, bind.
    rewrite (getChatHistory_stored _ (JArr (<[i := JObj fs']> (map encode_chat chats)))).
    + unfold lift, array_find.
      rewrite find_in_insert; try done.
      * by rewrite length_map.
      * unfold has_id. simpl. rewrite Hid. simpl. by rewrite Z.eqb_refl.
    + done.
    + simpl. apply lookup_insert_eq.
  - rewrite map_app. apply last_snoc.
Qed.

Lemma append_then_reload_witness :
  exists ls' C',
    updateChatMessages Samples.engine (JNum (c_id Samples.first_chat))
      (JArr (map encode_message (c_messages Samples.first_chat ++ [Samples.reply])))
      Samples.chat_store = (Ok tt, ls')
    /\ getChatById (JNum (c_id Samples.first_chat)) ls' = (Ok (Some C'), ls')
    /\ get_prop (Some C') "id" = Ok (Some (JNum (c_id Samples.first_chat)))
    /\ get_prop (Some C') "messages"
       = Ok (Some (JArr (map encode_message (c_messages Samples.first_chat ++ [Samples.reply]))))
    /\ last (map encode_message (c_messages Samples.first_chat ++ [Samples.reply]))
       = Some (encode_message Samples.reply).
Proof.
  apply (append_then_reload Samples.engine Samples.chat_store
           [Samples.first_chat; Samples.second_chat] Samples.first_chat Samples.reply).
  - reflexivity.
  - reflexivity.
  - vm_compute. reflexivity.
  - left. reflexivity.
Defined.

(** C8 as written fails on a store that holds the chat and refuses the
    write: [updateChatMessages] returns normally, the failed write being
    caught and logged by [saveChatHistory], and the chat reads back with
    its old messages, whose last is not the appended one. *)
Lemma append_lost_when_write_fails :
  getChatById (JNum (c_id Samples.first_chat)) Samples.full_chat_store
    = (Ok (Some (encode_chat Samples.first_chat)), Samples.full_chat_store)
  /\ updateChatMessages Samples.engine (JNum (c_id Samples.first_chat))
       (JArr (map encode_message (c_messages Samples.first_chat ++ [Samples.reply])))
       Samples.full_chat_store
     = (Ok tt, Samples.full_chat_store)
  /\ get_prop (Some (encode_chat Samples.first_chat)) "messages"
     = Ok (Some (JArr [encode_message Samples.hello]))
  /\ last [encode_message Samples.hello] <> Some (encode_message Samples.reply).
Proof. vm_compute. repeat split; discriminate. Qed.

(** Yesterday's record with 7 messages reads as a fresh one: 25 messages
    remain and the limit is not reached. *)
Example stale_record_reads_fresh :
  fst (getRemainingMessages Samples.engine Samples.stale_store) = Ok (Int 25)
  /\ fst (isDailyLimitReached Samples.engine Samples.stale_store) = Ok false.
Proof. vm_compute. by split. Qed.

End StorageSpec.

(* ===================================================================== *)
(** ** Properties of the key rotation of [GeminiManager]                 *)
(* ===================================================================== *)

Module GeminiSpec.
Import JS Gemini.
Local Open Scope list_scope.

Section Rotation.

Variables (P : Provider) (prompt : string) (o : Options).
Variables (keys : list string) (mname : string).

Local Abbreviation K := (length keys).
Local Abbreviation mgr := (mkManager keys mname).
Local Abbreviation att := (attempt_of (mkManager keys mname 0) prompt o).

(** One turn of the loop that ends in the [catch] block rotating. *)
Lemma rotate_fail_step (rem n c : nat) (log : list Attempt) :
  c < K ->
  fails (P n (request (att c))) = true ->
  rotate P prompt o K (S rem) n (mgr c) log
  = rotate P prompt o K rem (S n) (mgr ((c + 1) mod K)) (log ++ [att c]).
Proof.
  intros Hc Hf. simpl.
  destruct (lookup_lt_is_Some_2 keys c Hc) as [key Hkey].
  unfold fails, attempt_of in Hf. simpl in Hf. rewrite Hkey in Hf |- *.
  unfold attempt_of. simpl apiKeys. rewrite Hkey.
  change (build_request (mgr c) prompt o (Some key))
    with (build_request (mgr 0) prompt o (Some key)).
  destruct (try_body (P n (build_request (mgr 0) prompt o (Some key)))) as [text | error];
    [discriminate |].
  apply negb_true_iff in Hf. by rewrite Hf.
Qed.

(** One turn of the loop that leaves it: the run ends there, with the
    cursor where it was. *)
Lemma rotate_stop_step (rem n c : nat) (log : list Attempt) :
  c < K ->
  fails (P n (request (att c))) = false ->
  exists r ab,
    rotate P prompt o K (S rem) n (mgr c) log = mkRun r (mgr c) (log ++ [att c]) false ab.
Proof.
  intros Hc Hf. simpl.
  destruct (lookup_lt_is_Some_2 keys c Hc) as [key Hkey].
  unfold fails, attempt_of in Hf. simpl in Hf. rewrite Hkey in Hf |- *.
  unfold attempt_of. simpl apiKeys. rewrite Hkey.
  change (build_request (mgr c) prompt o (Some key))
    with (build_request (mgr 0) prompt o (Some key)).
  destruct (try_body (P n (build_request (mgr 0) prompt o (Some key)))) as [text | error].
  - eauto.
  - apply negb_false_iff in Hf. rewrite Hf. eauto.
Qed.

(** [n] failing attempts in a row move the cursor [n] keys further,
    modulo the number of keys. *)
Lemma rotate_prefix (n : nat) :
  forall (rem a c : nat) (log : list Attempt),
    c < K ->
    (forall k, k < n -> fails (P (a + k) (request (att ((c + k) mod K)))) = true) ->
    rotate P prompt o K (n + rem) a (mgr c) log
    = rotate P prompt o K rem (a + n) (mgr ((c + n) mod K))
        (log ++ map (fun k => att ((c + k) mod K)) (seq 0 n)).
Proof.
  induction n as [| n IH]; intros rem a c log Hc Hall.
  - simpl. rewrite !Nat.add_0_r, app_nil_r, Nat.mod_small by done. reflexivity.
  - assert (HK : K <> 0) by lia.
    change (S n + rem) with (S (n + rem)).
    rewrite rotate_fail_step; [| done |].
    2: { specialize (Hall 0 ltac:(lia)).
         rewrite !Nat.add_0_r, Nat.mod_small in Hall by done. exact Hall. }
    rewrite IH.
    + rewrite Nat.Div0.add_mod_idemp_l.
      replace (c + 1 + n) with (c + S n) by lia.
      replace (S a + n) with (a + S n) by lia.
      f_equal. rewrite <- app_assoc. f_equal.
      change (seq 0 (S n)) with (0 :: seq 1 n).
      rewrite <- seq_shift, map_cons, map_map.
      rewrite Nat.add_0_r, (Nat.mod_small c K) by done. simpl app. f_equal.
      apply map_ext. intros k.
      rewrite Nat.Div0.add_mod_idemp_l. do 2 f_equal. lia.
    + by apply Nat.mod_upper_bound.
    + intros k Hk. specialize (Hall (S k) ltac:(lia)).
      rewrite Nat.Div0.add_mod_idemp_l.
      replace (S a + k) with (a + S k) by lia.
      replace (c + 1 + k) with (c + S k) by lia. exact Hall.
Qed.

(** The loop only appends to the log, and no more than [rem] requests. *)
Lemma rotate_issued (rem : nat) :
  forall (a : nat) (m : GeminiManager) (log : list Attempt),
    exists tail,
      issued (rotate P prompt o K rem a m log) = log ++ tail /\ length tail <= rem.
Proof.
  induction rem as [| rem IH]; intros a m log; simpl.
  - exists []. by rewrite app_nil_r.
  - set (a0 := mkAttempt _ _).
    destruct (try_body _) as [text | error].
    + exists [a0]; simpl; split; try done; lia.
    + destruct (_ || _); [exists [a0]; simpl; split; try done; lia |].
      destruct (apiKeys m !! currentKeyIndex m); [| exists [a0]; simpl; split; try done; lia].
      destruct (IH (S a) (mkManager (apiKeys m) (modelName m)
                            ((currentKeyIndex m + 1) mod K)) (log ++ [a0]))
        as (tail & -> & Hlen).
      exists (a0 :: tail). rewrite <- app_assoc. simpl. split; [done | lia].
Qed.

(** Every request of the log was issued with the key the rotation had
    reached, after failures of all the requests before it. *)
Lemma rotate_issued_inv (rem : nat) :
  forall (a c : nat) (log : list Attempt) (i : nat) (x : Attempt),
    c < K ->
    issued (rotate P prompt o K rem a (mgr c) log) !! (length log + i) = Some x ->
    x = att ((c + i) mod K)
    /\ (forall k, k < i -> fails (P (a + k) (request (att ((c + k) mod K)))) = true).
Proof.
  induction rem as [| rem IH]; intros a c log i x Hc Hx.
  - simpl in Hx. rewrite lookup_ge_None_2 in Hx by lia. discriminate.
  - destruct (fails (P a (request (att c)))) eqn:Hf.
    + rewrite rotate_fail_step in Hx by done.
      destruct i as [| i].
      * destruct (rotate_issued rem (S a) (mgr ((c + 1) mod K)) (log ++ [att c]))
          as (tail & Htail & _).
        rewrite Htail, <- app_assoc, Nat.add_0_r in Hx.
        rewrite lookup_app_r, Nat.sub_diag in Hx by lia. simpl in Hx.
        injection Hx as <-. rewrite Nat.add_0_r, Nat.mod_small by done.
        split; [done | intros k Hk; lia].
      * replace (length log + S i) with (length (log ++ [att c]) + i) in Hx
          by (rewrite length_app; simpl; lia).
        apply IH in Hx; [| apply Nat.mod_upper_bound; lia].
        destruct Hx as [-> Hbefore].
        rewrite Nat.Div0.add_mod_idemp_l.
        replace (c + 1 + i) with (c + S i) by lia. split; [done |].
        intros [| k] Hk.
        -- rewrite !Nat.add_0_r, Nat.mod_small by done. exact Hf.
        -- specialize (Hbefore k ltac:(lia)).
           rewrite Nat.Div0.add_mod_idemp_l in Hbefore.
           replace (a + S k) with (S a + k) by lia.
           replace (c + S k) with (c + 1 + k) by lia. exact Hbefore.
    + destruct (rotate_stop_step rem a c log Hc Hf) as (r & ab & Hrun).
      rewrite Hrun in Hx. simpl in Hx.
      destruct i as [| i].
      * rewrite Nat.add_0_r, lookup_app_r, Nat.sub_diag in Hx by lia. simpl in Hx.
        injection Hx as <-. rewrite Nat.add_0_r, Nat.mod_small by done.
        split; [done | intros k Hk; lia].
      * rewrite lookup_ge_None_2 in Hx; [discriminate |].
        rewrite length_app. simpl. lia.
Qed.

(** The first request a turn of the loop issues is the one at the
    cursor. *)
Lemma rotate_first (rem n c : nat) (log : list Attempt) :
  c < K ->
  issued (rotate P prompt o K (S rem) n (mgr c) log) !! length log = Some (att c).
Proof.
  intros Hc. destruct (fails (P n (request (att c)))) eqn:Hf.
  - rewrite rotate_fail_step by done.
    destruct (rotate_issued rem (S n) (mgr ((c + 1) mod K)) (log ++ [att c]))
      as (tail & -> & _).
    rewrite <- app_assoc, lookup_app_r, Nat.sub_diag by lia. reflexivity.
  - destruct (rotate_stop_step rem n c log Hc Hf) as (r & ab & ->). simpl.
    rewrite lookup_app_r, Nat.sub_diag by lia. reflexivity.
Qed.

(** Every request of a call carries the history and the prompt the call
    was given. *)
Lemma rotate_requests (rem : nat) :
  forall (a : nat) (m : GeminiManager) (log : list Attempt),
    Forall (fun x => history (request x) = opt_history o /\ Gemini.prompt (request x) = prompt) log ->
    Forall (fun x => history (request x) = opt_history o /\ Gemini.prompt (request x) = prompt)
      (issued (rotate P prompt o K rem a m log)).
Proof.
  induction rem as [| rem IH]; intros a m log Hlog; simpl; [done |].
  assert (Hlog' : Forall (fun x => history (request x) = opt_history o
                                   /\ Gemini.prompt (request x) = prompt)
                    (log ++ [mkAttempt (currentKeyIndex m)
                               (build_request m prompt o (apiKeys m !! currentKeyIndex m))])).
  { apply Forall_app. split; [done |]. by repeat constructor. }
  destruct (try_body _) as [text | error]; [done |].
  destruct (_ || _); [done |].
  destruct (apiKeys m !! currentKeyIndex m) eqn:Hk; [| done].
  by apply IH.
Qed.

End Rotation.

(** The constructor establishes the class invariant. *)
Lemma constructor_valid (keys : list string) (name : string) (m : GeminiManager) :
  constructor keys name = Ok m -> valid m /\ currentKeyIndex m = 0.
Proof.
  unfold constructor, valid. destruct keys as [| k keys]; simpl; [done |].
  intros [= <-]. simpl. split; [lia | done].
Qed.

(** [generateResponse] issues at most one request per key. *)
Lemma generateResponse_bound (P : Provider) (m : GeminiManager) (prompt : string)
  (o : Options) :
  length (issued (generateResponse P m prompt o)) <= length (apiKeys m).
Proof.
  unfold generateResponse.
  destruct (rotate_issued P prompt o (apiKeys m) (length (apiKeys m)) 0 m [])
    as (tail & -> & Hlen).
  done.
Qed.

(** When every request of a call fails without a cancellation, the call
    issues one request per key, starting at the cursor and going round
    the key list, reports the total failure, returns the fallback text
    and leaves the manager as it was. *)
Lemma generateResponse_all_fail (P : Provider) (m : GeminiManager) (prompt : string)
  (o : Options) :
  valid m ->
  (forall k, k < length (apiKeys m) ->
     fails (P k (request (attempt_at m prompt o k))) = true) ->
  generateResponse P m prompt o
  = mkRun (Returned FALLBACK) m (map (attempt_at m prompt o) (seq 0 (length (apiKeys m))))
      true false.
Proof.
  destruct m as [keys mname c]. unfold valid, generateResponse. simpl.
  intros Hc Hall.
  replace (rotate P prompt o (length keys) (length keys) 0 (mkManager keys mname c) [])
    with (rotate P prompt o (length keys) (length keys + 0) 0 (mkManager keys mname c) [])
    by (by rewrite Nat.add_0_r).
  rewrite rotate_prefix; [| done | exact Hall].
  simpl. f_equal. f_equal.
  rewrite <- (Nat.mul_1_l (length keys)) at 1.
  rewrite Nat.Div0.mod_add. by apply Nat.mod_small.
Qed.

Lemma seq_from (s n : nat) : seq s n = map (fun k => s + k) (seq 0 n).
Proof.
  revert s. induction n as [| n IH]; intros s; simpl; [done |].
  rewrite Nat.add_0_r. f_equal.
  rewrite <- (seq_shift n 0), map_map, (IH (S s)).
  apply map_ext. intros k. lia.
Qed.

(** Going round the keys from the cursor visits every key once. *)
Lemma round_trip_permutation (c K : nat) :
  c < K ->
  map (fun k => (c + k) mod K) (seq 0 K) ≡ₚ seq 0 K.
Proof.
  intros Hc.
  assert (Hmap : map (fun k => (c + k) mod K) (seq 0 K) = seq c (K - c) ++ seq 0 c).
  { replace (seq 0 K) with (seq 0 (K - c) ++ seq (K - c) c).
    - rewrite map_app. f_equal.
      + rewrite (seq_from c (K - c)). apply map_ext_in.
        intros k Hk. apply in_seq in Hk. apply Nat.mod_small. lia.
      + rewrite (seq_from (K - c) c), map_map.
        rewrite <- (map_id (seq 0 c)) at 2. apply map_ext_in.
        intros k Hk. apply in_seq in Hk.
        replace (c + (K - c + k)) with (k + 1 * K) by lia.
        rewrite Nat.Div0.mod_add. apply Nat.mod_small. lia.
    - replace K with ((K - c) + c) at 3 by lia. by rewrite seq_app. }
  rewrite Hmap, Permutation_app_comm.
  replace K with (c + (K - c)) at 2 by lia. by rewrite seq_app.
Qed.

(** C2.  When every request of a call of [generateResponse] fails
    without success and without cancellation, the call returns exactly
    the fixed fallback text, after [_handleTotalFailure], and
    [currentKeyIndex] is at exit what it was at entry. *)
Theorem exhaustion_returns_fallback (P : Provider) (m : GeminiManager) (prompt : string)
  (o : Options) :
  valid m ->
  (forall k, k < length (apiKeys m) ->
     fails (P k (request (attempt_at m prompt o k))) = true) ->
  completion (generateResponse P m prompt o)
    = Returned "Server is busy, please talk to owner of RYUNEX"
  /\ currentKeyIndex (manager (generateResponse P m prompt o)) = currentKeyIndex m
  /\ manager (generateResponse P m prompt o) = m
  /\ totalFailure (generateResponse P m prompt o) = true.
Proof.
  intros Hv Hall. by rewrite generateResponse_all_fail.
Qed.

Lemma exhaustion_returns_fallback_witness :
  completion (generateResponse Samples.always_busy Samples.two_keys "hi" Samples.no_options)
    = Returned "Server is busy, please talk to owner of RYUNEX"
  /\ currentKeyIndex
       (manager (generateResponse Samples.always_busy Samples.two_keys "hi" Samples.no_options))
     = currentKeyIndex Samples.two_keys
  /\ manager (generateResponse Samples.always_busy Samples.two_keys "hi" Samples.no_options)
     = Samples.two_keys
  /\ totalFailure (generateResponse Samples.always_busy Samples.two_keys "hi" Samples.no_options)
     = true.
Proof.
  apply (exhaustion_returns_fallback Samples.always_busy Samples.two_keys "hi"
           Samples.no_options).
  - unfold valid. simpl. lia.
  - intros k _. reflexivity.
Defined.

(** C6, for the one key list a [GeminiManager] holds.  A call issues at
    most as many requests as there are keys; when all of them fail
    without cancellation it returns the exhaustion result after exactly
    one request per key, in the order: the key at the entry cursor, then
    key after key, wrapping past the end of the list to its start, so
    that every position is tried once. *)
Theorem rotation_order (P : Provider) (m : GeminiManager) (prompt : string) (o : Options) :
  valid m ->
  (forall k, k < length (apiKeys m) ->
     fails (P k (request (attempt_at m prompt o k))) = true) ->
  length (issued (generateResponse P m prompt o)) <= length (apiKeys m)
  /\ completion (generateResponse P m prompt o) = Returned FALLBACK
  /\ map keyIndex (issued (generateResponse P m prompt o))
     = map (fun k => (currentKeyIndex m + k) mod length (apiKeys m))
         (seq 0 (length (apiKeys m)))
  /\ map keyIndex (issued (generateResponse P m prompt o)) ≡ₚ seq 0 (length (apiKeys m)).
Proof.
  intros Hv Hall. split; [apply generateResponse_bound |].
  rewrite generateResponse_all_fail by done. simpl.
  split; [done |].
  assert (Hkeys : map keyIndex (map (attempt_at m prompt o) (seq 0 (length (apiKeys m))))
                  = map (fun k => (currentKeyIndex m + k) mod length (apiKeys m))
                      (seq 0 (length (apiKeys m)))).
  { rewrite map_map. by apply map_ext. }
  split; [done |].
  rewrite Hkeys. by apply round_trip_permutation.
Qed.

Lemma rotation_order_witness :
  length (issued (generateResponse Samples.always_busy Samples.two_keys "hi" Samples.no_options))
    <= length (apiKeys Samples.two_keys)
  /\ completion (generateResponse Samples.always_busy Samples.two_keys "hi" Samples.no_options)
     = Returned FALLBACK
  /\ map keyIndex
       (issued (generateResponse Samples.always_busy Samples.two_keys "hi" Samples.no_options))
     = map (fun k => (currentKeyIndex Samples.two_keys + k) mod length (apiKeys Samples.two_keys))
         (seq 0 (length (apiKeys Samples.two_keys)))
  /\ map keyIndex
       (issued (generateResponse Samples.always_busy Samples.two_keys "hi" Samples.no_options))
     ≡ₚ seq 0 (length (apiKeys Samples.two_keys)).
Proof.
  apply (rotation_order Samples.always_busy Samples.two_keys "hi" Samples.no_options).
  - unfold valid. simpl. lia.
  - intros k _. reflexivity.
Defined.

(** C1, as the code has it.  [generateResponse] has no fatal class.
    After a request that was issued and failed with any error that is no
    cancellation, the key after it (wrapping round) is tried next as long
    as a key is left untried, and once the last key has failed so the
    call returns the fixed fallback text with the cursor back where it
    was: the error text of the failed request is not what the call
    returns.  The call stops right after a request only when that
    request succeeded or was cancelled. *)
Theorem any_failure_rotates (P : Provider) (m : GeminiManager) (prompt : string)
  (o : Options) (k : nat) (a : Attempt) :
  valid m ->
  issued (generateResponse P m prompt o) !! k = Some a ->
  (fails (P k (request a)) = true ->
     (S k < length (apiKeys m) ->
        issued (generateResponse P m prompt o) !! S k
        = Some (attempt_of m prompt o ((keyIndex a + 1) mod length (apiKeys m))))
     /\ (S k = length (apiKeys m) ->
         completion (generateResponse P m prompt o) = Returned FALLBACK
         /\ manager (generateResponse P m prompt o) = m))
  /\ (fails (P k (request a)) = false ->
      length (issued (generateResponse P m prompt o)) = S k).
Proof.
  destruct m as [keys mname c]. unfold valid, generateResponse. simpl.
  intros Hc Hk.
  assert (Hlt : k < length keys).
  { destruct (rotate_issued P prompt o keys (length keys) 0 (mkManager keys mname c) [])
      as (tail & Htail & Hlen).
    rewrite Htail in Hk. apply lookup_lt_Some in Hk. simpl in Hk. lia. }
  destruct (rotate_issued_inv P prompt o keys mname (length keys) 0 c [] k a Hc Hk)
    as [-> Hbefore].
  split; intros Hf.
  - assert (Hall : forall j, j < S k ->
              fails (P (0 + j)
                       (request (attempt_of (mkManager keys mname 0) prompt o
                                   ((c + j) mod length keys)))) = true).
    { intros j Hj. destruct (decide (j = k)) as [-> | Hne]; [exact Hf |].
      apply Hbefore. lia. }
    replace (rotate P prompt o (length keys) (length keys) 0 (mkManager keys mname c) [])
      with (rotate P prompt o (length keys) (S k + (length keys - S k)) 0
              (mkManager keys mname c) []) by (f_equal; lia).
    rewrite rotate_prefix by done. simpl keyIndex.
    rewrite Nat.Div0.add_mod_idemp_l.
    replace (c + k + 1) with (c + S k) by lia.
    split.
    + intros Hnext.
      destruct (length keys - S k) as [| rem] eqn:Hrem; [lia |].
      pose proof (rotate_first P prompt o keys mname rem (0 + S k)
                    ((c + S k) mod length keys)
                    ([] ++ map (fun j => attempt_of (mkManager keys mname 0) prompt o
                                           ((c + j) mod length keys)) (seq 0 (S k))))
        as Hfirst.
      rewrite length_app, length_map, length_seq in Hfirst. simpl length in Hfirst.
      exact (Hfirst ltac:(apply Nat.mod_upper_bound; lia)).
    + intros Hlast. rewrite Hlast, Nat.sub_diag. simpl.
      split; [done |]. f_equal.
      rewrite <- (Nat.mul_1_l (length keys)) at 1.
      rewrite Nat.Div0.mod_add. by apply Nat.mod_small.
  - replace (rotate P prompt o (length keys) (length keys) 0 (mkManager keys mname c) [])
      with (rotate P prompt o (length keys) (k + S (length keys - S k)) 0
              (mkManager keys mname c) []) by (f_equal; lia).
    rewrite rotate_prefix by done.
    destruct (rotate_stop_step P prompt o keys mname (length keys - S k) (0 + k)
                ((c + k) mod length keys)
                ([] ++ map (fun j => attempt_of (mkManager keys mname 0) prompt o
                                       ((c + j) mod length keys)) (seq 0 k)))
      as (r & ab & ->); [apply Nat.mod_upper_bound; lia | exact Hf |].
    simpl. rewrite length_app, length_map, length_seq. simpl. lia.
Qed.

Lemma any_failure_rotates_witness :
  (fails (Samples.fatal_then_hello 0
            (request (attempt_of Samples.two_keys "hi" Samples.no_options 0))) = true ->
     (1 < length (apiKeys Samples.two_keys) ->
        issued (generateResponse Samples.fatal_then_hello Samples.two_keys "hi"
                  Samples.no_options) !! 1
        = Some (attempt_of Samples.two_keys "hi" Samples.no_options
                  ((0 + 1) mod length (apiKeys Samples.two_keys))))
     /\ (1 = length (apiKeys Samples.two_keys) ->
         completion (generateResponse Samples.fatal_then_hello Samples.two_keys "hi"
                       Samples.no_options) = Returned FALLBACK
         /\ manager (generateResponse Samples.fatal_then_hello Samples.two_keys "hi"
                       Samples.no_options) = Samples.two_keys))
  /\ (fails (Samples.fatal_then_hello 0
               (request (attempt_of Samples.two_keys "hi" Samples.no_options 0))) = false ->
      length (issued (generateResponse Samples.fatal_then_hello Samples.two_keys "hi"
                        Samples.no_options)) = 1).
Proof.
  apply (any_failure_rotates Samples.fatal_then_hello Samples.two_keys "hi" Samples.no_options
           0 (attempt_of Samples.two_keys "hi" Samples.no_options 0)).
  - unfold valid. simpl. lia.
  - reflexivity.
Defined.

(** C1 as written fails.  With two keys, a first request answered by
    HTTP 400, which is fatal for the error classes of [Chat.jsx] and no
    cancellation, is followed by a second request with the next key, and
    the caller gets the text of that second request, not the error. *)
Lemma fatal_error_is_retried :
  let run := generateResponse Samples.fatal_then_hello Samples.two_keys "hi" Samples.no_options in
  Chat.retryable Samples.bad_request = false
  /\ cancelled (Samples.fatal_then_hello 0 (request (attempt_at Samples.two_keys "hi" Samples.no_options 0))) = false
  /\ settled (Samples.fatal_then_hello 0 (request (attempt_at Samples.two_keys "hi" Samples.no_options 0)))
     = Rejected Samples.bad_request
  /\ map keyIndex (issued run) = [0; 1]
  /\ completion run = Returned "hello"
  /\ currentKeyIndex (manager run) = 1.
Proof. vm_compute. repeat split. Qed.

(** *** The history handed to the provider *)

Lemma to_content_encoded (msg : Storage.Message) :
  to_content (Storage.encode_message msg) = Ok (expected_content msg).
Proof.
  destruct msg as [i r t ts [mu |] [|]]; unfold to_content, expected_content; simpl;
    unfold js_or; simpl; by destruct (String.eqb t "").
Qed.

Lemma convert_history_encoded (ms : list Storage.Message) :
  convert_history (JArr (map Storage.encode_message ms)) = Ok (map expected_content ms).
Proof.
  unfold convert_history. induction ms as [| msg ms IH]; [done |].
  cbn [map map_res]. by rewrite to_content_encoded, IH.
Qed.

(** C3, as the code has it.  For a conversation history of messages
    built by the application, [callGeminiAPI] hands the provider, in
    every request it issues, one entry per message, in the order of the
    messages: a message with the role ["ai"], the assistant role of the
    application, is sent with the role ["model"], a message with the
    role ["user"] with the role ["user"], and a message whose text is
    not empty is sent with that text. *)
Theorem history_roles (SP : SystemPrompts) (P : Provider) (m : GeminiManager)
  (message mode : string) (ms : list Storage.Message) (abortedAtEntry : bool) :
  exists sent,
    convert_history (JArr (map Storage.encode_message ms)) = Ok sent
    /\ Forall (fun a => history (request a) = sent)
         (snd (callGeminiAPI SP P m message mode (JArr (map Storage.encode_message ms))
                 abortedAtEntry))
    /\ length sent = length ms
    /\ (forall i msg c,
          ms !! i = Some msg ->
          sent !! i = Some c ->
          (Storage.m_role msg = "ai" -> role c = "model")
          /\ (Storage.m_role msg = "user" -> role c = "user")
          /\ (Storage.m_text msg <> "" -> text c = Some (JStr (Storage.m_text msg)))).
Proof.
  exists (map expected_content ms).
  split; [apply convert_history_encoded |]. split; [| split].
  - unfold callGeminiAPI. rewrite convert_history_encoded.
    set (o := mkOptions _ _ _).
    assert (Hall : Forall (fun a => history (request a) = map expected_content ms)
                     (issued (generateResponse P m message o))).
    { unfold generateResponse.
      eapply Forall_impl; [apply (rotate_requests P message o); constructor |].
      by intros a [Hh _]. }
    destruct (completion _) as [text | error];
      [destruct (String.eqb text FALLBACK) |]; exact Hall.
  - apply length_map.
  - intros i msg c Hmsg Hc.
    rewrite StorageSpec.lookup_map, Hmsg in Hc. injection Hc as <-.
    unfold expected_content. simpl. repeat split.
    + intros ->. reflexivity.
    + intros ->. reflexivity.
    + intros Htext. apply String.eqb_neq in Htext. by rewrite Htext.
Qed.

(** C3 as written fails on the text: an assistant message whose text is
    empty, as [MainChat] stores it after an empty response, is sent with
    the role ["model"] and without its text, [msg.text || msg.content]
    being [undefined]. *)
Lemma empty_text_is_not_sent :
  Storage.m_role Samples.silent_reply = "ai"
  /\ Storage.m_text Samples.silent_reply = ""
  /\ convert_history (JArr (map Storage.encode_message [Samples.hello; Samples.silent_reply]))
     = Ok [mkContent "user" (Some (JStr "hello")); mkContent "model" None]
  /\ text (mkContent "model" None) <> Some (JStr (Storage.m_text Samples.silent_reply)).
Proof. repeat split. discriminate. Qed.

(** *** Cancellation *)


(** The first request of a call is made with the key at the cursor. *)
Lemma rotate_first_key (P : Provider) (prompt : string) (o : Options) (keys : list string)
  (rem a : nat) (m : GeminiManager) (log : list Attempt) :
  exists x,
    issued (rotate P prompt o (length keys) (S rem) a m log) !! length log = Some x
    /\ keyIndex x = currentKeyIndex m.
Proof.
  simpl. set (a0 := mkAttempt _ _).
  assert (Hhere : (log ++ [a0]) !! length log = Some a0).
  { by rewrite lookup_app_r, Nat.sub_diag by lia. }
  destruct (try_body _) as [text | error]; [exists a0; done |].
  destruct (_ || _); [exists a0; done |].
  destruct (apiKeys m !! currentKeyIndex m); [| exists a0; done].
  destruct (rotate_issued P prompt o keys rem (S a)
              (mkManager (apiKeys m) (modelName m)
                 ((currentKeyIndex m + 1) mod length keys))
              (log ++ [a0])) as (tail & -> & _).
  exists a0. split; [| done].
  rewrite <- app_assoc. by rewrite lookup_app_r, Nat.sub_diag by lia.
Qed.





(** [generateResponse] keeps the key list and the class invariant. *)
Lemma rotate_valid (P : Provider) (prompt : string) (o : Options) (rem : nat) :
  forall (a : nat) (m : GeminiManager) (log : list Attempt),
    valid m ->
    valid (manager (rotate P prompt o (length (apiKeys m)) rem a m log))
    /\ apiKeys (manager (rotate P prompt o (length (apiKeys m)) rem a m log)) = apiKeys m.
Proof.
  induction rem as [| rem IH]; intros a m log Hv; simpl; [done |].
  destruct (try_body _) as [text | error]; [done |].
  destruct (_ || _); [done |].
  destruct (apiKeys m !! currentKeyIndex m); [| done].
  apply (IH (S a) (mkManager (apiKeys m) (modelName m)
                     ((currentKeyIndex m + 1) mod length (apiKeys m)))).
  unfold valid in *. simpl. apply Nat.mod_upper_bound. lia.
Qed.

Lemma generateResponse_valid (P : Provider) (m : GeminiManager) (prompt : string)
  (o : Options) :
  valid m ->
  valid (manager (generateResponse P m prompt o))
  /\ apiKeys (manager (generateResponse P m prompt o)) = apiKeys m.
Proof. apply rotate_valid. Qed.

(** The scenario of the specification with every key answering 503:
    failure with the fixed text, cursor unchanged. *)
Example all_busy_scenario :
  callGeminiAPI Samples.prompts Samples.always_busy Samples.two_keys "hi" "Student"
    (JArr []) false
  = (mkResult false FALLBACK None false, Samples.two_keys,
     map (attempt_at Samples.two_keys "hi"
            (mkOptions [] (Some (JStr (Student Samples.prompts))) (Some MODELS_DEFAULT)))
       [0; 1]).
Proof. reflexivity. Qed.

(** A cancellation that comes after a failed request finds the cursor
    one key further than at entry: on the key of the cancelled
    request. *)
Example cancel_after_failure :
  callGeminiAPI Samples.prompts Samples.busy_then_cancelled Samples.two_keys "hi" "Student"
    (JArr []) false
  = (mkResult false "Request cancelled" None true,
     mkManager (apiKeys Samples.two_keys) (modelName Samples.two_keys) 1,
     map (attempt_at Samples.two_keys "hi"
            (mkOptions [] (Some (JStr (Student Samples.prompts))) (Some MODELS_DEFAULT)))
       [0; 1]).
Proof. reflexivity. Qed.

End GeminiSpec.

(* ===================================================================== *)
(** ** Properties of the orchestrator                                     *)
(* ===================================================================== *)

Module MainChatSpec.
Import JS Storage Gemini MainChat.
Local Open Scope list_scope.

(** [isDailyLimitReached] never throws, and it leaves the store as it is
    when it answers [true]. *)
Lemma isDailyLimitReached_total (E : Engine) (ls : LocalStorage) :
  exists b ls', isDailyLimitReached E ls = (Ok b, ls') /\ (b = true -> ls' = ls).
Proof.
  unfold isDailyLimitReached, bind, lift, ret.
  destruct (StorageSpec.getDailyUsage_cases E ls)
    as [H | [(_ & _ & H) | (fs & _ & _ & _ & H)]]; rewrite H; simpl; eauto.
  eexists _, _. split; [reflexivity | done].
Qed.

(** [incrementDailyUsage] never throws. *)
Lemma incrementDailyUsage_total (E : Engine) (ls : LocalStorage) :
  exists u ls', incrementDailyUsage E ls = (Ok u, ls').
Proof.
  unfold incrementDailyUsage, try_catch, bind, lift, ret.
  destruct (StorageSpec.getDailyUsage_object E ls) as (fs & ls1 & ->). simpl.
  unfold setItem. destruct (available ls1), (writable ls1); eauto.
Qed.

(** On a working store holding today's record, the increment is
    written. *)
Lemma incrementDailyUsage_stored (E : Engine) (ls : LocalStorage) (c : Z) :
  available ls = true ->
  writable ls = true ->
  items ls !! DAILY_USAGE = Some (Json (usageRecord c (today E))) ->
  incrementDailyUsage E ls
  = (Ok (usageRecord (c + 1) (today E)),
     written DAILY_USAGE (Json (usageRecord (c + 1) (today E))) ls).
Proof.
  intros Hav Hwr Hit.
  unfold incrementDailyUsage, try_catch, bind, lift, ret.
  rewrite (StorageSpec.getDailyUsage_current E ls c Hav Hit). simpl.
  unfold setItem. by rewrite Hav, Hwr.
Qed.

(** C5, as the code has it.  A message that is empty once trimmed, or
    that is sent while a reply is awaited, is dropped without any change
    of state and without any notice.  A message sent when the daily
    limit is reached changes nothing but the notification, set to the
    limit notice, and the timer that will clear it: no message is
    appended, the store and the usage are untouched, no request is
    issued. *)
Theorem rejected_send (E : Engine) (SP : SystemPrompts) (P : Provider)
  (activeMode : string) (currentChatId : Value) (text : string) (w : World) :
  (trim text = "" \/ isTyping w = true ->
   handleSendMessage E SP P activeMode currentChatId text w = (Ok tt, w))
  /\ (trim text <> "" -> isTyping w = false ->
      fst (isDailyLimitReached E (storage w)) = Ok true ->
      handleSendMessage E SP P activeMode currentChatId text w
      = (Ok tt,
         mkWorld (messages w) (inputValue w) (isTyping w)
           (Some "Daily limit reached (25 messages). Please come back tomorrow!")
           (dailyUsage w) (abortController w) (abortCalls w) (timers w ++ [5000%Z])
           (storage w) (geminiManager w) (network w))).
Proof.
  unfold handleSendMessage. split.
  - intros [-> | ->]; [done | by rewrite orb_true_r].
  - intros Htext Htyping Hlimit.
    apply String.eqb_neq in Htext. rewrite Htext, Htyping. simpl.
    destruct (isDailyLimitReached_total E (storage w)) as (b & ls' & Hb & Hsame).
    rewrite Hb in Hlimit |- *. simpl in Hlimit. injection Hlimit as ->.
    by rewrite Hsame.
Qed.

(** C5 as written fails: neither the empty message nor the message sent
    while a reply is awaited surfaces a notice; the handler returns with
    the notification as it was, absent. *)
Lemma silent_rejections :
  trim "   " = ""
  /\ handleSendMessage Samples.engine Samples.prompts Samples.always_busy "Coder"
       Samples.second_chat_id "   " Samples.idle_world = (Ok tt, Samples.idle_world)
  /\ notification Samples.idle_world = None
  /\ isTyping Samples.busy_world = true
  /\ handleSendMessage Samples.engine Samples.prompts Samples.always_busy "Coder"
       Samples.second_chat_id "hello" Samples.busy_world = (Ok tt, Samples.busy_world)
  /\ notification Samples.busy_world = None.
Proof. repeat split. Qed.




Lemma rejected_send_witness :
  trim "hello" <> ""
  /\ isTyping Samples.limit_world = false
  /\ fst (isDailyLimitReached Samples.engine (storage Samples.limit_world)) = Ok true
  /\ handleSendMessage Samples.engine Samples.prompts Samples.always_busy "Coder"
       Samples.second_chat_id "hello" Samples.limit_world
     = (Ok tt,
        mkWorld (messages Samples.limit_world) (inputValue Samples.limit_world)
          (isTyping Samples.limit_world)
          (Some "Daily limit reached (25 messages). Please come back tomorrow!")
          (dailyUsage Samples.limit_world) (abortController Samples.limit_world)
          (abortCalls Samples.limit_world) (timers Samples.limit_world ++ [5000%Z])
          (storage Samples.limit_world) (geminiManager Samples.limit_world)
          (network Samples.limit_world)).
Proof.
  assert (Htext : trim "hello" <> "") by discriminate.
  assert (Hlimit : fst (isDailyLimitReached Samples.engine (storage Samples.limit_world))
                   = Ok true) by (vm_compute; reflexivity).
  split; [exact Htext |]. split; [reflexivity |]. split; [exact Hlimit |].
  exact (proj2 (rejected_send Samples.engine Samples.prompts Samples.always_busy "Coder"
                  Samples.second_chat_id "hello" Samples.limit_world)
           Htext eq_refl Hlimit).
Defined.

End MainChatSpec.

(* ===================================================================== *)
(** ** Further properties of the storage utilities                       *)
(* ===================================================================== *)

Module StorageExtra.
Import JS Storage.
Local Open Scope js_scope.

(** *** The JavaScript functions against their typed reading *)

Lemma has_id_encoded (id : Z) (c : Chat) :
  has_id (JNum id) (encode_chat c) = Ok (c_id c =? id)%Z.
Proof. reflexivity. Qed.

Lemma find_in_chats (id : Z) (chats : list Chat) :
  find_in (has_id (JNum id)) (map encode_chat chats)
  = Ok (encode_chat <$> lookup_chat id chats).
Proof.
  induction chats as [| c chats IH]; [done |].
  cbn [map find_in]. rewrite has_id_encoded.
  unfold lookup_chat. cbn [List.find].
  destruct (c_id c =? id)%Z; [done | exact IH].
Qed.

Lemma findIndex_position (id : Z) (chats : list Chat) (k : nat) :
  findIndex_from (has_id (JNum id)) (map encode_chat chats) k
  = Ok ((fun i => k + i) <$> position id chats).
Proof.
  revert k. induction chats as [| c chats IH]; intros k; [done |].
  cbn [map findIndex_from position]. rewrite has_id_encoded.
  destruct (c_id c =? id)%Z.
  - simpl. by rewrite Nat.add_0_r.
  - rewrite IH. destruct (position id chats) as [i |]; simpl; [| done].
    do 2 f_equal. lia.
Qed.

Lemma position_update (E : Engine) (id : Z) (ms : list Message) (chats : list Chat) (i : nat) :
  position id chats = Some i ->
  exists c,
    chats !! i = Some c /\ lookup_chat id chats = Some c
    /\ <[i := encode_chat (set_messages E c ms)]> (map encode_chat chats)
       = map encode_chat (update_first E id ms chats).
Proof.
  revert i. induction chats as [| c chats IH]; intros i; [done |].
  unfold lookup_chat. cbn [position update_first List.find].
  destruct (c_id c =? id)%Z.
  - intros [= <-]. exists c. done.
  - destruct (position id chats) as [j |]; [| done].
    intros [= <-]. destruct (IH j eq_refl) as (c0 & Hl & Hf & Hins).
    exists c0. repeat split; try done. simpl. by rewrite Hins.
Qed.

Lemma position_lookup_none (id : Z) (chats : list Chat) :
  position id chats = None <-> lookup_chat id chats = None.
Proof.
  unfold lookup_chat. induction chats as [| c chats IH]; [done |].
  cbn [position List.find]. destruct (c_id c =? id)%Z; [done |].
  destruct (position id chats); [| tauto].
  split; [done |]. intros H. apply IH in H. done.
Qed.

Lemma find_user_typed (ms : list Message) :
  find_in is_user_message (map encode_message ms) = Ok (encode_message <$> first_user ms).
Proof.
  unfold first_user. induction ms as [| m ms IH]; [done |].
  cbn [map find_in List.find].
  change (is_user_message (encode_message m))
    with (Ok (String.eqb (m_role m) "user") : Res bool).
  destruct (String.eqb (m_role m) "user"); [done | exact IH].
Qed.

(** The title update on an encoded chat is the typed title update. *)
Lemma derive_title_typed (E : Engine) (c : Chat) (ms : list Message) :
  derive_title E (JArr (map encode_message ms))
    (with_messages c (JArr (map encode_message ms)))
  = Ok (chat_fields (set_messages E c ms)).
Proof.
  unfold derive_title, with_messages, chat_fields, set_messages, derived_title.
  simpl assign. simpl assoc. unfold needs_title. simpl truthy.
  cbn [c_id c_title c_mode c_messages c_createdAt].
  destruct (String.eqb (c_title c) "") eqn:Hempty; simpl negb; cbv iota; simpl orb.
  2: destruct (startsWith (c_title c) "New Chat"); [| done].
  all: unfold array_find; rewrite find_user_typed;
    destruct (first_user ms) as [m |]; simpl fmap; [| done];
    destruct m as [i r t ts [mu |] [|]]; simpl truthy; cbv iota; simpl get_prop; cbv iota;
    rewrite StorageSpec.title_of_text; cbn [m_text]; simpl truthy;
    by destruct (String.eqb (slice0 50 t) "").
Qed.

Lemma holds_chats_history (ls : LocalStorage) (chats : list Chat) :
  holds_chats ls chats -> getChatHistory ls = (Ok (JArr (map encode_chat chats)), ls).
Proof. intros (Hav & _ & Hit). by apply StorageSpec.getChatHistory_stored. Qed.

Lemma holds_chats_written (ls : LocalStorage) (chats chats' : list Chat) :
  holds_chats ls chats ->
  holds_chats (written CHAT_HISTORY (Json (JArr (map encode_chat chats'))) ls) chats'.
Proof.
  intros (Hav & Hwr & _). repeat split; try done. simpl. apply lookup_insert_eq.
Qed.

Lemma updateChatMessages_typed (E : Engine) (ls : LocalStorage) (chats : list Chat)
  (id : Z) (ms : list Message) :
  holds_chats ls chats ->
  updateChatMessages E (JNum id) (JArr (map encode_message ms)) ls
  = (Ok tt,
     match position id chats with
     | Some _ => written CHAT_HISTORY (Json (JArr (map encode_chat (update_first E id ms chats)))) ls
     | None => ls
     end).
Proof.
  intros Hls. pose proof Hls as (Hav & Hwr & Hit).
  unfold updateChatMessages, bind. rewrite (holds_chats_history ls chats Hls).
  unfold lift, array_findIndex. rewrite findIndex_position.
  destruct (position id chats) as [i |] eqn:Hpos; [| done].
  destruct (position_update E id ms chats i Hpos) as (c & Hl & _ & Hins).
  change ((fun i0 : nat => 0 + i0) <$> Some i) with (Some i). cbv beta iota.
  rewrite StorageSpec.lookup_map, Hl.
  change (encode_chat <$> Some c) with (Some (JObj (chat_fields c))). cbv beta iota.
  change (assign "messages" (JArr (map encode_message ms)) (chat_fields c))
    with (with_messages c (JArr (map encode_message ms))).
  rewrite derive_title_typed.
  change (JObj (chat_fields (set_messages E c ms))) with (encode_chat (set_messages E c ms)).
  rewrite Hins, StorageSpec.saveChatHistory_result, Hav, Hwr. reflexivity.
Qed.

Lemma getChatById_typed (ls : LocalStorage) (chats : list Chat) (id : Z) :
  holds_chats ls chats ->
  getChatById (JNum id) ls = (Ok (encode_chat <$> lookup_chat id chats), ls).
Proof.
  intros Hls. unfold getChatById, bind. rewrite (holds_chats_history ls chats Hls).
  unfold lift, array_find. by rewrite find_in_chats.
Qed.

Lemma filter_in_chats (id : Z) (chats : list Chat) :
  filter_in (has_other_id (JNum id)) (map encode_chat chats)
  = Ok (map encode_chat (without id chats)).
Proof.
  unfold without. induction chats as [| c chats IH]; [done |].
  cbn [map filter_in List.filter]. unfold has_other_id at 1. rewrite has_id_encoded, IH.
  by destruct (c_id c =? id)%Z.
Qed.

Lemma deleteChat_typed (ls : LocalStorage) (chats : list Chat) (id : Z) :
  holds_chats ls chats ->
  deleteChat (JNum id) ls
  = (Ok (JArr (map encode_chat (without id chats))),
     written CHAT_HISTORY (Json (JArr (map encode_chat (without id chats)))) ls).
Proof.
  intros Hls. pose proof Hls as (Hav & Hwr & Hit).
  unfold deleteChat, bind. rewrite (holds_chats_history ls chats Hls).
  unfold lift. rewrite filter_in_chats.
  rewrite StorageSpec.saveChatHistory_result, Hav, Hwr. reflexivity.
Qed.

Lemma lookup_update_first_ne (E : Engine) (id id' : Z) (ms : list Message) (chats : list Chat) :
  id' <> id ->
  lookup_chat id' (update_first E id ms chats) = lookup_chat id' chats.
Proof.
  intros Hne. unfold lookup_chat. induction chats as [| c chats IH]; [done |].
  cbn [update_first]. destruct (c_id c =? id)%Z eqn:Hc.
  - apply Z.eqb_eq in Hc. cbn [List.find set_messages c_id].
    assert (H : (c_id c =? id')%Z = false) by (apply Z.eqb_neq; congruence).
    by rewrite H.
  - cbn [List.find]. by rewrite IH.
Qed.

Lemma lookup_update_first_eq (E : Engine) (id : Z) (ms : list Message) (chats : list Chat)
  (c : Chat) :
  lookup_chat id chats = Some c ->
  lookup_chat id (update_first E id ms chats) = Some (set_messages E c ms).
Proof.
  unfold lookup_chat. induction chats as [| c0 chats IH]; [done |].
  cbn [update_first List.find]. destruct (c_id c0 =? id)%Z eqn:Hc.
  - intros [= <-]. cbn [List.find set_messages c_id]. by rewrite Hc.
  - intros H. cbn [List.find]. rewrite Hc. by apply IH.
Qed.

Lemma lookup_without (id id' : Z) (chats : list Chat) :
  lookup_chat id' (without id chats)
  = if (id' =? id)%Z then None else lookup_chat id' chats.
Proof.
  unfold lookup_chat, without. induction chats as [| c chats IH]; simpl.
  - by destruct (id' =? id)%Z.
  - destruct (c_id c =? id)%Z eqn:Hc; simpl.
    + rewrite IH. destruct (id' =? id)%Z eqn:Hi; [done |].
      apply Z.eqb_eq in Hc. apply Z.eqb_neq in Hi.
      assert (H : (c_id c =? id')%Z = false) by (apply Z.eqb_neq; congruence).
      by rewrite H.
    + destruct (c_id c =? id')%Z eqn:Hc'.
      * apply Z.eqb_eq in Hc'. apply Z.eqb_neq in Hc.
        assert (H : (id' =? id)%Z = false) by (apply Z.eqb_neq; congruence).
        by rewrite H.
      * exact IH.
Qed.

Lemma sample_holds_chats :
  holds_chats Samples.chat_store [Samples.first_chat; Samples.second_chat].
Proof. repeat split. Qed.

(** *** Creating, deleting and updating chats *)

(** X1.  On a working store whose history is a list, [createNewChat]
    puts the new chat in front of the others and records its id as the
    current chat: reading the chat back by its id gives the chat
    [createNewChat] returned, with no messages and the placeholder
    title, and [getCurrentChatId] gives the id as a string. *)
Theorem createNewChat_then_read (E : Engine) (ls : LocalStorage) (l : list JSON)
  (mode : string) :
  available ls = true ->
  writable ls = true ->
  getChatHistory ls = (Ok (JArr l), ls) ->
  exists ls',
    createNewChat E mode ls = (Ok (newChat E mode), ls')
    /\ getChatHistory ls' = (Ok (JArr (newChat E mode :: l)), ls')
    /\ getChatById (JNum (now E 0)) ls' = (Ok (Some (newChat E mode)), ls')
    /\ getCurrentChatId ls' = (Ok (Some (Raw (pretty (now E 0)))), ls')
    /\ get_prop (Some (newChat E mode)) "messages" = Ok (Some (JArr []))
    /\ get_prop (Some (newChat E mode)) "title" = Ok (Some (JStr ("New Chat - " ++ mode))).
Proof.
  intros Hav Hwr Hhist.
  unfold createNewChat, bind. rewrite Hhist.
  rewrite StorageSpec.saveChatHistory_result, Hav, Hwr. simpl andb. cbv iota.
  rewrite StorageSpec.saveCurrentChatId_result. simpl available. simpl writable.
  rewrite Hav, Hwr. simpl andb. cbv iota.
  eexists. split; [reflexivity |].
  assert (Hread : getChatHistory
                    (written CURRENT_CHAT_ID (Raw (to_String E (Some (JNum (now E 0)))))
                       (written CHAT_HISTORY (Json (JArr (newChat E mode :: l))) ls))
                  = (Ok (JArr (newChat E mode :: l)),
                     written CURRENT_CHAT_ID (Raw (to_String E (Some (JNum (now E 0)))))
                       (written CHAT_HISTORY (Json (JArr (newChat E mode :: l))) ls))).
  { apply StorageSpec.getChatHistory_stored; [done |]. simpl.
    rewrite lookup_insert_ne by done. apply lookup_insert_eq. }
  split; [exact Hread |]. split.
  - unfold getChatById, bind. rewrite Hread. unfold lift. simpl.
    by rewrite Z.eqb_refl.
  - split; [| done].
    unfold getCurrentChatId, try_catch, getItem. simpl. rewrite Hav.
    by rewrite lookup_insert_eq.
Qed.

Lemma createNewChat_then_read_witness :
  exists ls',
    createNewChat Samples.engine "Coder" Samples.empty_store
      = (Ok (newChat Samples.engine "Coder"), ls')
    /\ getChatHistory ls' = (Ok (JArr (newChat Samples.engine "Coder" :: [])), ls')
    /\ getChatById (JNum (now Samples.engine 0)) ls'
       = (Ok (Some (newChat Samples.engine "Coder")), ls')
    /\ getCurrentChatId ls' = (Ok (Some (Raw (pretty (now Samples.engine 0)))), ls')
    /\ get_prop (Some (newChat Samples.engine "Coder")) "messages" = Ok (Some (JArr []))
    /\ get_prop (Some (newChat Samples.engine "Coder")) "title"
       = Ok (Some (JStr ("New Chat - " ++ "Coder"))).
Proof.
  apply (createNewChat_then_read Samples.engine Samples.empty_store [] "Coder");
    reflexivity.
Defined.

(** X2.  On a working store holding chats built by the application,
    [deleteChat] returns and stores the chats with another id, in
    their order; afterwards the deleted id is not found any more and
    every other id reads as before. *)
Theorem deleteChat_then_read (ls : LocalStorage) (chats : list Chat) (id : Z) :
  holds_chats ls chats ->
  exists ls',
    deleteChat (JNum id) ls = (Ok (JArr (map encode_chat (without id chats))), ls')
    /\ getChatHistory ls' = (Ok (JArr (map encode_chat (without id chats))), ls')
    /\ getChatById (JNum id) ls' = (Ok None, ls')
    /\ (forall id', id' <> id ->
          fst (getChatById (JNum id') ls') = fst (getChatById (JNum id') ls)).
Proof.
  intros Hls. rewrite (deleteChat_typed ls chats id Hls).
  pose proof (holds_chats_written ls chats (without id chats) Hls) as Hls'.
  eexists. split; [reflexivity |].
  split; [by apply holds_chats_history |]. split.
  - rewrite (getChatById_typed _ _ id Hls'), lookup_without. by rewrite Z.eqb_refl.
  - intros id' Hne.
    rewrite (getChatById_typed _ _ id' Hls'), (getChatById_typed _ _ id' Hls).
    rewrite lookup_without. apply Z.eqb_neq in Hne. by rewrite Hne.
Qed.

Lemma deleteChat_then_read_witness :
  exists ls',
    deleteChat (JNum (c_id Samples.first_chat)) Samples.chat_store
      = (Ok (JArr (map encode_chat
                     (without (c_id Samples.first_chat)
                        [Samples.first_chat; Samples.second_chat]))), ls')
    /\ getChatHistory ls'
       = (Ok (JArr (map encode_chat
                      (without (c_id Samples.first_chat)
                         [Samples.first_chat; Samples.second_chat]))), ls')
    /\ getChatById (JNum (c_id Samples.first_chat)) ls' = (Ok None, ls')
    /\ (forall id', id' <> c_id Samples.first_chat ->
          fst (getChatById (JNum id') ls')
          = fst (getChatById (JNum id') Samples.chat_store)).
Proof.
  apply (deleteChat_then_read Samples.chat_store
           [Samples.first_chat; Samples.second_chat] (c_id Samples.first_chat)).
  exact sample_holds_chats.
Defined.

(** X3.  [updateChatMessages] with an id that no stored chat has writes
    nothing: the store is left exactly as it was. *)
Theorem update_unknown_id (E : Engine) (ls : LocalStorage) (chats : list Chat) (id : Z)
  (ms : list Message) :
  holds_chats ls chats ->
  lookup_chat id chats = None ->
  updateChatMessages E (JNum id) (JArr (map encode_message ms)) ls = (Ok tt, ls).
Proof.
  intros Hls Hnone. rewrite (updateChatMessages_typed E ls chats id ms Hls).
  apply (proj2 (position_lookup_none id chats)) in Hnone. by rewrite Hnone.
Qed.

Lemma update_unknown_id_witness :
  updateChatMessages Samples.engine (JNum 42) (JArr (map encode_message [Samples.reply]))
    Samples.chat_store = (Ok tt, Samples.chat_store).
Proof.
  apply (update_unknown_id Samples.engine Samples.chat_store
           [Samples.first_chat; Samples.second_chat] 42 [Samples.reply]).
  - exact sample_holds_chats.
  - reflexivity.
Defined.

(** X4.  [updateChatMessages] for one id leaves every chat with another
    id as it was: it reads back unchanged. *)
Theorem update_keeps_other_chats (E : Engine) (ls : LocalStorage) (chats : list Chat)
  (id id' : Z) (ms : list Message) :
  holds_chats ls chats ->
  id' <> id ->
  fst (getChatById (JNum id')
         (snd (updateChatMessages E (JNum id) (JArr (map encode_message ms)) ls)))
  = fst (getChatById (JNum id') ls).
Proof.
  intros Hls Hne. rewrite (updateChatMessages_typed E ls chats id ms Hls). simpl snd.
  destruct (position id chats); [| done].
  rewrite (getChatById_typed _ (update_first E id ms chats) id'
             (holds_chats_written ls chats _ Hls)),
    (getChatById_typed ls chats id' Hls).
  simpl. by rewrite lookup_update_first_ne.
Qed.

Lemma update_keeps_other_chats_witness :
  fst (getChatById (JNum (c_id Samples.first_chat))
         (snd (updateChatMessages Samples.engine (JNum (c_id Samples.second_chat))
                 (JArr (map encode_message [Samples.long_question])) Samples.chat_store)))
  = fst (getChatById (JNum (c_id Samples.first_chat)) Samples.chat_store).
Proof.
  apply (update_keeps_other_chats Samples.engine Samples.chat_store
           [Samples.first_chat; Samples.second_chat]
           (c_id Samples.second_chat) (c_id Samples.first_chat) [Samples.long_question]).
  - exact sample_holds_chats.
  - discriminate.
Defined.

Lemma slice0_nonempty (t : string) : t <> "" -> slice0 50 t <> "".
Proof. destruct t as [| a t]; [done |]. intros _. unfold slice0. simpl. done. Qed.

(** X5.  The title [updateChatMessages] leaves on the first chat with
    the given id: a title that is neither empty nor a ["New Chat"]
    placeholder is kept; a placeholder or empty title is replaced by the
    first fifty characters of the first user message, when there is one
    with a text, and kept when the messages hold no user message.  The
    id, the mode and the creation time of the chat stay. *)
Theorem title_derivation (E : Engine) (ls : LocalStorage) (chats : list Chat) (id : Z)
  (c : Chat) (ms : list Message) :
  holds_chats ls chats ->
  lookup_chat id chats = Some c ->
  exists ls' title,
    updateChatMessages E (JNum id) (JArr (map encode_message ms)) ls = (Ok tt, ls')
    /\ getChatById (JNum id) ls'
       = (Ok (Some (encode_chat (mkChat (c_id c) title (c_mode c) ms (c_createdAt c)))), ls')
    /\ (c_title c <> "" -> startsWith (c_title c) "New Chat" = false -> title = c_title c)
    /\ (first_user ms = None -> title = c_title c)
    /\ (forall m, c_title c = "" \/ startsWith (c_title c) "New Chat" = true ->
          first_user ms = Some m -> m_text m <> "" -> title = slice0 50 (m_text m)).
Proof.
  intros Hls Hc. rewrite (updateChatMessages_typed E ls chats id ms Hls).
  destruct (position id chats) as [i |] eqn:Hpos.
  2: { apply position_lookup_none in Hpos. congruence. }
  exists (written CHAT_HISTORY (Json (JArr (map encode_chat (update_first E id ms chats)))) ls),
    (derived_title E c ms).
  split; [done |]. split.
  - rewrite (getChatById_typed _ (update_first E id ms chats) id
               (holds_chats_written ls chats _ Hls)).
    by rewrite (lookup_update_first_eq E id ms chats c Hc).
  - unfold derived_title. repeat split.
    + intros Hne Hstart. apply String.eqb_neq in Hne. by rewrite Hne, Hstart.
    + intros ->. by destruct (_ || _).
    + intros m Hplace -> Htext.
      assert (Hor : String.eqb (c_title c) "" || startsWith (c_title c) "New Chat" = true).
      { destruct Hplace as [-> | ->]; [done | apply orb_true_r]. }
      rewrite Hor. apply slice0_nonempty, String.eqb_neq in Htext. by rewrite Htext.
Qed.

Lemma title_derivation_witness :
  exists ls' title,
    updateChatMessages Samples.engine (JNum (c_id Samples.second_chat))
      (JArr (map encode_message [Samples.long_question])) Samples.chat_store = (Ok tt, ls')
    /\ getChatById (JNum (c_id Samples.second_chat)) ls'
       = (Ok (Some (encode_chat (mkChat (c_id Samples.second_chat) title
                                   (c_mode Samples.second_chat) [Samples.long_question]
                                   (c_createdAt Samples.second_chat)))), ls')
    /\ (c_title Samples.second_chat <> "" ->
        startsWith (c_title Samples.second_chat) "New Chat" = false ->
        title = c_title Samples.second_chat)
    /\ (first_user [Samples.long_question] = None -> title = c_title Samples.second_chat)
    /\ (forall m,
          c_title Samples.second_chat = ""
          \/ startsWith (c_title Samples.second_chat) "New Chat" = true ->
          first_user [Samples.long_question] = Some m -> m_text m <> "" ->
          title = slice0 50 (m_text m)).
Proof.
  apply (title_derivation Samples.engine Samples.chat_store
           [Samples.first_chat; Samples.second_chat] (c_id Samples.second_chat)
           Samples.second_chat [Samples.long_question]).
  - exact sample_holds_chats.
  - reflexivity.
Defined.

(** The title the sample question gives: its first fifty characters. *)
Example long_question_title :
  derived_title Samples.engine Samples.second_chat [Samples.long_question]
  = "Please explain how binary search works on a sorted".
Proof. reflexivity. Qed.

(** *** The usage counter *)

(** Reading the usage twice is reading it once. *)
Lemma getDailyUsage_again (E : Engine) (ls : LocalStorage) :
  getDailyUsage E (snd (getDailyUsage E ls))
  = (fst (getDailyUsage E ls), snd (getDailyUsage E ls)).
Proof.
  destruct (StorageSpec.getDailyUsage_cases E ls)
    as [H | [(Hav & Hwr & H) | (fs & _ & _ & _ & H)]]; rewrite H; simpl; try done.
  apply StorageSpec.getDailyUsage_current; [done |]. simpl. apply lookup_insert_eq.
Qed.

(** One increment on a working store: the count read goes up by one and
    is written. *)
Lemma increment_step (E : Engine) (ls : LocalStorage) (c : Z) :
  available ls = true ->
  writable ls = true ->
  fst (getDailyUsage E ls) = Ok (usageRecord c (today E)) ->
  exists ls',
    incrementDailyUsage E ls = (Ok (usageRecord (c + 1) (today E)), ls')
    /\ available ls' = true /\ writable ls' = true
    /\ items ls' !! DAILY_USAGE = Some (Json (usageRecord (c + 1) (today E))).
Proof.
  intros Hav Hwr Hread.
  unfold incrementDailyUsage, try_catch, bind, lift, ret.
  destruct (getDailyUsage E ls) as [r ls1] eqn:Hg. simpl in Hread. subst r.
  assert (Hav1 : available ls1 = true /\ writable ls1 = true).
  { destruct (StorageSpec.getDailyUsage_cases E ls)
      as [H | [(_ & _ & H) | (fs & _ & _ & _ & H)]]; rewrite H in Hg;
      injection Hg as _ <-; done. }
  destruct Hav1 as [Hav1 Hwr1]. simpl. unfold setItem. rewrite Hav1, Hwr1.
  eexists. split; [reflexivity |]. repeat split; try done. simpl. apply lookup_insert_eq.
Qed.

(** X6.  On a working store, [n] increments in a row, [n >= 1], starting
    from a usage that reads [{count: c, date: today}] (count 0 when
    nothing is stored yet or the stored record is of another day), leave
    the record [{count: c + n, date: today}] in the store, and the daily
    limit then reads as reached exactly when [c + n >= 25]. *)
Theorem increments_count (E : Engine) (ls : LocalStorage) (c : Z) (n : nat) :
  available ls = true ->
  writable ls = true ->
  fst (getDailyUsage E ls) = Ok (usageRecord c (today E)) ->
  1 <= n ->
  items (increments E n ls) !! DAILY_USAGE
    = Some (Json (usageRecord (c + Z.of_nat n) (today E)))
  /\ fst (isDailyLimitReached E (increments E n ls))
     = Ok (MAX_DAILY_MESSAGES <=? c + Z.of_nat n)%Z
  /\ fst (getRemainingMessages E (increments E n ls))
     = Ok (Int (Z.max 0 (MAX_DAILY_MESSAGES - (c + Z.of_nat n)))).
Proof.
  intros Hav Hwr Hread Hn.
  assert (Hstore : available (increments E n ls) = true
                   /\ writable (increments E n ls) = true
                   /\ items (increments E n ls) !! DAILY_USAGE
                      = Some (Json (usageRecord (c + Z.of_nat n) (today E)))).
  { induction n as [| n IH]; [lia |].
    destruct n as [| n].
    - simpl increments. destruct (increment_step E ls c Hav Hwr Hread)
        as (ls' & -> & Hav' & Hwr' & Hit'). done.
    - destruct (IH ltac:(lia)) as (Hav' & Hwr' & Hit').
      change (increments E (S (S n)) ls)
        with (snd (incrementDailyUsage E (increments E (S n) ls))).
      destruct (increment_step E (increments E (S n) ls) (c + Z.of_nat (S n)) Hav' Hwr')
        as (ls' & -> & Hav'' & Hwr'' & Hit'').
      + by rewrite (StorageSpec.getDailyUsage_current E _ _ Hav' Hit').
      + simpl snd. repeat split; try done. rewrite Hit''. do 3 f_equal. lia. }
  destruct Hstore as (Hav' & Hwr' & Hit'). split; [done |].
  pose proof (StorageSpec.getDailyUsage_current E _ _ Hav' Hit') as Hcur.
  unfold isDailyLimitReached, getRemainingMessages, bind, lift, ret.
  rewrite Hcur. simpl. done.
Qed.

Lemma increments_count_witness :
  items (increments Samples.engine 25 Samples.empty_store) !! DAILY_USAGE
    = Some (Json (usageRecord (0 + Z.of_nat 25) (today Samples.engine)))
  /\ fst (isDailyLimitReached Samples.engine (increments Samples.engine 25 Samples.empty_store))
     = Ok (MAX_DAILY_MESSAGES <=? 0 + Z.of_nat 25)%Z
  /\ fst (getRemainingMessages Samples.engine (increments Samples.engine 25 Samples.empty_store))
     = Ok (Int (Z.max 0 (MAX_DAILY_MESSAGES - (0 + Z.of_nat 25)))).
Proof.
  apply (increments_count Samples.engine Samples.empty_store 0 25).
  - reflexivity.
  - reflexivity.
  - reflexivity.
  - lia.
Defined.

(** X7.  Reading the usage is idempotent: a second [getDailyUsage]
    right after a first returns the same record and changes nothing in
    the store, also when the first one had to reset a stale record. *)
Theorem getDailyUsage_idempotent (E : Engine) (ls : LocalStorage) :
  getDailyUsage E (snd (getDailyUsage E ls))
  = (fst (getDailyUsage E ls), snd (getDailyUsage E ls))
  /\ fst (isDailyLimitReached E (snd (getDailyUsage E ls))) = fst (isDailyLimitReached E ls).
Proof.
  split; [apply getDailyUsage_again |].
  unfold isDailyLimitReached, bind. rewrite getDailyUsage_again.
  by destruct (getDailyUsage E ls) as [[u | e] ls'].
Qed.

(** *** Writes that land and writes that are lost *)

(** X8.  On a working store a saved history and a saved current chat id
    read back as saved.  On a store that is unavailable or refuses
    writes, the save changes nothing and the next read returns what it
    returned before: the value is not kept anywhere else. *)
Theorem save_then_read (E : Engine) (ls : LocalStorage) (chats : JSON) (chatId : Value) :
  (available ls = true -> writable ls = true ->
   fst (getChatHistory (snd (saveChatHistory chats ls))) = Ok chats
   /\ fst (getCurrentChatId (snd (saveCurrentChatId E chatId ls)))
      = Ok (Some (Raw (to_String E chatId))))
  /\ (available ls = false \/ writable ls = false ->
      getChatHistory (snd (saveChatHistory chats ls)) = getChatHistory ls
      /\ getCurrentChatId (snd (saveCurrentChatId E chatId ls)) = getCurrentChatId ls).
Proof.
  rewrite StorageSpec.saveChatHistory_result, StorageSpec.saveCurrentChatId_result.
  split.
  - intros Hav Hwr. rewrite Hav, Hwr. simpl. split.
    + rewrite (StorageSpec.getChatHistory_stored _ chats); try done.
      simpl. apply lookup_insert_eq.
    + unfold getCurrentChatId, try_catch, getItem. simpl. rewrite Hav.
      by rewrite lookup_insert_eq.
  - intros [-> | ->]; [done | by rewrite andb_false_r].
Qed.

Lemma save_then_read_witness :
  (available Samples.empty_store = true -> writable Samples.empty_store = true ->
   fst (getChatHistory (snd (saveChatHistory (JArr []) Samples.empty_store))) = Ok (JArr [])
   /\ fst (getCurrentChatId
             (snd (saveCurrentChatId Samples.engine (Some (JNum 7)) Samples.empty_store)))
      = Ok (Some (Raw (to_String Samples.engine (Some (JNum 7))))))
  /\ (available Samples.empty_store = false \/ writable Samples.empty_store = false ->
      getChatHistory (snd (saveChatHistory (JArr []) Samples.empty_store))
      = getChatHistory Samples.empty_store
      /\ getCurrentChatId
           (snd (saveCurrentChatId Samples.engine (Some (JNum 7)) Samples.empty_store))
         = getCurrentChatId Samples.empty_store).
Proof.
  exact (save_then_read Samples.engine Samples.empty_store (JArr []) (Some (JNum 7))).
Defined.

(** X9.  When the stored history is JSON text of something that is not
    a list, the reader returns it as it is and the four functions built
    on it throw a [TypeError] to their caller, leaving the store as it
    was: [createNewChat], [updateChatMessages], [deleteChat] and
    [getChatById] have no [try] of their own. *)
Theorem non_list_history_throws (E : Engine) (ls : LocalStorage) (v : JSON)
  (mode : string) (chatId messages : JSON) :
  available ls = true ->
  items ls !! CHAT_HISTORY = Some (Json v) ->
  (forall l, v <> JArr l) ->
  (exists e, createNewChat E mode ls = (Throw e, ls) /\ name e = "TypeError")
  /\ (exists e, updateChatMessages E chatId messages ls = (Throw e, ls) /\ name e = "TypeError")
  /\ (exists e, deleteChat chatId ls = (Throw e, ls) /\ name e = "TypeError")
  /\ (exists e, getChatById chatId ls = (Throw e, ls) /\ name e = "TypeError").
Proof.
  intros Hav Hit Hshape.
  pose proof (StorageSpec.getChatHistory_stored ls v Hav Hit) as Hread.
  unfold createNewChat, updateChatMessages, deleteChat, getChatById, bind.
  rewrite Hread. unfold lift, throw.
  destruct v as [| b | n | t | l | fs]; simpl; try (repeat split; eexists; split; reflexivity).
  by destruct (Hshape l).
Qed.

Lemma non_list_history_throws_witness :
  (exists e, createNewChat Samples.engine "Coder" Samples.object_history_store
             = (Throw e, Samples.object_history_store) /\ name e = "TypeError")
  /\ (exists e, updateChatMessages Samples.engine (JNum 1) (JArr [])
                  Samples.object_history_store
                = (Throw e, Samples.object_history_store) /\ name e = "TypeError")
  /\ (exists e, deleteChat (JNum 1) Samples.object_history_store
                = (Throw e, Samples.object_history_store) /\ name e = "TypeError")
  /\ (exists e, getChatById (JNum 1) Samples.object_history_store
                = (Throw e, Samples.object_history_store) /\ name e = "TypeError").
Proof.
  apply (non_list_history_throws Samples.engine Samples.object_history_store (JObj [])
           "Coder" (JNum 1) (JArr [])).
  - reflexivity.
  - reflexivity.
  - discriminate.
Defined.

End StorageExtra.

(* ===================================================================== *)
(** ** Further properties of [GeminiManager] and [callGeminiAPI]         *)
(* ===================================================================== *)

Module GeminiExtra.
Import JS Gemini.
Local Open Scope list_scope.

(** X10.  Whatever calls were made, the cursor of a manager built by
    the constructor points into its key list, which is not empty. *)
Theorem cursor_in_range (m : GeminiManager) :
  reachable m ->
  currentKeyIndex m < length (apiKeys m) /\ apiKeys m <> [].
Proof.
  intros Hr.
  assert (Hv : valid m).
  { induction Hr as [keys name m Hnew | P m prompt o Hr IH].
    - by destruct (GeminiSpec.constructor_valid keys name m Hnew).
    - by destruct (GeminiSpec.generateResponse_valid P m prompt o IH). }
  split; [exact Hv |]. unfold valid in Hv. intros Hnil. rewrite Hnil in Hv. simpl in Hv. lia.
Qed.

Lemma cursor_in_range_witness :
  currentKeyIndex
    (manager (generateResponse Samples.busy_then_hello Samples.two_keys "hi" Samples.no_options))
  < length (apiKeys (manager (generateResponse Samples.busy_then_hello Samples.two_keys "hi"
                                Samples.no_options)))
  /\ apiKeys (manager (generateResponse Samples.busy_then_hello Samples.two_keys "hi"
                         Samples.no_options)) <> [].
Proof.
  apply (cursor_in_range
           (manager (generateResponse Samples.busy_then_hello Samples.two_keys "hi"
                       Samples.no_options))).
  apply reach_call. apply (reach_new ["key-A"; "key-B"] "gemini-2.5-flash"). reflexivity.
Defined.

(** The constructor refuses an empty key list. *)
Lemma constructor_empty (name : string) :
  constructor [] name = Throw (mkError "Error" "GeminiManager: At least one API key is required.").
Proof. reflexivity. Qed.

(** X11.  When the first [k] requests of a call fail without
    cancellation and the next one resolves with a text, the call returns
    that text after [k + 1] requests and leaves the cursor on the key
    that worked; the next call, whatever it is, issues its first request
    with that key. *)
Theorem success_keeps_key (P : Provider) (m : GeminiManager) (prompt : string) (o : Options)
  (k : nat) (text : string) :
  valid m ->
  k < length (apiKeys m) ->
  (forall j, j < k -> fails (P j (request (attempt_at m prompt o j))) = true) ->
  try_body (P k (request (attempt_at m prompt o k))) = Ok text ->
  generateResponse P m prompt o
  = mkRun (Returned text) (mkManager (apiKeys m) (modelName m) (key_at m k))
      (map (attempt_at m prompt o) (seq 0 (S k))) false false
  /\ (forall P' prompt' o',
        exists x,
          issued (generateResponse P'
                    (manager (generateResponse P m prompt o)) prompt' o') !! 0 = Some x
          /\ keyIndex x = key_at m k).
Proof.
  destruct m as [keys mname c]. unfold valid. simpl.
  intros Hc Hk Hall Hok.
  assert (Hrun : generateResponse P (mkManager keys mname c) prompt o
                 = mkRun (Returned text) (mkManager keys mname ((c + k) mod length keys))
                     (map (attempt_at (mkManager keys mname c) prompt o) (seq 0 (S k)))
                     false false).
  { unfold generateResponse. simpl apiKeys.
    replace (rotate P prompt o (length keys) (length keys) 0 (mkManager keys mname c) [])
      with (rotate P prompt o (length keys) (k + S (length keys - S k)) 0
              (mkManager keys mname c) []) by (f_equal; lia).
    rewrite GeminiSpec.rotate_prefix; [| done | exact Hall].
    cbn [rotate]. cbn [apiKeys currentKeyIndex modelName].
    unfold attempt_at, attempt_of, key_at in Hok. simpl in Hok.
    change (build_request (mkManager keys mname ((c + k) mod length keys)) prompt o
              (keys !! ((c + k) mod length keys)))
      with (build_request (mkManager keys mname c) prompt o
              (keys !! ((c + k) mod length keys))).
    change (0 + k) with k. rewrite Hok. f_equal.
    rewrite seq_S, map_app. reflexivity. }
  split; [exact Hrun |].
  intros P' prompt' o'. rewrite Hrun. unfold generateResponse. simpl apiKeys.
  destruct (length keys) as [| rem] eqn:HK; [lia |].
  rewrite <- HK.
  destruct (GeminiSpec.rotate_first_key P' prompt' o' keys rem 0
              (mkManager keys mname ((c + k) mod length keys)) []) as (x & Hx & Hkey).
  rewrite HK in Hx. exists x. split; [| exact Hkey].
  rewrite <- Hx. simpl manager. by rewrite HK.
Qed.

Lemma success_keeps_key_witness :
  generateResponse Samples.busy_then_hello Samples.two_keys "hi" Samples.no_options
  = mkRun (Returned "hello")
      (mkManager (apiKeys Samples.two_keys) (modelName Samples.two_keys)
         (key_at Samples.two_keys 1))
      (map (attempt_at Samples.two_keys "hi" Samples.no_options) (seq 0 2)) false false
  /\ (forall P' prompt' o',
        exists x,
          issued (generateResponse P'
                    (manager (generateResponse Samples.busy_then_hello Samples.two_keys "hi"
                                Samples.no_options)) prompt' o') !! 0 = Some x
          /\ keyIndex x = key_at Samples.two_keys 1).
Proof.
  apply (success_keeps_key Samples.busy_then_hello Samples.two_keys "hi" Samples.no_options
           1 "hello").
  - unfold valid. simpl. lia.
  - simpl. lia.
  - intros j Hj. assert (j = 0) as -> by lia. reflexivity.
  - reflexivity.
Defined.

(** A call that returns without a total failure returns the text of the
    request it issued last. *)
Lemma rotate_returned (P : Provider) (prompt : string) (o : Options) (K rem : nat) :
  forall (a : nat) (m : GeminiManager) (log : list Attempt) (text : string),
    completion (rotate P prompt o K rem a m log) = Returned text ->
    totalFailure (rotate P prompt o K rem a m log) = false ->
    exists x tail,
      issued (rotate P prompt o K rem a m log) = log ++ tail ++ [x]
      /\ try_body (P (a + length tail) (request x)) = Ok text.
Proof.
  induction rem as [| rem IH]; intros a m log text; simpl; [done |].
  set (a0 := mkAttempt _ _).
  destruct (try_body _) as [t | error] eqn:Hbody.
  - simpl. intros [= <-] _. exists a0, []. simpl. by rewrite Nat.add_0_r.
  - destruct (_ || _); [done |].
    destruct (apiKeys m !! currentKeyIndex m); [| done].
    intros Hc Ht. destruct (IH _ _ _ _ Hc Ht) as (x & tail & Hiss & Hx).
    exists x, (a0 :: tail). rewrite Hiss, <- app_assoc. split; [done |].
    simpl length. by replace (a + S (length tail)) with (S a + length tail) by lia.
Qed.

(** The total failure is reported with the fallback sentence. *)
Lemma rotate_total_failure (P : Provider) (prompt : string) (o : Options) (K rem : nat) :
  forall (a : nat) (m : GeminiManager) (log : list Attempt),
    totalFailure (rotate P prompt o K rem a m log) = true ->
    completion (rotate P prompt o K rem a m log) = Returned FALLBACK.
Proof.
  induction rem as [| rem IH]; intros a m log; simpl; [done |].
  destruct (try_body _); [done |]. destruct (_ || _); [done |].
  destruct (apiKeys m !! currentKeyIndex m); [| done]. apply IH.
Qed.

(** With the cursor in range, a call throws only for a cancellation. *)
Lemma rotate_thrown_valid (P : Provider) (prompt : string) (o : Options) (rem : nat) :
  forall (a : nat) (m : GeminiManager) (log : list Attempt) (e : JSError),
    valid m ->
    completion (rotate P prompt o (length (apiKeys m)) rem a m log) = Thrown e ->
    String.eqb (name e) "AbortError"
    || abortedAtEnd (rotate P prompt o (length (apiKeys m)) rem a m log) = true.
Proof.
  induction rem as [| rem IH]; intros a m log e Hv; simpl; [done |].
  destruct (try_body _) as [t | error]; [done |].
  destruct (_ || _) eqn:Hab; simpl.
  - by intros [= <-].
  - destruct (lookup_lt_is_Some_2 (apiKeys m) (currentKeyIndex m) Hv) as [key ->].
    apply (IH (S a) (mkManager (apiKeys m) (modelName m)
                       ((currentKeyIndex m + 1) mod length (apiKeys m)))).
    unfold valid in *. simpl. apply Nat.mod_upper_bound. lia.
Qed.

(** X12.  What [callGeminiAPI] hands back.  A success carries the text
    the last request resolved with, which is not the fallback sentence,
    and the model name; a failure carries one of four fixed texts (the
    fallback sentence, the cancellation text, the generic error text,
    the too-many-requests text) and never the text of a provider error;
    a provider answer that is exactly the fallback sentence is reported
    as a failure. *)
Theorem callGeminiAPI_result (SP : SystemPrompts) (P : Provider) (m : GeminiManager)
  (message mode : string) (h : JSON) (abortedAtEntry : bool) :
  let r := fst (fst (callGeminiAPI SP P m message mode h abortedAtEntry)) in
  let log := snd (callGeminiAPI SP P m message mode h abortedAtEntry) in
  (success r = true ->
     isCancelled r = false
     /\ modelUsed r = Some "gemini-2.5-flash"
     /\ result_text r <> FALLBACK
     /\ exists x tail,
          log = tail ++ [x] /\ try_body (P (length tail) (request x)) = Ok (result_text r))
  /\ (success r = false ->
      modelUsed r = None
      /\ (result_text r = FALLBACK \/ result_text r = CANCELLED_TEXT
          \/ result_text r = GENERIC_ERROR_TEXT \/ result_text r = TOO_MANY_REQUESTS_TEXT))
  /\ (isCancelled r = true -> success r = false /\ result_text r = CANCELLED_TEXT).
Proof.
  unfold callGeminiAPI.
  assert (Herr : forall e ab,
            success (on_error e ab) = false /\ modelUsed (on_error e ab) = None
            /\ (result_text (on_error e ab) = CANCELLED_TEXT
                \/ result_text (on_error e ab) = GENERIC_ERROR_TEXT
                \/ result_text (on_error e ab) = TOO_MANY_REQUESTS_TEXT)
            /\ (isCancelled (on_error e ab) = true
                -> result_text (on_error e ab) = CANCELLED_TEXT)).
  { intros e ab. unfold on_error, CANCELLED_TEXT, GENERIC_ERROR_TEXT, TOO_MANY_REQUESTS_TEXT.
    destruct (_ || _); simpl; [intuition |].
    destruct (includes _ _); simpl; intuition discriminate. }
  destruct (convert_history h) as [hist | e].
  2: { simpl. destruct (Herr e abortedAtEntry) as (Hs & Hm & Ht & Hc).
       rewrite Hs. repeat split; try done; tauto. }
  set (o := mkOptions _ _ _). unfold generateResponse.
  set (run := rotate P message o _ _ 0 m []).
  destruct (completion run) as [text | e] eqn:Hc.
  - destruct (String.eqb text FALLBACK) eqn:Hfb; simpl.
    + apply String.eqb_eq in Hfb. subst text.
      repeat split; try done; auto.
    + apply String.eqb_neq in Hfb.
      assert (Htf : totalFailure run = false).
      { destruct (totalFailure run) eqn:Htf; [| done].
        apply rotate_total_failure in Htf. fold run in Htf. rewrite Hc in Htf. congruence. }
      destruct (rotate_returned _ _ _ _ _ _ _ _ _ Hc Htf) as (x & tail & Hiss & Hx).
      fold run in Hiss. simpl in Hiss, Hx.
      repeat split; try done.
      * by destruct (String.eqb mode "Coder").
      * eauto.
  - simpl. destruct (Herr e (abortedAtEnd run)) as (Hs & Hm & Ht & Hcn).
    rewrite Hs. repeat split; try done; tauto.
Qed.

(** X13.  With the cursor in range and a history that converts, the
    generic error text and the too-many-requests text are out of reach:
    a call that fails either was cancelled or returns the fallback
    sentence, having issued no more requests than there are keys. *)
Theorem failure_is_fallback_or_cancel (SP : SystemPrompts) (P : Provider)
  (m : GeminiManager) (message mode : string) (h : JSON) (hist : list Content)
  (abortedAtEntry : bool) :
  valid m ->
  convert_history h = Ok hist ->
  success (fst (fst (callGeminiAPI SP P m message mode h abortedAtEntry))) = false ->
  (isCancelled (fst (fst (callGeminiAPI SP P m message mode h abortedAtEntry))) = true
   /\ result_text (fst (fst (callGeminiAPI SP P m message mode h abortedAtEntry)))
      = CANCELLED_TEXT)
  \/ (isCancelled (fst (fst (callGeminiAPI SP P m message mode h abortedAtEntry))) = false
      /\ result_text (fst (fst (callGeminiAPI SP P m message mode h abortedAtEntry)))
         = FALLBACK
      /\ length (snd (callGeminiAPI SP P m message mode h abortedAtEntry))
         <= length (apiKeys m)).
Proof.
  intros Hv Hh. unfold callGeminiAPI. rewrite Hh.
  set (o := mkOptions _ _ _).
  pose proof (GeminiSpec.generateResponse_bound P m message o) as Hbound.
  unfold generateResponse in *.
  set (run := rotate P message o _ _ 0 m []) in *.
  destruct (completion run) as [text | e] eqn:Hc.
  - destruct (String.eqb text FALLBACK) eqn:Hfb; simpl; [| done].
    apply String.eqb_eq in Hfb. intros _. by right.
  - simpl. intros _. left.
    pose proof (rotate_thrown_valid _ _ _ _ _ _ _ _ Hv Hc) as Hab. fold run in Hab.
    unfold on_error. by rewrite Hab.
Qed.

Lemma failure_is_fallback_or_cancel_witness :
  (isCancelled (fst (fst (callGeminiAPI Samples.prompts Samples.always_busy Samples.two_keys
                            "hi" "Student" (JArr []) false))) = true
   /\ result_text (fst (fst (callGeminiAPI Samples.prompts Samples.always_busy
                               Samples.two_keys "hi" "Student" (JArr []) false)))
      = CANCELLED_TEXT)
  \/ (isCancelled (fst (fst (callGeminiAPI Samples.prompts Samples.always_busy
                               Samples.two_keys "hi" "Student" (JArr []) false))) = false
      /\ result_text (fst (fst (callGeminiAPI Samples.prompts Samples.always_busy
                                  Samples.two_keys "hi" "Student" (JArr []) false)))
         = FALLBACK
      /\ length (snd (callGeminiAPI Samples.prompts Samples.always_busy Samples.two_keys
                        "hi" "Student" (JArr []) false))
         <= length (apiKeys Samples.two_keys)).
Proof.
  apply (failure_is_fallback_or_cancel Samples.prompts Samples.always_busy Samples.two_keys
           "hi" "Student" (JArr []) [] false).
  - unfold valid. simpl. lia.
  - reflexivity.
  - reflexivity.
Defined.

End GeminiExtra.

(* ===================================================================== *)
(** ** Further properties of the orchestrator                             *)
(* ===================================================================== *)

Module MainChatExtra.
Import JS Storage Gemini MainChat.
Local Open Scope list_scope.

Lemma holds_chats_usage_written (ls : LocalStorage) (chats : list Chat) (v : Text) :
  holds_chats ls chats -> holds_chats (written DAILY_USAGE v ls) chats.
Proof.
  intros (Hav & Hwr & Hit). repeat split; try done. simpl.
  by rewrite lookup_insert_ne.
Qed.

Lemma persist_typed (E : Engine) (ls : LocalStorage) (chats : list Chat) (id : Z)
  (ch : Chat) (ms : list Message) :
  holds_chats ls chats ->
  id <> 0%Z ->
  lookup_chat id chats = Some ch ->
  persist E (Some (JNum id)) (map encode_message ms) ls
  = (Ok tt,
     written CHAT_HISTORY (Json (JArr (map encode_chat (update_first E id ms chats)))) ls).
Proof.
  intros Hls Hid Hch. unfold persist, truthy.
  apply Z.eqb_neq in Hid. rewrite Hid.
  change (negb false) with true. cbv iota.
  rewrite (StorageExtra.updateChatMessages_typed E ls chats id ms Hls).
  destruct (position id chats) eqn:Hpos; [done |].
  apply StorageExtra.position_lookup_none in Hpos. congruence.
Qed.

(** Reading the usage does not depend on the chat history, nor touch
    it. *)
Lemma getDailyUsage_frame (E : Engine) (ls : LocalStorage) (v : Text) :
  getDailyUsage E (written CHAT_HISTORY v ls)
  = (fst (getDailyUsage E ls), written CHAT_HISTORY v (snd (getDailyUsage E ls))).
Proof.
  destruct ls as [its av wr].
  unfold getDailyUsage, try_catch, bind, lift, ret, getItem, setItem, JSON_stringify,
    isNewDay, getTodayDateString, written. simpl.
  destruct av; [| done].
  rewrite lookup_insert_ne by done.
  destruct (its !! DAILY_USAGE) as [[t | u] |]; simpl; [| | done].
  - by destruct (String.eqb t "").
  - destruct u as [| b | n | t | l | fs]; simpl;
      try (destruct wr; simpl; [do 2 f_equal; by apply insert_insert_ne | done]).
    destruct (strict_eq (assoc "date" fs) (Some (JStr (today E)))); simpl; [done |].
    destruct wr; simpl; [do 2 f_equal; by apply insert_insert_ne | done].
Qed.

(** Reading the usage leaves the chats in the store. *)
Lemma holds_chats_usage_read (E : Engine) (ls : LocalStorage) (chats : list Chat) :
  holds_chats ls chats -> holds_chats (snd (getDailyUsage E ls)) chats.
Proof.
  intros Hls.
  destruct (StorageSpec.getDailyUsage_cases E ls)
    as [H | [(_ & _ & H) | (fs & _ & _ & _ & H)]]; rewrite H; simpl; try done.
  by apply holds_chats_usage_written.
Qed.

Lemma limit_not_reached (E : Engine) (ls : LocalStorage) (c : Z) :
  fst (getDailyUsage E ls) = Ok (usageRecord c (today E)) ->
  (c < MAX_DAILY_MESSAGES)%Z ->
  isDailyLimitReached E ls = (Ok false, snd (getDailyUsage E ls)).
Proof.
  intros Hread Hc. unfold isDailyLimitReached, bind, lift, ret.
  destruct (getDailyUsage E ls) as [u ls0]. simpl in *. subst u. simpl.
  do 2 f_equal. apply Z.leb_gt. exact Hc.
Qed.

(** The increment after the chat history was written: the count read at
    entry goes up by one and is stored. *)
Lemma increment_after_persist (E : Engine) (ls : LocalStorage) (chats : list Chat)
  (v : Text) (c : Z) :
  holds_chats ls chats ->
  fst (getDailyUsage E ls) = Ok (usageRecord c (today E)) ->
  incrementDailyUsage E (written CHAT_HISTORY v (snd (getDailyUsage E ls)))
  = (Ok (usageRecord (c + 1) (today E)),
     written DAILY_USAGE (Json (usageRecord (c + 1) (today E)))
       (written CHAT_HISTORY v (snd (getDailyUsage E ls)))).
Proof.
  intros Hls Hread.
  pose proof (holds_chats_usage_read E ls chats Hls) as (Hav & Hwr & _).
  unfold incrementDailyUsage, try_catch, bind.
  rewrite getDailyUsage_frame, StorageExtra.getDailyUsage_again. cbn [fst snd].
  rewrite Hread. unfold lift, ret. simpl. unfold setItem. simpl.
  by rewrite Hav, Hwr.
Qed.

(** What an admitted send does up to the call of [callGeminiAPI], and
    after it, on a component that is [ready]. *)
Lemma handleSendMessage_ready (E : Engine) (SP : SystemPrompts) (P : Provider)
  (activeMode : string) (id : Z) (text : string) (w : World)
  (chats : list Chat) (ms : list Message) (c : Z) (ch : Chat) :
  ready E w chats ms c ->
  trim text <> "" ->
  id <> 0%Z ->
  lookup_chat id chats = Some ch ->
  let chats1 := update_first E id (ms ++ [sent_message E text]) chats in
  let ls2 :=
    written DAILY_USAGE (Json (usageRecord (c + 1) (today E)))
      (written CHAT_HISTORY (Json (JArr (map encode_chat chats1)))
         (snd (getDailyUsage E (storage w)))) in
  let call := callGeminiAPI SP P (geminiManager w) (trim text) activeMode
                (JArr (map encode_message ms)) false in
  holds_chats ls2 chats1
  /\ handleSendMessage E SP P activeMode (Some (JNum id)) text w
     = on_result E (Some (JNum id)) (map encode_message (ms ++ [sent_message E text]))
         (fst (fst call))
         (mkWorld (map encode_message (ms ++ [sent_message E text])) "" true None
            (usageRecord (c + 1) (today E)) true
            (if abortController w then S (abortCalls w) else abortCalls w) (timers w)
            ls2 (snd (fst call)) (network w ++ snd call)).
Proof.
  intros (Htyping & Hms & Hls & Husage & Hc) Htext Hid Hch chats1 ls2 call.
  pose proof (holds_chats_usage_read E (storage w) chats Hls) as Hls0.
  pose proof (StorageExtra.holds_chats_written _ chats chats1 Hls0) as Hls1.
  split; [by apply holds_chats_usage_written |].
  unfold handleSendMessage.
  apply String.eqb_neq in Htext. rewrite Htext, Htyping. simpl orb. cbv iota.
  rewrite (limit_not_reached E (storage w) c Husage Hc).
  cbv zeta. rewrite Hms.
  change (userMessage E text) with (encode_message (sent_message E text)).
  change [encode_message (sent_message E text)] with (map encode_message [sent_message E text]).
  rewrite <- !map_app.
  rewrite (persist_typed E _ chats id ch _ Hls0 Hid Hch).
  fold chats1.
  rewrite (increment_after_persist E (storage w) chats _ c Hls Husage).
  fold ls2.
  replace (removelast (map encode_message (ms ++ [sent_message E text])))
    with (map encode_message ms)
    by (rewrite map_app; symmetry; apply removelast_last).
  fold call. by destruct call as [[r m'] log].
Qed.

Lemma reply_encoded (E : Engine) (r : ApiResult) :
  (if success r then aiMessage E r else errorMessage E r)
  = encode_message (reply_message E r).
Proof.
  unfold reply_message, aiMessage, errorMessage, encode_message.
  destruct (success r); [| done]. by destruct (modelUsed r).
Qed.

Lemma sample_ready :
  ready Samples.engine Samples.idle_world [Samples.first_chat; Samples.second_chat] [] 7.
Proof. repeat split. Qed.

(** X14.  On a store that can be read and accepts writes and that
    holds the current chat, with the usage read at entry below the
    limit, an admitted send that is not cancelled ends with exactly two
    messages more than before, on screen and in the stored chat: the
    user message, then one assistant message, which carries the response
    text and the model name after a success and, after a failure, the
    error flag and the sentence built around the failure text; only the
    failure shows a notice, the failure text.  The component is idle
    again. *)
Theorem send_appends_reply (E : Engine) (SP : SystemPrompts) (P : Provider)
  (activeMode : string) (id : Z) (text : string) (w : World)
  (chats : list Chat) (ms : list Message) (c : Z) (ch : Chat) :
  ready E w chats ms c ->
  trim text <> "" ->
  id <> 0%Z ->
  lookup_chat id chats = Some ch ->
  isCancelled (fst (fst (callGeminiAPI SP P (geminiManager w) (trim text) activeMode
                           (JArr (map encode_message ms)) false))) = false ->
  let r := fst (fst (callGeminiAPI SP P (geminiManager w) (trim text) activeMode
                       (JArr (map encode_message ms)) false)) in
  let after := ms ++ [sent_message E text; reply_message E r] in
  exists w' title,
    handleSendMessage E SP P activeMode (Some (JNum id)) text w = (Ok tt, w')
    /\ messages w' = map encode_message after
    /\ fst (getChatById (JNum id) (storage w'))
       = Ok (Some (encode_chat (mkChat id title (c_mode ch) after (c_createdAt ch))))
    /\ notification w' = (if success r then None else Some (result_text r))
    /\ isTyping w' = false
    /\ abortController w' = false.
Proof.
  intros Hready Htext Hid Hch Hcan r after.
  destruct (handleSendMessage_ready E SP P activeMode id text w chats ms c ch
              Hready Htext Hid Hch) as [Hls2 ->].
  unfold on_result. rewrite Hcan. fold r. cbv zeta. simpl storage.
  rewrite reply_encoded.
  change [encode_message (reply_message E r)]
    with (map encode_message [reply_message E r]).
  rewrite <- map_app, <- app_assoc. simpl app. fold after.
  set (chats1 := update_first E id (ms ++ [sent_message E text]) chats) in *.
  pose proof (StorageExtra.lookup_update_first_eq E id (ms ++ [sent_message E text])
                chats ch Hch) as Hch1. fold chats1 in Hch1.
  rewrite (persist_typed E _ chats1 id _ after Hls2 Hid Hch1).
  pose proof (StorageExtra.holds_chats_written _ chats1 (update_first E id after chats1) Hls2)
    as Hls3.
  pose proof (StorageExtra.lookup_update_first_eq E id after chats1 _ Hch1) as Hch2.
  assert (Hidch : c_id ch = id).
  { unfold lookup_chat in Hch. apply find_some in Hch. destruct Hch as [_ Heq].
    by apply Z.eqb_eq. }
  destruct (success r) eqn:Hs; eexists _, _; (split; [reflexivity |]); simpl;
    (split; [reflexivity |]);
    rewrite (StorageExtra.getChatById_typed _ _ id Hls3), Hch2; simpl;
    unfold set_messages; simpl; rewrite Hidch; repeat split.
Qed.

Lemma send_appends_reply_witness :
  let r := fst (fst (callGeminiAPI Samples.prompts Samples.hello_only
                       (geminiManager Samples.idle_world) (trim "hello") "Coder"
                       (JArr (map encode_message [])) false)) in
  let after := [] ++ [sent_message Samples.engine "hello"; reply_message Samples.engine r] in
  exists w' title,
    handleSendMessage Samples.engine Samples.prompts Samples.hello_only "Coder"
      (Some (JNum (c_id Samples.second_chat))) "hello" Samples.idle_world = (Ok tt, w')
    /\ messages w' = map encode_message after
    /\ fst (getChatById (JNum (c_id Samples.second_chat)) (storage w'))
       = Ok (Some (encode_chat (mkChat (c_id Samples.second_chat) title
                                  (c_mode Samples.second_chat) after
                                  (c_createdAt Samples.second_chat))))
    /\ notification w' = (if success r then None else Some (result_text r))
    /\ isTyping w' = false
    /\ abortController w' = false.
Proof.
  apply (send_appends_reply Samples.engine Samples.prompts Samples.hello_only "Coder"
           (c_id Samples.second_chat) "hello" Samples.idle_world
           [Samples.first_chat; Samples.second_chat] [] 7 Samples.second_chat).
  - exact sample_ready.
  - discriminate.
  - discriminate.
  - reflexivity.
  - reflexivity.
Defined.

(** X15.  On a store that can be read and accepts writes and that
    holds the current chat, every admitted send uses up one message of
    the daily quota, whatever becomes of it: after the handler has run,
    be it to a success, a failure or a cancellation, the stored usage
    record and the usage on screen hold the count read at entry plus
    one, where the count read at entry is that of today's record, and 0
    when no record is stored or the stored one is of another day. *)
Theorem send_costs_one (E : Engine) (SP : SystemPrompts) (P : Provider)
  (activeMode : string) (id : Z) (text : string) (w : World)
  (chats : list Chat) (ms : list Message) (c : Z) (ch : Chat) :
  ready E w chats ms c ->
  trim text <> "" ->
  id <> 0%Z ->
  lookup_chat id chats = Some ch ->
  items (storage (snd (handleSendMessage E SP P activeMode (Some (JNum id)) text w)))
    !! DAILY_USAGE = Some (Json (usageRecord (c + 1) (today E)))
  /\ dailyUsage (snd (handleSendMessage E SP P activeMode (Some (JNum id)) text w))
     = usageRecord (c + 1) (today E).
Proof.
  intros Hready Htext Hid Hch.
  destruct (handleSendMessage_ready E SP P activeMode id text w chats ms c ch
              Hready Htext Hid Hch) as [Hls2 ->].
  set (r := fst (fst (callGeminiAPI SP P (geminiManager w) (trim text) activeMode
                        (JArr (map encode_message ms)) false))).
  unfold on_result.
  destruct (isCancelled r).
  - simpl. split; [apply lookup_insert_eq | done].
  - cbv zeta. cbn [storage]. rewrite reply_encoded.
    change [encode_message (reply_message E r)]
      with (map encode_message [reply_message E r]).
    rewrite <- map_app.
    set (chats1 := update_first E id (ms ++ [sent_message E text]) chats) in *.
    pose proof (StorageExtra.lookup_update_first_eq E id (ms ++ [sent_message E text])
                  chats ch Hch) as Hch1. fold chats1 in Hch1.
    rewrite (persist_typed E _ chats1 id _ _ Hls2 Hid Hch1).
    destruct (success r); simpl;
      (split; [rewrite lookup_insert_ne by done; apply lookup_insert_eq | done]).
Qed.

Lemma send_costs_one_witness :
  items (storage (snd (handleSendMessage Samples.engine Samples.prompts
                         Samples.cancelled_at_once "Coder"
                         (Some (JNum (c_id Samples.second_chat))) "hello"
                         Samples.first_send_world)))
    !! DAILY_USAGE = Some (Json (usageRecord (0 + 1) (today Samples.engine)))
  /\ dailyUsage (snd (handleSendMessage Samples.engine Samples.prompts
                        Samples.cancelled_at_once "Coder"
                        (Some (JNum (c_id Samples.second_chat))) "hello"
                        Samples.first_send_world))
     = usageRecord (0 + 1) (today Samples.engine).
Proof.
  apply (send_costs_one Samples.engine Samples.prompts Samples.cancelled_at_once "Coder"
           (c_id Samples.second_chat) "hello" Samples.first_send_world
           [Samples.first_chat; Samples.second_chat] [] 0 Samples.second_chat).
  - repeat split.
  - discriminate.
  - discriminate.
  - reflexivity.
Defined.

End MainChatExtra.

(* ===================================================================== *)
(** ** Properties of the failover loop of [Chat.jsx]                      *)
(* ===================================================================== *)

Module ChatExtra.
Import JS Chat.
Local Open Scope nat_scope.

Lemma keyIndex_range (model : ModelEntry) (k : nat) :
  keyIndex model k < length (apiKeys model)
  \/ (apiKeys model = [] /\ keyIndex model k = 0).
Proof.
  unfold keyIndex. destruct (Nat.leb_spec (length (apiKeys model)) k) as [Hle | Hlt].
  - destruct (apiKeys model) as [| a l]; [right; done | left; simpl; lia].
  - left. exact Hlt.
Qed.

Lemma keyIndex_weight (model : ModelEntry) (k : nat) :
  keyIndex model k < weight model.
Proof.
  unfold weight. destruct (keyIndex_range model k) as [H | [_ H]]; lia.
Qed.

Lemma keyIndex_small (model : ModelEntry) (k : nat) :
  k < length (apiKeys model) -> keyIndex model k = k.
Proof.
  intros H. unfold keyIndex. destruct (Nat.leb_spec (length (apiKeys model)) k); [lia | done].
Qed.

Lemma budget_drop (n : nat) (cfg : list ModelEntry) :
  budget (drop n cfg) <= budget cfg.
Proof.
  revert n. induction cfg as [| m cfg IH]; intros [| n]; simpl; try lia.
  unfold budget in *. simpl. specialize (IH n). lia.
Qed.

Lemma strongly_sorted_snoc {A : Type} (R : A -> A -> Prop) (l : list A) (x : A) :
  StronglySorted R l -> Forall (fun y => R y x) l -> StronglySorted R (l ++ [x])%list.
Proof.
  induction 1 as [| a l Hs IH Ha]; intros Hall; simpl.
  - constructor; constructor.
  - inversion Hall; subst. constructor; [auto |].
    apply Forall_app. split; [exact Ha | constructor; [assumption | constructor]].
Qed.

Lemma strongly_sorted_lookup {A : Type} (R : A -> A -> Prop) (l : list A) :
  StronglySorted R l ->
  forall i j x y, i < j -> l !! i = Some x -> l !! j = Some y -> R x y.
Proof.
  induction 1 as [| a l Hs IH Ha]; intros i j x y Hij Hi Hj.
  - discriminate.
  - destruct j as [| j]; [lia |]. simpl in Hj. destruct i as [| i]; simpl in Hi.
    + injection Hi as <-. rewrite Forall_forall in Ha. apply Ha.
      eapply list_elem_of_lookup_2. exact Hj.
    + apply (IH i j); [lia | assumption | assumption].
Qed.

Section Failover.
Variable E : Engine.
Variable S0 : Setup.

Lemma continues_model (s : Loop) :
  continues S0 s = true ->
  success s = false /\ exists model, config S0 !! currentModelIdx s = Some model.
Proof.
  unfold continues. intros H. apply andb_prop in H as [Hs Hlt].
  apply negb_true_iff in Hs. apply Nat.ltb_lt in Hlt.
  split; [exact Hs | apply lookup_lt_is_Some_2; exact Hlt].
Qed.

Lemma stops_outside (s : Loop) :
  continues S0 s = false -> success s = false -> length (config S0) <= currentModelIdx s.
Proof.
  unfold continues. intros H Hs. rewrite Hs in H. simpl in H.
  apply Nat.ltb_ge in H. exact H.
Qed.

Lemma loop_done (fuel : nat) (s : Loop) :
  continues S0 s = false -> loop E S0 fuel s = Some s.
Proof. intros H. destruct fuel; simpl; rewrite H; reflexivity. Qed.

Lemma remaining_at (s : Loop) (model : ModelEntry) :
  config S0 !! currentModelIdx s = Some model ->
  remaining S0 s
  = weight model - keyIndex model (currentKeyIdx s)
    + budget (drop (S (currentModelIdx s)) (config S0)).
Proof.
  intros Hm. unfold remaining. rewrite (drop_S _ _ _ Hm). reflexivity.
Qed.

Lemma remaining_next (s : Loop) :
  currentKeyIdx s = 0 ->
  remaining S0 s = budget (drop (currentModelIdx s) (config S0)).
Proof.
  intros Hk. unfold remaining. rewrite Hk.
  destruct (drop (currentModelIdx s) (config S0)) as [| m later]; [reflexivity |].
  unfold budget. simpl. unfold keyIndex.
  destruct (length (apiKeys m) <=? 0); lia.
Qed.

(** What one turn does, case by case. *)
Lemma turn_cases (s : Loop) (model : ModelEntry) :
  config S0 !! currentModelIdx s = Some model ->
  cursor s = (activeModelIndex S0, activeKeyIndex S0) ->
  let keyIdx := keyIndex model (currentKeyIdx s) in
  let x := mkSent (currentModelIdx s) keyIdx
             (mkCall (modelId model) (mjoin (apiKeys model !! keyIdx))
                ("<s>[INST] " ++ systemPrompt S0 ++ newline ++ newline
                 ++ input S0 ++ " [/INST]")%string) in
  exists s' stop,
    turn E S0 s = (s', stop) /\ calls s' = (calls s ++ [x])%list
    /\ ((exists text,
          read_response E (endpoint S0 (length (calls s)) (sent_call x)) = Ok text
          /\ stop = false /\ success s' = true /\ botText s' = text
          /\ cursor s' = (currentModelIdx s, keyIdx))
        \/ (exists e,
             read_response E (endpoint S0 (length (calls s)) (sent_call x)) = Throw e
             /\ retryable e = true /\ stop = false /\ success s' = false
             /\ botText s' = botText s /\ cursor s' = cursor s
             /\ ((S keyIdx < length (apiKeys model)
                  /\ currentModelIdx s' = currentModelIdx s /\ currentKeyIdx s' = S keyIdx)
                 \/ (length (apiKeys model) <= S keyIdx
                     /\ currentModelIdx s' = S (currentModelIdx s) /\ currentKeyIdx s' = 0)))
        \/ (exists e,
             read_response E (endpoint S0 (length (calls s)) (sent_call x)) = Throw e
             /\ retryable e = false /\ stop = true /\ success s' = false
             /\ botText s' = JStr ("Error: " ++ message e) /\ cursor s' = cursor s)).
Proof.
  intros Hm Hcur keyIdx x. unfold turn. rewrite Hm. cbv zeta. fold keyIdx.
  simpl sent_call.
  destruct (read_response E _) as [text | e] eqn:Hread.
  - destruct (negb (currentModelIdx s =? activeModelIndex S0)
              || negb (keyIdx =? activeKeyIndex S0))%bool eqn:Hmoved.
    + eexists _, _. split; [reflexivity |]. split; [reflexivity |].
      left. exists text. simpl. repeat split; reflexivity.
    + eexists _, _. split; [reflexivity |]. split; [reflexivity |].
      left. exists text. simpl. repeat split; try reflexivity.
      apply orb_false_iff in Hmoved as [H1 H2].
      apply negb_false_iff in H1, H2. apply Nat.eqb_eq in H1, H2.
      rewrite Hcur, H1, H2. reflexivity.
  - destruct (retryable e) eqn:Hre.
    + destruct (Nat.leb_spec (length (apiKeys model)) (keyIdx + 1)) as [Hle | Hlt].
      * eexists _, _. split; [reflexivity |]. split; [reflexivity |].
        right. left. exists e. simpl. do 6 (split; [first [reflexivity | assumption] |]).
        right. split; [lia | split; reflexivity].
      * eexists _, _. split; [reflexivity |]. split; [reflexivity |].
        right. left. exists e. simpl. do 6 (split; [first [reflexivity | assumption] |]).
        left. split; [lia | split; [reflexivity | lia]].
    + eexists _, _. split; [reflexivity |]. split; [reflexivity |].
      right. right. exists e. simpl. repeat split; first [reflexivity | assumption].
Qed.

(** A turn that is retried leaves fewer turns to take. *)
Lemma retry_decreases (s s' : Loop) (model : ModelEntry) :
  config S0 !! currentModelIdx s = Some model ->
  (S (keyIndex model (currentKeyIdx s)) < length (apiKeys model)
   /\ currentModelIdx s' = currentModelIdx s
   /\ currentKeyIdx s' = S (keyIndex model (currentKeyIdx s)))
  \/ (length (apiKeys model) <= S (keyIndex model (currentKeyIdx s))
      /\ currentModelIdx s' = S (currentModelIdx s) /\ currentKeyIdx s' = 0) ->
  S (remaining S0 s') = remaining S0 s.
Proof.
  intros Hm Hnext. rewrite (remaining_at s model Hm).
  pose proof (keyIndex_weight model (currentKeyIdx s)) as Hw.
  destruct Hnext as [(Hlt & Hmi & Hki) | (Hle & Hmi & Hki)].
  - assert (Hm' : config S0 !! currentModelIdx s' = Some model) by (rewrite Hmi; exact Hm).
    rewrite (remaining_at s' model Hm'), Hmi, Hki.
    rewrite (keyIndex_small model _ Hlt). unfold weight in *. lia.
  - rewrite (remaining_next s' Hki), Hmi.
    destruct (keyIndex_range model (currentKeyIdx s)) as [Hr | [Hnil Hr]];
      unfold weight in *; [lia |].
    rewrite Hnil in *. simpl in *. lia.
Qed.

(** A turn that is retried was taken at the first of the positions
    left, and leaves the others. *)
Lemma retry_positions (s s' : Loop) (model : ModelEntry) :
  config S0 !! currentModelIdx s = Some model ->
  (S (keyIndex model (currentKeyIdx s)) < length (apiKeys model)
   /\ currentModelIdx s' = currentModelIdx s
   /\ currentKeyIdx s' = S (keyIndex model (currentKeyIdx s)))
  \/ (length (apiKeys model) <= S (keyIndex model (currentKeyIdx s))
      /\ currentModelIdx s' = S (currentModelIdx s) /\ currentKeyIdx s' = 0) ->
  positions S0 s
  = (currentModelIdx s, keyIndex model (currentKeyIdx s)) :: positions S0 s'.
Proof.
  intros Hm Hnext. unfold positions at 1. rewrite (drop_S _ _ _ Hm).
  pose proof (keyIndex_weight model (currentKeyIdx s)) as Hw.
  set (k := keyIndex model (currentKeyIdx s)) in *.
  unfold model_positions.
  destruct Hnext as [(Hlt & Hmi & Hki) | (Hle & Hmi & Hki)].
  - unfold positions. rewrite Hmi, Hki, (drop_S _ _ _ Hm).
    rewrite (keyIndex_small model _ Hlt). unfold model_positions.
    replace (weight model - k) with (S (weight model - S k)) by lia.
    reflexivity.
  - assert (Hone : weight model - k = 1).
    { destruct (keyIndex_range model (currentKeyIdx s)) as [Hr | [Hnil Hr]];
        fold k in Hr; unfold weight in *; [lia |].
      rewrite Hnil in *. simpl in *. lia. }
    rewrite Hone. simpl. f_equal.
    unfold positions. rewrite Hmi, Hki.
    destruct (drop (S (currentModelIdx s)) (config S0)) as [| next later]; [reflexivity |].
    simpl. unfold keyIndex. by destruct (length (apiKeys next) <=? 0).
Qed.

Lemma positions_outside (s : Loop) :
  length (config S0) <= currentModelIdx s -> positions S0 s = [].
Proof. intros Hout. unfold positions. by rewrite drop_ge. Qed.

Lemma all_retried_snoc (l : list Sent) (x : Sent) :
  all_retried E S0 l -> retried E S0 (length l) x -> all_retried E S0 (l ++ [x])%list.
Proof.
  intros Hl Hx k y Hk.
  destruct (decide (k < length l)) as [Hlt | Hge].
  - rewrite lookup_app_l in Hk by exact Hlt. apply Hl. exact Hk.
  - rewrite lookup_app_r in Hk by lia.
    destruct (k - length l) as [| d] eqn:Hd; [| destruct d; discriminate].
    injection Hk as <-. replace k with (length l) by lia. exact Hx.
Qed.

Lemma all_retried_last (l : list Sent) (x : Sent) (k : nat) (y : Sent) :
  all_retried E S0 l ->
  (l ++ [x])%list !! k = Some y ->
  retried E S0 k y \/ (k = length l /\ y = x).
Proof.
  intros Hl Hk. destruct (decide (k < length l)) as [Hlt | Hge].
  - left. rewrite lookup_app_l in Hk by exact Hlt. apply Hl. exact Hk.
  - right. rewrite lookup_app_r in Hk by lia.
    destruct (k - length l) as [| d] eqn:Hd; [| destruct d; discriminate].
    injection Hk as <-. split; [lia | reflexivity].
Qed.

(** The loop ends within the turns that remain, and sends one request
    a turn. *)
Lemma loop_bound (fuel : nat) :
  forall s,
    cursor s = (activeModelIndex S0, activeKeyIndex S0) ->
    remaining S0 s <= fuel ->
    exists s',
      loop E S0 fuel s = Some s'
      /\ length (calls s') <= length (calls s) + remaining S0 s
      /\ length (calls s) + (if continues S0 s then 1 else 0) <= length (calls s').
Proof.
  induction fuel as [| fuel IH]; intros s Hcur Hfuel.
  - simpl. destruct (continues S0 s) eqn:Hc.
    + destruct (continues_model s Hc) as [_ [model Hm]].
      rewrite (remaining_at s model Hm) in Hfuel.
      pose proof (keyIndex_weight model (currentKeyIdx s)). lia.
    + exists s. split; [reflexivity | lia].
  - simpl. destruct (continues S0 s) eqn:Hc.
    + destruct (continues_model s Hc) as [_ [model Hm]].
      destruct (turn_cases s model Hm Hcur) as (s1 & stop & Ht & Hcalls & Hcase).
      rewrite Ht.
      assert (Hpos : 1 <= remaining S0 s).
      { rewrite (remaining_at s model Hm).
        pose proof (keyIndex_weight model (currentKeyIdx s)). lia. }
      assert (Hlen : length (calls s1) = S (length (calls s))).
      { rewrite Hcalls, length_app. simpl. lia. }
      destruct Hcase as [(text & _ & -> & Hs & _) | [(e & _ & _ & -> & _ & _ & Hcur1 & Hnext)
                                                    | (e & _ & _ & -> & _)]].
      * rewrite loop_done by (unfold continues; rewrite Hs; reflexivity).
        exists s1. split; [reflexivity | lia].
      * pose proof (retry_decreases s s1 model Hm Hnext) as Hdec.
        destruct (IH s1) as (s' & Hloop & Hup & Hlow); [congruence | lia |].
        exists s'. split; [exact Hloop |].
        destruct (continues S0 s1); lia.
      * exists s1. split; [reflexivity | lia].
    + exists s. split; [reflexivity | lia].
Qed.

(** How the loop ends: out of models, on a success, or on the break. *)
Lemma loop_outcome (fuel : nat) :
  forall s s',
    retrying E S0 s ->
    loop E S0 fuel s = Some s' ->
    (retrying E S0 s' /\ length (config S0) <= currentModelIdx s')
    \/ succeeded E S0 s' \/ broken E S0 s'.
Proof.
  induction fuel as [| fuel IH]; intros s s' Hinv Hloop; simpl in Hloop.
  - destruct (continues S0 s) eqn:Hc; [discriminate |].
    injection Hloop as <-. left. split; [exact Hinv |].
    apply stops_outside; [exact Hc | apply Hinv].
  - destruct (continues S0 s) eqn:Hc.
    + destruct Hinv as (Hs & Hbot & Hcur & Hall).
      destruct (continues_model s Hc) as [_ [model Hm]].
      destruct (turn_cases s model Hm Hcur) as (s1 & stop & Ht & Hcalls & Hcase).
      rewrite Ht in Hloop.
      destruct Hcase as [(text & Hread & -> & Hs1 & Hbot1 & Hcur1)
                        | [(e & Hread & Hre & -> & Hs1 & Hbot1 & Hcur1 & _)
                          | (e & Hread & Hre & -> & Hs1 & Hbot1 & Hcur1)]].
      * rewrite loop_done in Hloop by (unfold continues; rewrite Hs1; reflexivity).
        injection Hloop as <-. right. left.
        eexists _, _. split; [exact Hcalls |]. split; [exact Hall |].
        split; [exact Hs1 |]. split; [rewrite Hbot1; exact Hread | exact Hcur1].
      * apply (IH s1 s'); [| exact Hloop].
        split; [exact Hs1 |]. split; [congruence |]. split; [congruence |].
        rewrite Hcalls. apply all_retried_snoc; [exact Hall |].
        exists e. split; assumption.
      * injection Hloop as <-. right. right.
        eexists _, _, e. split; [exact Hcalls |]. split; [exact Hall |].
        split; [exact Hs1 |]. split; [exact Hread |]. split; [exact Hre |].
        split; [exact Hbot1 | congruence].
    + injection Hloop as <-. left. split; [exact Hinv |].
      apply stops_outside; [exact Hc | apply Hinv].
Qed.

(** With an endpoint that only answers with retryable errors, the loop
    takes every turn that remains, at the positions that remain, in
    their order. *)
Lemma loop_exhaust (fuel : nat) :
  (forall n c, exists e, read_response E (endpoint S0 n c) = Throw e /\ retryable e = true) ->
  forall s,
    retrying E S0 s ->
    remaining S0 s <= fuel ->
    exists s',
      loop E S0 fuel s = Some s' /\ retrying E S0 s'
      /\ length (calls s') = length (calls s) + (if continues S0 s then remaining S0 s else 0)
      /\ map position_of (calls s') = (map position_of (calls s) ++ positions S0 s)%list.
Proof.
  intros Hbusy. induction fuel as [| fuel IH]; intros s Hinv Hfuel.
  - simpl. destruct (continues S0 s) eqn:Hc.
    + destruct (continues_model s Hc) as [_ [model Hm]].
      rewrite (remaining_at s model Hm) in Hfuel.
      pose proof (keyIndex_weight model (currentKeyIdx s)). lia.
    + exists s. split; [reflexivity |]. split; [exact Hinv |]. split; [lia |].
      rewrite (positions_outside s (stops_outside s Hc (proj1 Hinv))).
      by rewrite app_nil_r.
  - simpl. destruct (continues S0 s) eqn:Hc.
    + destruct Hinv as (Hs & Hbot & Hcur & Hall).
      destruct (continues_model s Hc) as [_ [model Hm]].
      destruct (turn_cases s model Hm Hcur) as (s1 & stop & Ht & Hcalls & Hcase).
      rewrite Ht.
      destruct Hcase as [(text & Hread & _)
                        | [(e & Hread & Hre & -> & Hs1 & Hbot1 & Hcur1 & Hnext)
                          | (e & Hread & Hre & _)]].
      * destruct (Hbusy (length (calls s)) (sent_call
           (mkSent (currentModelIdx s) (keyIndex model (currentKeyIdx s))
              (mkCall (modelId model)
                 (mjoin (apiKeys model !! keyIndex model (currentKeyIdx s)))
                 ("<s>[INST] " ++ systemPrompt S0 ++ newline ++ newline
                  ++ input S0 ++ " [/INST]")%string)))) as (e & He & _).
        congruence.
      * pose proof (retry_decreases s s1 model Hm Hnext) as Hdec.
        pose proof (retry_positions s s1 model Hm Hnext) as Hpos.
        assert (Hinv1 : retrying E S0 s1).
        { split; [exact Hs1 |]. split; [congruence |]. split; [congruence |].
          rewrite Hcalls. apply all_retried_snoc; [exact Hall |].
          exists e. split; assumption. }
        destruct (IH s1 Hinv1) as (s' & Hloop & Hinv' & Hlen & Hat); [lia |].
        exists s'. split; [exact Hloop |]. split; [exact Hinv' |]. split.
        -- rewrite Hlen, Hcalls, length_app. simpl.
           destruct (continues S0 s1) eqn:Hc1; [lia |].
           assert (remaining S0 s1 = 0); [| lia].
           pose proof (stops_outside s1 Hc1 Hs1) as Hout.
           unfold remaining. rewrite drop_ge by exact Hout. reflexivity.
        -- rewrite Hat, Hcalls, Hpos, map_app, <- app_assoc. reflexivity.
      * destruct (Hbusy (length (calls s)) (sent_call
           (mkSent (currentModelIdx s) (keyIndex model (currentKeyIdx s))
              (mkCall (modelId model)
                 (mjoin (apiKeys model !! keyIndex model (currentKeyIdx s)))
                 ("<s>[INST] " ++ systemPrompt S0 ++ newline ++ newline
                  ++ input S0 ++ " [/INST]")%string)))) as (e' & He & Hre').
        congruence.
    + exists s. split; [reflexivity |]. split; [exact Hinv |]. split; [lia |].
      rewrite (positions_outside s (stops_outside s Hc (proj1 Hinv))).
      by rewrite app_nil_r.
Qed.

(** A turn sends its request at a position after those already tried,
    and leaves the loop at a position after it. *)
Lemma turn_ordered (s s' : Loop) (stop : bool) :
  ordered S0 s ->
  continues S0 s = true ->
  turn E S0 s = (s', stop) ->
  aimed S0 s' /\ (stop = false -> success s' = false -> ordered S0 s').
Proof.
  intros ((Hsorted & Haimed) & Hfrom & Hcur & Hbehind) Hc Ht.
  destruct (continues_model s Hc) as [_ [model Hm]].
  destruct (turn_cases s model Hm Hcur) as (s1 & stop1 & Ht1 & Hcalls & Hcase).
  rewrite Ht in Ht1. injection Ht1 as <- <-.
  set (keyIdx := keyIndex model (currentKeyIdx s)) in *.
  set (x := mkSent (currentModelIdx s) keyIdx _) in *.
  assert (Haim : aimed S0 s').
  { unfold aimed. rewrite Hcalls. split.
    - apply strongly_sorted_snoc; [exact Hsorted |].
      eapply Forall_impl; [exact Hbehind |].
      intros y [Hlt | (Heq & Hkey & model' & Hm' & Hin)].
      + left. exact Hlt.
      + right. split; [exact Heq |]. simpl. unfold keyIdx.
        rewrite Hm in Hm'. injection Hm' as <-.
        rewrite (keyIndex_small model _ Hin). exact Hkey.
    - apply Forall_app. split; [exact Haimed |]. constructor; [| constructor].
      exists model. simpl. split; [exact Hm |]. split; [exact Hfrom |].
      split; [reflexivity |]. split; [reflexivity |]. apply keyIndex_range. }
  split; [exact Haim |]. intros -> Hs'.
  destruct Hcase as [(text & _ & _ & Hs1 & _)
                    | [(e & _ & _ & _ & _ & _ & Hcur1 & Hnext) | (e & _ & _ & Hstop & _)]];
    [congruence | | discriminate].
  split; [exact Haim |].
  split; [destruct Hnext as [(_ & -> & _) | (_ & -> & _)]; lia |].
  split; [congruence |].
  rewrite Hcalls. apply Forall_app. split.
  - eapply Forall_impl; [exact Hbehind |].
    intros y Hy. destruct Hnext as [(Hlt & Hmi & Hki) | (Hle & Hmi & Hki)].
    + destruct Hy as [Hy | (Heq & Hkey & model' & Hm' & Hin)].
      * left. rewrite Hmi. exact Hy.
      * right. rewrite Hmi, Hki. split; [exact Heq |].
        rewrite Hm in Hm'. injection Hm' as <-.
        fold keyIdx in Hlt. unfold keyIdx in *.
        rewrite (keyIndex_small model _ Hin) in *.
        split; [lia |]. exists model. split; [exact Hm | exact Hlt].
    + left. rewrite Hmi. destruct Hy as [Hy | (Heq & _)]; lia.
  - constructor; [| constructor].
    destruct Hnext as [(Hlt & Hmi & Hki) | (Hle & Hmi & Hki)].
    + right. rewrite Hmi, Hki. simpl. split; [reflexivity |].
      split; [fold keyIdx; lia |]. exists model. split; [exact Hm | exact Hlt].
    + left. rewrite Hmi. simpl. lia.
Qed.

Lemma loop_ordered (fuel : nat) :
  forall s s', ordered S0 s -> loop E S0 fuel s = Some s' -> aimed S0 s'.
Proof.
  induction fuel as [| fuel IH]; intros s s' Hord Hloop; simpl in Hloop.
  - destruct (continues S0 s); [discriminate |]. injection Hloop as <-. apply Hord.
  - destruct (continues S0 s) eqn:Hc; [| injection Hloop as <-; apply Hord].
    destruct (turn E S0 s) as [s1 stop] eqn:Ht.
    destruct (turn_ordered s s1 stop Hord Hc Ht) as [Haim Hnext].
    destruct stop; [injection Hloop as <-; exact Haim |].
    destruct (success s1) eqn:Hs1.
    + rewrite loop_done in Hloop by (unfold continues; rewrite Hs1; reflexivity).
      injection Hloop as <-. exact Haim.
    + apply (IH s1 s'); [apply Hnext; reflexivity | exact Hloop].
Qed.

Lemma start_retrying : retrying E S0 (start S0).
Proof.
  unfold retrying, start. simpl. repeat split. intros k x Hk. discriminate.
Qed.

Lemma start_ordered : ordered S0 (start S0).
Proof.
  unfold ordered, aimed, start. simpl.
  repeat split; first [constructor | reflexivity | lia].
Qed.

Lemma start_remaining : remaining S0 (start S0) <= budget (config S0).
Proof.
  unfold remaining. simpl.
  pose proof (budget_drop (activeModelIndex S0) (config S0)) as Hdrop.
  destruct (drop (activeModelIndex S0) (config S0)) as [| model later]; [lia |].
  unfold budget in *. simpl in *. lia.
Qed.

End Failover.

Lemma finish_calls (s : Loop) : calls (finish s) = calls s.
Proof. unfold finish. destruct (_ && _); reflexivity. Qed.

Lemma finish_success (s : Loop) : success (finish s) = success s.
Proof. unfold finish. destruct (_ && _); reflexivity. Qed.

Lemma finish_cursor (s : Loop) : cursor (finish s) = cursor s.
Proof. unfold finish. destruct (_ && _); reflexivity. Qed.

Lemma failover_loop (E : Engine) (S0 : Setup) (s : Loop) :
  failover E S0 = Some s ->
  exists s', loop E S0 (budget (config S0)) (start S0) = Some s' /\ s = finish s'.
Proof.
  unfold failover. destruct (loop E S0 _ _) as [s' |]; simpl; [| discriminate].
  intros H. injection H as <-. exists s'. split; reflexivity.
Qed.

(** X16.  The failover loop of [Chat.jsx] always ends, and a send
    issues at most one request per key of the table, a model without
    keys counting for one. *)
Theorem failover_terminates (E : Engine) (S0 : Setup) :
  exists s, failover E S0 = Some s /\ length (calls s) <= budget (config S0).
Proof.
  destruct (loop_bound E S0 (budget (config S0)) (start S0) eq_refl (start_remaining S0))
    as (s' & Hloop & Hup & _).
  exists (finish s'). unfold failover. rewrite Hloop. split; [reflexivity |].
  rewrite finish_calls. simpl in Hup. pose proof (start_remaining S0). lia.
Qed.

(** X17.  An error outside the retryable class ends the send at once:
    the request it answers is the last one, the bot text is ["Error: "]
    followed by the message of the error, and the stored cursor is left
    as it was. *)
Theorem fatal_error_stops (E : Engine) (S0 : Setup) (s : Loop) (k : nat) (x : Sent)
    (e : JSError) :
  failover E S0 = Some s ->
  calls s !! k = Some x ->
  read_response E (endpoint S0 k (sent_call x)) = Throw e ->
  retryable e = false ->
  length (calls s) = S k
  /\ success s = false
  /\ botText s = JStr ("Error: " ++ message e)%string
  /\ cursor s = (activeModelIndex S0, activeKeyIndex S0).
Proof.
  intros Hf Hk Hread Hre.
  destruct (failover_loop E S0 s Hf) as (s' & Hloop & ->).
  rewrite finish_calls in *. rewrite finish_success, finish_cursor.
  destruct (loop_outcome E S0 _ _ _ (start_retrying E S0) Hloop)
    as [[(_ & _ & _ & Hall) _] | [(l & y & Hcalls & Hall & _ & Hok & _)
                                | (l & y & e' & Hcalls & Hall & Hs & Hthrow & Hre' & Hbot & Hcur)]].
  - destruct (Hall k x Hk) as (e' & He' & Hre'). congruence.
  - rewrite Hcalls in Hk.
    destruct (all_retried_last E S0 l y k x Hall Hk) as [(e' & He' & Hre') | [-> ->]];
      congruence.
  - rewrite Hcalls in Hk.
    destruct (all_retried_last E S0 l y k x Hall Hk) as [(e2 & He2 & Hre2) | [-> ->]];
      [congruence |].
    assert (e' = e) as -> by congruence.
    split; [rewrite Hcalls, length_app; simpl; lia |].
    split; [exact Hs |]. split; [| exact Hcur].
    unfold finish. rewrite Hs, Hbot. simpl. exact Hbot.
Qed.

Lemma fatal_error_stops_witness :
  exists s,
    failover Samples.engine (ChatSamples.question ChatSamples.busy_then_unauthorized 0 0)
    = Some s
    /\ length (calls s) = 2
    /\ success s = false
    /\ botText s = JStr "Error: Invalid token"
    /\ cursor s = (0, 0).
Proof.
  eexists. split; [vm_compute; reflexivity |].
  eapply (fatal_error_stops Samples.engine
            (ChatSamples.question ChatSamples.busy_then_unauthorized 0 0) _ 1 _
            (mkError "Error" "Invalid token")); reflexivity.
Defined.

(** X18.  When every request is answered with a retryable error, the
    send tries each position from the stored cursor to the end of the
    table once and no other, in the order of the table: the positions of
    its requests are the key indices of the stored model from the stored
    key index on (from 0 when that index is past its keys), then every
    key index of each later model, a model without keys standing for the
    one position with key index 0; each request carries the identifier
    of the model and the key at its position.  The send ends without
    success on the system-error text and leaves the stored cursor as it
    was. *)
Theorem all_retryable_exhausts (E : Engine) (S0 : Setup) :
  (forall n c, exists e, read_response E (endpoint S0 n c) = Throw e /\ retryable e = true) ->
  exists s,
    failover E S0 = Some s
    /\ success s = false
    /\ botText s = JStr SYSTEM_ERROR
    /\ cursor s = (activeModelIndex S0, activeKeyIndex S0)
    /\ length (calls s) = remaining S0 (start S0)
    /\ map position_of (calls s) = positions S0 (start S0)
    /\ Forall (well_aimed S0) (calls s).
Proof.
  intros Hbusy.
  destruct (loop_exhaust E S0 (budget (config S0)) Hbusy (start S0)
              (start_retrying E S0) (start_remaining S0))
    as (s' & Hloop & (Hs & Hbot & Hcur & _) & Hlen & Hat).
  exists (finish s'). unfold failover. rewrite Hloop. split; [reflexivity |].
  rewrite finish_success, finish_cursor, finish_calls.
  split; [exact Hs |]. split; [unfold finish; rewrite Hs, Hbot; reflexivity |].
  split; [exact Hcur |].
  split; [| split; [exact Hat | exact (proj2 (loop_ordered E S0 _ _ _ (start_ordered S0) Hloop))]].
  rewrite Hlen. simpl length.
  destruct (continues S0 (start S0)) eqn:Hc; [reflexivity |].
  pose proof (stops_outside S0 (start S0) Hc eq_refl) as Hout.
  unfold remaining. rewrite drop_ge by exact Hout. reflexivity.
Qed.

Lemma all_retryable_exhausts_witness :
  exists s,
    failover Samples.engine (ChatSamples.question ChatSamples.all_busy 0 1) = Some s
    /\ success s = false
    /\ botText s = JStr SYSTEM_ERROR
    /\ cursor s = (0, 1)
    /\ length (calls s) = 3
    /\ map position_of (calls s) = [(0, 1); (1, 0); (2, 0)]
    /\ Forall (well_aimed (ChatSamples.question ChatSamples.all_busy 0 1)) (calls s).
Proof.
  apply (all_retryable_exhausts Samples.engine
           (ChatSamples.question ChatSamples.all_busy 0 1)).
  intros n c. exists (mkError "Error" "RateLimit"). split; reflexivity.
Defined.

(** X19.  The cursor the component stores moves only on a success, and
    then to the position of the request that was answered; every
    request before that one was answered with a retryable error, and the
    bot text is what the answer gave.  Without a success the cursor is
    left as it was. *)
Theorem success_moves_cursor (E : Engine) (S0 : Setup) (s : Loop) :
  failover E S0 = Some s ->
  (success s = true ->
   exists l x,
     calls s = (l ++ [x])%list /\ all_retried E S0 l
     /\ read_response E (endpoint S0 (length l) (sent_call x)) = Ok (botText s)
     /\ cursor s = (sent_model x, sent_key x))
  /\ (success s = false -> cursor s = (activeModelIndex S0, activeKeyIndex S0)).
Proof.
  intros Hf. destruct (failover_loop E S0 s Hf) as (s' & Hloop & ->).
  rewrite finish_success, finish_cursor, finish_calls.
  destruct (loop_outcome E S0 _ _ _ (start_retrying E S0) Hloop)
    as [[(Hs & _ & Hcur & _) _] | [(l & y & Hcalls & Hall & Hs & Hok & Hcur)
                                 | (l & y & e' & _ & _ & Hs & _ & _ & _ & Hcur)]].
  - split; [congruence | intros _; exact Hcur].
  - split; [| congruence]. intros _. exists l, y.
    split; [exact Hcalls |]. split; [exact Hall |]. split; [| exact Hcur].
    unfold finish. rewrite Hs. exact Hok.
  - split; [congruence | intros _; exact Hcur].
Qed.

Lemma success_moves_cursor_witness :
  exists s,
    failover Samples.engine (ChatSamples.question ChatSamples.busy_then_text 0 0) = Some s
    /\ success s = true
    /\ botText s = JStr "hi"
    /\ (success s = true ->
        exists l x,
          calls s = (l ++ [x])%list
          /\ all_retried Samples.engine
               (ChatSamples.question ChatSamples.busy_then_text 0 0) l
          /\ read_response Samples.engine
               (endpoint (ChatSamples.question ChatSamples.busy_then_text 0 0)
                  (length l) (sent_call x)) = Ok (botText s)
          /\ cursor s = (sent_model x, sent_key x))
    /\ (success s = false -> cursor s = (0, 0)).
Proof.
  eexists. split; [vm_compute; reflexivity |].
  split; [reflexivity |]. split; [reflexivity |].
  apply (success_moves_cursor Samples.engine
           (ChatSamples.question ChatSamples.busy_then_text 0 0)).
  vm_compute. reflexivity.
Defined.

(** X20.  The loop never goes back: the requests of a send are in the
    order of the table (a later request is for a later model, or for
    the same model and a later key), each one is for a model at or
    after the stored one, and carries the identifier of that model and
    the key at its key index, which is [undefined] for a model without
    keys. *)
Theorem never_goes_back (E : Engine) (S0 : Setup) (s : Loop) :
  failover E S0 = Some s ->
  (forall i j x y,
      i < j -> calls s !! i = Some x -> calls s !! j = Some y -> before x y)
  /\ (forall x, x ∈ calls s -> well_aimed S0 x).
Proof.
  intros Hf. destruct (failover_loop E S0 s Hf) as (s' & Hloop & ->).
  rewrite finish_calls.
  destruct (loop_ordered E S0 _ _ _ (start_ordered S0) Hloop) as [Hsorted Haimed].
  split.
  - apply strongly_sorted_lookup. exact Hsorted.
  - apply Forall_forall. exact Haimed.
Qed.

Lemma never_goes_back_witness :
  exists s,
    failover Samples.engine (ChatSamples.question ChatSamples.all_busy 1 0) = Some s
    /\ (forall i j x y,
           i < j -> calls s !! i = Some x -> calls s !! j = Some y -> before x y)
    /\ (forall x, x ∈ calls s -> well_aimed (ChatSamples.question ChatSamples.all_busy 1 0) x).
Proof.
  eexists. split; [vm_compute; reflexivity |].
  apply (never_goes_back Samples.engine (ChatSamples.question ChatSamples.all_busy 1 0)).
  vm_compute. reflexivity.
Defined.

(** X21.  A send issues no request exactly when the stored model index
    lies outside the table; it then ends on the system-error text and
    leaves the stored cursor outside the table. *)
Theorem no_request_outside_table (E : Engine) (S0 : Setup) (s : Loop) :
  failover E S0 = Some s ->
  (calls s = [] <-> length (config S0) <= activeModelIndex S0)
  /\ (length (config S0) <= activeModelIndex S0 ->
      success s = false /\ botText s = JStr SYSTEM_ERROR
      /\ cursor s = (activeModelIndex S0, activeKeyIndex S0)).
Proof.
  intros Hf. destruct (failover_loop E S0 s Hf) as (s' & Hloop & ->).
  rewrite finish_calls, finish_success, finish_cursor.
  assert (Hout : length (config S0) <= activeModelIndex S0 -> s' = start S0).
  { intros Hle.
    rewrite loop_done in Hloop; [congruence |].
    unfold continues. simpl. apply Nat.ltb_ge. exact Hle. }
  split; [split |].
  - intros Hnil.
    destruct (loop_bound E S0 (budget (config S0)) (start S0) eq_refl (start_remaining S0))
      as (s2 & Hloop2 & _ & Hlow).
    assert (s2 = s') as -> by congruence.
    rewrite Hnil in Hlow. simpl in Hlow.
    destruct (continues S0 (start S0)) eqn:Hc; [lia |].
    apply (stops_outside S0 (start S0) Hc eq_refl).
  - intros Hle. rewrite (Hout Hle). reflexivity.
  - intros Hle. rewrite (Hout Hle). repeat split.
Qed.

Lemma no_request_outside_table_witness :
  exists s,
    failover Samples.engine (ChatSamples.question ChatSamples.busy_then_text 3 0) = Some s
    /\ (calls s = [] <-> 3 <= 3)
    /\ (3 <= 3 -> success s = false /\ botText s = JStr SYSTEM_ERROR /\ cursor s = (3, 0)).
Proof.
  eexists. split; [vm_compute; reflexivity |].
  apply (no_request_outside_table Samples.engine
           (ChatSamples.question ChatSamples.busy_then_text 3 0)).
  vm_compute. reflexivity.
Defined.

(** X22.  Deleting a conversation leaves the list non-empty and a
    current conversation in it, when there was one or when the deleted
    one was named current; and unless the list is replaced by a fresh
    conversation, no conversation with the deleted number is left. *)
Theorem delete_keeps_current (E : Engine) (chatId : Z) (p : Panel) :
  is_Some (getCurrentChat p) \/ currentChatId p = Some chatId ->
  is_Some (getCurrentChat (handleDeleteChat E chatId p))
  /\ conversations (handleDeleteChat E chatId p) <> []
  /\ (conversations (handleDeleteChat E chatId p) = [freshChat E]
      \/ forall c, c ∈ conversations (handleDeleteChat E chatId p) -> conv_id c <> chatId).
Proof.
  intros Hcur. unfold handleDeleteChat. cbv zeta.
  destruct (List.filter _ (conversations p)) as [| first rest] eqn:Hfilter.
  - unfold getCurrentChat. simpl. rewrite Z.eqb_refl.
    split; [eexists; reflexivity |]. split; [discriminate | left; reflexivity].
  - split; [| split; [discriminate |]].
    + unfold getCurrentChat. cbn [currentChatId conversations].
      destruct (currentChatId p) as [current |] eqn:Hid.
      * destruct (chatId =? current)%Z eqn:Heq.
        -- simpl. rewrite Z.eqb_refl. eexists; reflexivity.
        -- destruct Hcur as [[c Hc] | Hsame];
             [| injection Hsame as <-; rewrite Z.eqb_refl in Heq; discriminate].
           unfold getCurrentChat in Hc. rewrite Hid in Hc.
           apply find_some in Hc as [Hin Hc]. apply Z.eqb_eq in Hc.
           destruct (find _ (first :: rest)) as [c' |] eqn:Hfind; [eexists; reflexivity |].
           exfalso. pose proof (find_none _ _ Hfind c) as Hnone.
           rewrite <- Hfilter in Hnone.
           assert (Hc' : (conv_id c =? current)%Z = false).
           { apply Hnone. apply filter_In. split; [exact Hin |].
             rewrite Hc, Z.eqb_sym, Heq. reflexivity. }
           rewrite Hc, Z.eqb_refl in Hc'. discriminate.
      * destruct Hcur as [[c Hc] | Hsame]; [| discriminate].
        unfold getCurrentChat in Hc. rewrite Hid in Hc. discriminate.
    + right. cbn [conversations]. intros c Hc. rewrite <- Hfilter in Hc.
      apply list_elem_of_In in Hc. apply filter_In in Hc as [_ Hc].
      apply negb_true_iff in Hc. apply Z.eqb_neq in Hc. exact Hc.
Qed.

Lemma delete_keeps_current_witness :
  is_Some (getCurrentChat (handleDeleteChat Samples.engine 20 ChatSamples.two_chats))
  /\ conversations (handleDeleteChat Samples.engine 20 ChatSamples.two_chats) <> []
  /\ (conversations (handleDeleteChat Samples.engine 20 ChatSamples.two_chats)
      = [freshChat Samples.engine]
      \/ forall c, c ∈ conversations (handleDeleteChat Samples.engine 20 ChatSamples.two_chats)
                   -> conv_id c <> 20%Z).
Proof.
  apply (delete_keeps_current Samples.engine 20 ChatSamples.two_chats).
  left. eexists. reflexivity.
Defined.

End ChatExtra.

(* ===================================================================== *)
(** ** Properties of the choice of the current chat                       *)
(* ===================================================================== *)

Module ShellExtra.
Import JS Storage MainChat App Sidebar.

Lemma has_mode_encoded (mode : string) (c : Chat) :
  has_mode mode (encode_chat c) = Ok (String.eqb (c_mode c) mode).
Proof. reflexivity. Qed.

Lemma has_number_encoded (n : JSNumber) (c : Chat) :
  has_number n (encode_chat c)
  = Ok (match n with
        | Int z => (c_id c =? z)%Z
        | NaN => false
        end).
Proof. destruct n; reflexivity. Qed.

Lemma find_mode_chats (mode : string) (chats : list Chat) :
  find_in (has_mode mode) (map encode_chat chats)
  = Ok (encode_chat <$> first_in_mode mode chats).
Proof.
  unfold first_in_mode. induction chats as [| c chats IH]; [done |].
  cbn [map find_in List.find]. rewrite has_mode_encoded.
  destruct (String.eqb (c_mode c) mode); [done | exact IH].
Qed.

Lemma find_number_chats (n : JSNumber) (chats : list Chat) :
  exists found,
    find_in (has_number n) (map encode_chat chats) = Ok (encode_chat <$> found)
    /\ (forall c, found = Some c -> In c chats).
Proof.
  induction chats as [| c chats (found & IH & Hin)].
  - exists None. split; [done | discriminate].
  - cbn [map find_in]. rewrite has_number_encoded.
    destruct (match n with Int z => (c_id c =? z)%Z | NaN => false end).
    + exists (Some c). split; [done |]. intros c' [= <-]. by left.
    + exists found. split; [exact IH |]. intros c' Hc'. right. by apply Hin.
Qed.


Lemma first_in_mode_none (mode : string) (chats : list Chat) (c : Chat) :
  first_in_mode mode chats = None -> In c chats -> String.eqb (c_mode c) mode = false.
Proof. intros Hnone Hin. exact (find_none _ _ Hnone c Hin). Qed.

Lemma created_holds (E : Engine) (mode : string) (chats : list Chat) (ls : LocalStorage) :
  holds_chats ls chats -> holds_chats (created E mode chats ls) (fresh_chat E mode :: chats).
Proof.
  intros (Hav & Hwr & _). repeat split; try done. unfold created. simpl.
  rewrite lookup_insert_ne by done. apply lookup_insert_eq.
Qed.

Lemma createNewChat_typed (E : Engine) (mode : string) (chats : list Chat)
  (ls : LocalStorage) :
  holds_chats ls chats ->
  createNewChat E mode ls = (Ok (encode_chat (fresh_chat E mode)), created E mode chats ls).
Proof.
  intros Hls. pose proof Hls as (Hav & Hwr & _).
  unfold createNewChat, bind. rewrite (StorageExtra.holds_chats_history ls chats Hls).
  rewrite StorageSpec.saveChatHistory_result, Hav, Hwr. simpl andb. cbv iota.
  rewrite StorageSpec.saveCurrentChatId_result. simpl available. simpl writable.
  rewrite Hav, Hwr. reflexivity.
Qed.

Lemma startChat_typed (E : Engine) (mode : string) (chats : list Chat) (ls : LocalStorage) :
  holds_chats ls chats ->
  startChat E mode ls = (Ok (Some (JNum (now E 0))), created E mode chats ls).
Proof.
  intros Hls. unfold startChat, bind. by rewrite (createNewChat_typed E mode chats ls Hls).
Qed.

Lemma modeEffect_typed (E : Engine) (mode : string) (chats : list Chat) (ls : LocalStorage) :
  holds_chats ls chats ->
  modeEffect E mode ls
  = match first_in_mode mode chats with
    | Some c => (Ok (Some (JNum (c_id c))), ls)
    | None => (Ok (Some (JNum (now E 0))), created E mode chats ls)
    end.
Proof.
  intros Hls. unfold modeEffect, bind.
  rewrite (StorageExtra.holds_chats_history ls chats Hls).
  unfold lift at 1, array_find. rewrite find_mode_chats.
  destruct (first_in_mode mode chats) as [c |]; [reflexivity |].
  simpl. by apply startChat_typed.
Qed.

Lemma loadChat_typed (E : Engine) (id : Z) (mode : string) (chats : list Chat)
  (ls : LocalStorage) :
  holds_chats ls chats ->
  loadChat E (Some (JNum id)) mode ls
  = match (if (id =? 0)%Z then None else lookup_chat id chats) with
    | Some c =>
        if String.eqb (c_mode c) mode
        then (Ok (Some (JArr (map encode_message (c_messages c))), None), ls)
        else (Ok (Some (JArr []), Some (Some (JNum (now E 0)))), created E mode chats ls)
    | None => (Ok (Some (JArr []), Some (Some (JNum (now E 0)))), created E mode chats ls)
    end.
Proof.
  intros Hls.
  assert (Hcreate : bind (createNewChat E mode)
                      (fun newChat => bind (lift (get_prop (Some newChat) "id"))
                         (fun id0 => ret (Some (JArr []), Some id0))) ls
                    = (Ok (Some (JArr []), Some (Some (JNum (now E 0)))),
                       created E mode chats ls)).
  { unfold bind. by rewrite (createNewChat_typed E mode chats ls Hls). }
  unfold loadChat. cbv zeta. cbn [truthy].
  destruct (id =? 0)%Z; [exact Hcreate |]. cbn [negb].
  unfold bind at 1. rewrite (StorageExtra.getChatById_typed ls chats id Hls).
  destruct (lookup_chat id chats) as [c |]; [| exact Hcreate].
  cbn [fmap option_fmap option_map].
  change (truthy (Some (encode_chat c))) with true. cbv iota.
  unfold bind at 1, lift at 1.
  change (get_prop (Some (encode_chat c)) "mode") with (Ok (A := Value) (Some (JStr (c_mode c)))).
  cbv iota. cbn [strict_eq].
  destruct (String.eqb (c_mode c) mode); [reflexivity | exact Hcreate].
Qed.

(** X23.  On a store holding a list of chats, the effect run on mount
    chooses the chat exactly as the effect run on a change of mode does:
    the first stored chat of the active mode, or a new chat.  The chat
    id saved in the store has no part in the choice. *)
Theorem initializeChat_ignores_saved_id (E : Engine) (mode : string) (chats : list Chat)
    (ls : LocalStorage) :
  holds_chats ls chats ->
  initializeChat E mode ls = modeEffect E mode ls.
Proof.
  intros Hls. pose proof Hls as (Hav & Hwr & _).
  rewrite (modeEffect_typed E mode chats ls Hls).
  unfold initializeChat. unfold bind at 1.
  unfold getCurrentChatId, try_catch, getItem. rewrite Hav.
  unfold bind at 1. rewrite (StorageExtra.holds_chats_history ls chats Hls).
  unfold bind at 1, lift at 1, array_find. rewrite find_mode_chats.
  destruct (first_in_mode mode chats) as [c |] eqn:Hfirst; [reflexivity |].
  cbn [fmap option_fmap option_map truthy].
  destruct (items ls !! CURRENT_CHAT_ID) as [saved |];
    [| by apply startChat_typed].
  destruct (is_empty (Some saved)); [by apply startChat_typed |].
  unfold bind at 1, lift at 1.
  destruct (find_number_chats (Number E saved) chats) as (found & -> & Hin).
  destruct found as [c |]; [| by apply startChat_typed].
  cbn [fmap option_fmap option_map truthy encode_chat].
  unfold bind at 1, lift at 1. change (JObj (chat_fields c)) with (encode_chat c).
  rewrite has_mode_encoded.
  rewrite (first_in_mode_none mode chats c Hfirst (Hin c eq_refl)).
  by apply startChat_typed.
Qed.

Lemma initializeChat_ignores_saved_id_witness :
  initializeChat Samples.engine "Solance" Samples.saved_store
  = modeEffect Samples.engine "Solance" Samples.saved_store.
Proof.
  apply (initializeChat_ignores_saved_id Samples.engine "Solance"
           [Samples.first_chat; Samples.second_chat]).
  repeat split.
Defined.

(** X24.  A change of mode starts a new chat.  React runs the effects
    of a child before those of its parent: once [activeMode] has
    changed, the load effect of [MainChat] runs first, on the id of the
    chat shown so far, then the mode effect of [App], then the load
    effect again, on the id [App] then holds.  When the chat shown so
    far is not of the new mode, or is not stored, the first run creates
    a chat of the new mode in front of the stored ones and reports its
    id; the mode effect, run on the store so left, selects that new
    chat, also when older chats of the mode are stored; and the load
    effect run on its id shows no message, reports nothing and creates
    nothing more. *)
Theorem mode_change_starts_new_chat (E : Engine) (id : Z) (mode : string)
    (chats : list Chat) (ls : LocalStorage) :
  holds_chats ls chats ->
  (forall c, lookup_chat id chats = Some c -> c_mode c <> mode) ->
  now E 0 <> 0%Z ->
  loadChat E (Some (JNum id)) mode ls
  = (Ok (Some (JArr []), Some (Some (JNum (now E 0)))), created E mode chats ls)
  /\ modeEffect E mode (created E mode chats ls)
     = (Ok (Some (JNum (now E 0))), created E mode chats ls)
  /\ loadChat E (Some (JNum (now E 0))) mode (created E mode chats ls)
     = (Ok (Some (JArr []), None), created E mode chats ls)
  /\ holds_chats (created E mode chats ls) (fresh_chat E mode :: chats).
Proof.
  intros Hls Hother Hnow. pose proof (created_holds E mode chats ls Hls) as Hls'.
  split; [| split; [| split; [| exact Hls']]].
  - rewrite (loadChat_typed E id mode chats ls Hls).
    destruct (id =? 0)%Z; [reflexivity |].
    destruct (lookup_chat id chats) as [c |] eqn:Hc; [| reflexivity].
    destruct (String.eqb (c_mode c) mode) eqn:Hmode; [| reflexivity].
    apply String.eqb_eq in Hmode. by destruct (Hother c eq_refl).
  - rewrite (modeEffect_typed E mode _ _ Hls').
    unfold first_in_mode. cbn [List.find fresh_chat c_mode].
    by rewrite String.eqb_refl.
  - rewrite (loadChat_typed E _ mode _ _ Hls').
    assert (Hz : (now E 0 =? 0)%Z = false) by (by apply Z.eqb_neq).
    rewrite Hz. unfold lookup_chat. cbn [List.find fresh_chat c_id].
    rewrite Z.eqb_refl. cbn [c_mode c_messages]. by rewrite String.eqb_refl.
Qed.

Lemma mode_change_starts_new_chat_witness :
  loadChat Samples.engine (Some (JNum (c_id Samples.first_chat))) "Coder" Samples.chat_store
  = (Ok (Some (JArr []), Some (Some (JNum (now Samples.engine 0)))),
     created Samples.engine "Coder" [Samples.first_chat; Samples.second_chat]
       Samples.chat_store)
  /\ modeEffect Samples.engine "Coder"
       (created Samples.engine "Coder" [Samples.first_chat; Samples.second_chat]
          Samples.chat_store)
     = (Ok (Some (JNum (now Samples.engine 0))),
        created Samples.engine "Coder" [Samples.first_chat; Samples.second_chat]
          Samples.chat_store)
  /\ loadChat Samples.engine (Some (JNum (now Samples.engine 0))) "Coder"
       (created Samples.engine "Coder" [Samples.first_chat; Samples.second_chat]
          Samples.chat_store)
     = (Ok (Some (JArr []), None),
        created Samples.engine "Coder" [Samples.first_chat; Samples.second_chat]
          Samples.chat_store)
  /\ holds_chats
       (created Samples.engine "Coder" [Samples.first_chat; Samples.second_chat]
          Samples.chat_store)
       (fresh_chat Samples.engine "Coder" :: [Samples.first_chat; Samples.second_chat]).
Proof.
  apply (mode_change_starts_new_chat Samples.engine (c_id Samples.first_chat) "Coder"
           [Samples.first_chat; Samples.second_chat] Samples.chat_store).
  - repeat split.
  - intros c [= <-]. discriminate.
  - discriminate.
Defined.

(** X25.  The load effect never shows a chat of another mode: when the
    current id names no stored chat, or a chat of another mode, it
    creates a chat of the active mode in front of the stored ones,
    shows no message and reports the id of the new chat to the parent.
    The chats stored before are all kept. *)
Theorem load_replaces_other_mode (E : Engine) (id : Z) (mode : string) (chats : list Chat)
    (ls : LocalStorage) :
  holds_chats ls chats ->
  (forall c, lookup_chat id chats = Some c -> c_mode c <> mode) ->
  loadChat E (Some (JNum id)) mode ls
  = (Ok (Some (JArr []), Some (Some (JNum (now E 0)))), created E mode chats ls)
  /\ holds_chats (created E mode chats ls) (fresh_chat E mode :: chats)
  /\ getChatById (JNum (now E 0)) (created E mode chats ls)
     = (Ok (Some (encode_chat (fresh_chat E mode))), created E mode chats ls).
Proof.
  intros Hls Hother. pose proof (created_holds E mode chats ls Hls) as Hls'.
  split; [| split; [exact Hls' |]].
  - rewrite (loadChat_typed E id mode chats ls Hls).
    destruct (id =? 0)%Z; [reflexivity |].
    destruct (lookup_chat id chats) as [c |] eqn:Hc; [| reflexivity].
    destruct (String.eqb (c_mode c) mode) eqn:Hmode; [| reflexivity].
    apply String.eqb_eq in Hmode. by destruct (Hother c eq_refl).
  - rewrite (StorageExtra.getChatById_typed _ _ (now E 0) Hls').
    unfold lookup_chat. cbn [List.find fresh_chat c_id]. by rewrite Z.eqb_refl.
Qed.

Lemma load_replaces_other_mode_witness :
  loadChat Samples.engine (Some (JNum (c_id Samples.first_chat))) "Coder" Samples.chat_store
  = (Ok (Some (JArr []), Some (Some (JNum (now Samples.engine 0)))),
     created Samples.engine "Coder" [Samples.first_chat; Samples.second_chat]
       Samples.chat_store)
  /\ holds_chats
       (created Samples.engine "Coder" [Samples.first_chat; Samples.second_chat]
          Samples.chat_store)
       (fresh_chat Samples.engine "Coder" :: [Samples.first_chat; Samples.second_chat])
  /\ getChatById (JNum (now Samples.engine 0))
       (created Samples.engine "Coder" [Samples.first_chat; Samples.second_chat]
          Samples.chat_store)
     = (Ok (Some (encode_chat (fresh_chat Samples.engine "Coder"))),
        created Samples.engine "Coder" [Samples.first_chat; Samples.second_chat]
          Samples.chat_store).
Proof.
  apply (load_replaces_other_mode Samples.engine (c_id Samples.first_chat) "Coder"
           [Samples.first_chat; Samples.second_chat] Samples.chat_store).
  - repeat split.
  - intros c [= <-]. discriminate.
Defined.



End ShellExtra.
